(** * VoiceMasking: a shallow embedding of the audio back end

    The development follows [src/backend]:
    - [audio_processor.py]  ([AudioProcessor]: profile table, pitch and
      formant shifting, the final normalisation, the capture callback);
    - [advanced_effects.py] ([EmotionModulator._apply_eq],
      [EnvironmentalEffects.apply_echo]);
    - [watermark.py]        ([AudioWatermark.embed_watermark] and
      [detect_watermark]).

    Samples are Python/NumPy floats.  They are modelled as exact rationals
    ([Q]): every finite float is a rational, and the properties below are
    about control flow, lengths and amplitude bounds, not about rounding.
    Comparisons of floats become [Qeq_bool]/[Qle_bool]/[Qlt] tests.  Python
    exceptions are explicit: a function that can raise returns a [result].

    Where the code takes a sample count with [int(...)] of a float
    expression ([int(n / factor)], [int(delay_ms * rate / 1000)],
    [int(duration * rate)]), the model truncates the exact value.  The
    float can lie on the other side of a whole number, so that the code's
    count is one off the model's; results about such a count are therefore
    stated where the two agree, or of what holds for either count.  A power
    [10 ** x] beyond the largest float raises [OverflowError], as in
    Python. *)

From Stdlib Require Import ZArith QArith Qabs Qround Lqa Lia.
From stdpp Require Import base option list gmap strings.

Local Open Scope Z_scope.

(** ** Exceptions *)

Inductive exn : Type :=
  | ValueError
  | ZeroDivisionError
  | IndexError
  | OverflowError
  | Full      (* queue.Full *)
  | Empty.    (* queue.Empty *)

Inductive result (A : Type) : Type :=
  | Ok (a : A)
  | Raise (e : exn).
Arguments Ok {A} a.
Arguments Raise {A} e.

#[global] Instance result_ret : MRet result := fun A a => Ok a.
#[global] Instance result_bind : MBind result := fun A B f m =>
  match m with
  | Ok a => f a
  | Raise e => Raise e
  end.

Definition is_Ok {A} (r : result A) : Prop := exists a, r = Ok a.

(** ** Python and NumPy primitives on rationals *)

(** [int(x)] of a float: truncation towards zero. *)
Definition py_int (x : Q) : Z := Z.quot (Qnum x) (Z.pos (Qden x)).

(** [a / b] on Python numbers raises [ZeroDivisionError] when [b == 0]. *)
Definition py_truediv (a b : Q) : result Q :=
  if Qeq_bool b 0 then Raise ZeroDivisionError else Ok (a / b)%Q.

Definition Qltb (a b : Q) : bool := negb (Qle_bool b a).

(** [sys.float_info.max], the largest finite float. *)
Definition DBL_MAX : Q := inject_Z (2 ^ 1024 - 2 ^ 971).

Definition of_nat (n : nat) : Q := inject_Z (Z.of_nat n).

(** A one-dimensional array of samples. *)
Abbreviation Block := (list Q).

(** [np.arange(n)] *)
Definition np_arange (n : nat) : Block := map of_nat (seq 0 n).

(** [np.linspace(start, stop, num, endpoint)]: [num] evenly spaced samples;
    a negative [num] raises [ValueError].  With [endpoint] the last sample is
    set to [stop] itself when [num > 1]. *)
Definition np_linspace (start stop : Q) (num : Z) (endpoint : bool) : result Block :=
  if num <? 0 then Raise ValueError
  else
    let n := Z.to_nat num in
    let div := if endpoint then (n - 1)%nat else n in
    let delta := (stop - start)%Q in
    let y := match div with
             | O => map (fun i => of_nat i * delta + start)%Q (seq 0 n)
             | S _ => map (fun i => of_nat i * (delta / of_nat div) + start)%Q (seq 0 n)
             end in
    if endpoint && (1 <? n)%nat then Ok (removelast y ++ [stop]) else Ok y.

(** One abscissa of [np.interp(x, xp, fp)] for increasing [xp]: walk the
    segments [(xa, fa) -- (xb, fb)]; left of the first point the first
    ordinate, right of the last point the last ordinate. *)
Fixpoint interp_walk (x xa fa : Q) (rest : list (Q * Q)) : Q :=
  match rest with
  | [] => fa
  | (xb, fb) :: rest' =>
      if Qltb x xb
      then ((fb - fa) / (xb - xa) * (x - xa) + fa)%Q
      else interp_walk x xb fb rest'
  end.

Definition interp_one (x : Q) (pts : list (Q * Q)) : Q :=
  match pts with
  | [] => 0%Q
  | (x0, f0) :: rest => if Qltb x x0 then f0 else interp_walk x x0 f0 rest
  end.

(** [np.interp(x, xp, fp)]: [ValueError] for an empty [xp] and for [fp] of
    another length than [xp]. *)
Definition np_interp (x xp fp : Block) : result Block :=
  if (length xp =? 0)%nat then Raise ValueError
  else if negb (length xp =? length fp)%nat then Raise ValueError
  else Ok (map (fun xi => interp_one xi (zip xp fp)) x).

(** [np.pad(a, (0, k))]: [k] zeros appended. *)
Definition np_pad_right (a : Block) (k : nat) : Block := a ++ replicate k 0%Q.

(** [np.abs] on a real array. *)
Definition np_abs (a : Block) : Block := map Qabs a.

Definition Qmaxb (a b : Q) : Q := if Qltb a b then b else a.

(** [np.max]: [ValueError] on a zero-size array. *)
Definition np_max (a : Block) : result Q :=
  match a with
  | [] => Raise ValueError
  | x :: xs => Ok (fold_left Qmaxb xs x)
  end.

(** Element-wise operations of NumPy arrays of equal length. *)
Definition np_add (a b : Block) : Block := zip_with Qplus a b.
Definition np_scale (c : Q) (a : Block) : Block := map (fun x => c * x)%Q a.

(** ** [queue.Queue] *)

(** A FIFO queue of blocks.  [maxsize <= 0] means unbounded, as in Python. *)
Record Queue : Type := mkQueue {
  maxsize : Z;
  pending : list Block;   (* oldest first *)
}.

(** [queue.Queue()] *)
Definition Queue_new : Queue := mkQueue 0 [].

Definition queue_full (q : Queue) : bool :=
  (0 <? maxsize q) && (maxsize q <=? Z.of_nat (length (pending q))).

(** [put_nowait]: append at the tail, or raise [Full] without waiting. *)
Definition put_nowait (q : Queue) (b : Block) : result Queue :=
  if queue_full q then Raise Full
  else Ok (mkQueue (maxsize q) (pending q ++ [b])).

(** [get_nowait]: remove the oldest block, or raise [Empty]. *)
Definition get_nowait (q : Queue) : result (Block * Queue) :=
  match pending q with
  | [] => Raise Empty
  | b :: rest => Ok (b, mkQueue (maxsize q) rest)
  end.

(** ** [AudioProcessor]: state *)

Record AudioProcessor : Type := mkAudioProcessor {
  sample_rate : Z;
  block_size : Z;
  is_running : bool;
  input_queue : Queue;
  output_queue : Queue;
  pitch_shift : Q;
  formant_shift : Q;
  voice_profile : string;
}.

(** [AudioProcessor.__init__] *)
Definition AudioProcessor_init (sample_rate block_size : Z) : AudioProcessor :=
  {| sample_rate := sample_rate;
     block_size := block_size;
     is_running := false;
     input_queue := Queue_new;
     output_queue := Queue_new;
     pitch_shift := 1.0;
     formant_shift := 1.0;
     voice_profile := "original" |}.

(** [AudioProcessor()] with the default arguments. *)
Definition AudioProcessor_default : AudioProcessor := AudioProcessor_init 44100 1024.

(** The table local to [set_voice_profile]: name -> (pitch_shift, formant_shift). *)
Definition profiles : gmap string (Q * Q) :=
  <["original" := (1.0, 1.0)%Q]>
  (<["male" := (0.8, 0.9)%Q]>
  (<["female" := (1.3, 1.1)%Q]>
  (<["child" := (1.5, 1.2)%Q]>
  (<["robot" := (1.0, 1.0)%Q]>
  (<["elderly" := (0.9, 0.95)%Q]> ∅))))).

(** [AudioProcessor.set_voice_profile] *)
Definition set_voice_profile (self : AudioProcessor) (profile : string) : AudioProcessor :=
  let self1 :=
    {| sample_rate := sample_rate self;
       block_size := block_size self;
       is_running := is_running self;
       input_queue := input_queue self;
       output_queue := output_queue self;
       pitch_shift := pitch_shift self;
       formant_shift := formant_shift self;
       voice_profile := profile |} in
  match profiles !! profile with
  | Some (p, f) =>
      {| sample_rate := sample_rate self1;
         block_size := block_size self1;
         is_running := is_running self1;
         input_queue := input_queue self1;
         output_queue := output_queue self1;
         pitch_shift := p;
         formant_shift := f;
         voice_profile := voice_profile self1 |}
  | None => self1
  end.

(** The default profiles of [VoiceProfileManager._load_default_profiles]
    ([voice_profiles.py]), reduced to name -> (pitch_shift, formant_shift). *)
Definition default_profiles : list (string * (Q * Q)) :=
  [ ("original", (1.0, 1.0)%Q);
    ("male_deep", (0.7, 0.85)%Q);
    ("female_high", (1.4, 1.15)%Q);
    ("child", (1.6, 1.25)%Q);
    ("elderly", (0.9, 0.95)%Q);
    ("robot", (1.0, 1.0)%Q);
    ("alien", (1.2, 1.3)%Q);
    ("monster", (0.6, 0.8)%Q);
    ("whisper", (0.95, 1.05)%Q);
    ("announcer", (0.85, 0.9)%Q) ].

(** [VoiceProfileManager.profiles] after [__init__] without a profiles file:
    later entries overwrite earlier ones of the same name. *)
Definition manager_profiles : gmap string (Q * Q) :=
  foldl (fun m e => <[e.1 := e.2]> m) ∅ default_profiles.

(** ** The capture callback *)

(** A two-dimensional [indata] array of shape [(frames, channels)]. *)
Record Frames : Type := mkFrames {
  channels : nat;            (* indata.shape[1] *)
  frames : list (list Q);    (* one row per frame *)
}.

Definition Qsum (l : list Q) : Q := fold_left Qplus l 0%Q.

(** [np.mean(indata, axis=1)] *)
Definition mean_axis1 (indata : Frames) : Block :=
  map (fun row => Qsum row / of_nat (channels indata))%Q (frames indata).

(** [indata[:, 0]]: [IndexError] when the array has no column. *)
Definition column0 (indata : Frames) : result Block :=
  if (channels indata =? 0)%nat then Raise IndexError
  else Ok (map (fun row => default 0%Q (row !! 0%nat)) (frames indata)).

(** The mono conversion at the head of [audio_input_callback]. *)
Definition to_mono (indata : Frames) : result Block :=
  if (1 <? channels indata)%nat then Ok (mean_axis1 indata) else column0 indata.

Definition with_input_queue (self : AudioProcessor) (q : Queue) : AudioProcessor :=
  {| sample_rate := sample_rate self;
     block_size := block_size self;
     is_running := is_running self;
     input_queue := q;
     output_queue := output_queue self;
     pitch_shift := pitch_shift self;
     formant_shift := formant_shift self;
     voice_profile := voice_profile self |}.

(** [AudioProcessor.audio_input_callback].  [status] is [Some s] when the
    driver's flags are set ([s] their printed form).  The result is the new
    processor and the lines printed. *)
Definition audio_input_callback (self : AudioProcessor) (indata : Frames)
    (status : option string) : result (AudioProcessor * list string) :=
  let printed :=
    match status with
    | Some s => [String.append "Input stream status: " s]
    | None => []
    end in
  audio_data ← to_mono indata;
  match put_nowait (input_queue self) audio_data with
  | Ok q => Ok (with_input_queue self q, printed)
  | Raise Full => Ok (self, printed ++ ["Input queue full, dropping audio frame"])
  | Raise e => Raise e
  end.

(** The capture side calling back once per array of [submitted], without a
    worker pass in between: the processor after the last call and all the
    lines printed. *)
Fixpoint submit_all (self : AudioProcessor) (submitted : list Frames)
    : result (AudioProcessor * list string) :=
  match submitted with
  | [] => Ok (self, [])
  | indata :: rest =>
      '(self1, printed1) ← audio_input_callback self indata None;
      '(self2, printed2) ← submit_all self1 rest;
      Ok (self2, printed1 ++ printed2)
  end.

(** ** Pitch shifting (no library call beyond NumPy's array primitives) *)

(** [AudioProcessor.pitch_shift_audio]; [EmotionModulator._pitch_shift] is
    the same code.  [new_length] is the truncation of the exact
    quotient. *)
Definition pitch_shift_audio (audio_data : Block) (shift_factor : Q) : result Block :=
  if Qeq_bool shift_factor 1.0 then Ok audio_data
  else
    let original_length := length audio_data in
    q ← py_truediv (of_nat original_length) shift_factor;
    let new_length := py_int q in
    indices ← np_linspace 0 (of_nat original_length - 1) new_length true;
    shifted_audio ← np_interp indices (np_arange original_length) audio_data;
    if (original_length <? length shifted_audio)%nat
    then Ok (take original_length shifted_audio)
    else Ok (np_pad_right shifted_audio (original_length - length shifted_audio)).

(** ** The numeric libraries

    What lies outside the repository and outside exact rational arithmetic:
    the transcendental functions of NumPy and Python, SciPy's filter design
    and filtering, and the MD5 digest.  They are the operations of a class;
    the code below is written against it. *)

Inductive btype : Type := Band | Low | High.

(** Values stored in a metadata dict. *)
Inductive PyVal : Type :=
  | PyInt (z : Z)
  | PyStr (s : string)
  | PyBool (b : bool).

Class SignalLib : Type := {
  np_pi : Q;
  np_sin : Q -> Q;
  np_cos : Q -> Q;
  np_sqrt : Q -> Q;
  (** [10 ** x] *)
  pow10 : Q -> Q;
  (** [scipy.signal.square] at one phase *)
  signal_square : Q -> Q;
  (** [scipy.signal.butter(N, Wn, btype, fs)]: the coefficient lists [(b, a)] *)
  signal_butter : nat -> list Q -> btype -> option Q -> result (list Q * list Q);
  (** [scipy.signal.filtfilt(b, a, x)] *)
  signal_filtfilt : list Q -> list Q -> Block -> result Block;
  (** [int(hashlib.md5(str(sorted(metadata.items())).encode()).hexdigest()[:4], 16)] *)
  metadata_digest : gmap string PyVal -> Z;
}.

(** The documented contract of [filtfilt] that the length results rest on:
    the output has the shape of the input, and the call succeeds on inputs
    longer than the default padding [3 * max(len(a), len(b))]. *)
Class SignalLibLaws (lib : SignalLib) : Prop := {
  filtfilt_length : forall b a x y, signal_filtfilt b a x = Ok y -> length y = length x;
  filtfilt_ok : forall b a x,
    (3 * Nat.max (length a) (length b) < length x)%nat -> is_Ok (signal_filtfilt b a x);
  butter_robot_ok : forall fs, (6000 < fs)%Q ->
    exists b a, signal_butter 4 [300; 3000]%Q Band (Some fs) = Ok (b, a)
                /\ length b = 9%nat /\ length a = 9%nat;
}.

(** Where [10 ** x] leaves the floats: [10 ** 308] is a finite float and
    [10 ** 309] is beyond [sys.float_info.max]. *)
Class PowLaws (lib : SignalLib) : Prop := {
  pow10_finite : forall x, (x <= 308)%Q -> (pow10 x <= DBL_MAX)%Q;
  pow10_overflow : forall x, (309 <= x)%Q -> (DBL_MAX < pow10 x)%Q;
}.

(** ** Complex arrays and the discrete Fourier transform *)

Abbreviation C := (Q * Q)%type.

Definition cadd (a b : C) : C := (a.1 + b.1, a.2 + b.2)%Q.
Definition cmul (a b : C) : C := (a.1 * b.1 - a.2 * b.2, a.1 * b.2 + a.2 * b.1)%Q.
Definition cscale (c : Q) (a : C) : C := (c * a.1, c * a.2)%Q.
Definition csum (l : list C) : C := fold_left cadd l (0, 0)%Q.
Definition of_real (x : Q) : C := (x, 0%Q).

(** [np.real] *)
Definition np_real (a : list C) : Block := map fst a.

(** Boolean-mask indexing [a[mask]]. *)
Definition select {A} (mask : list bool) (a : list A) : list A :=
  map snd (filter (fun p => Is_true p.1) (zip mask a)).

(** [np.argmax]: the first index of the maximum. *)
Fixpoint argmax_from (best_i : nat) (best : Q) (i : nat) (a : Block) : nat :=
  match a with
  | [] => best_i
  | x :: xs =>
      if Qltb best x then argmax_from i x (S i) xs else argmax_from best_i best (S i) xs
  end.

Definition np_argmax (a : Block) : result nat :=
  match a with
  | [] => Raise ValueError
  | x :: xs => Ok (argmax_from 0 x 1 xs)
  end.

(** Assignment [a[idx] = v] with Python's negative indices. *)
Definition py_setitem {A} (a : list A) (idx : Z) (v : A) : result (list A) :=
  let n := Z.of_nat (length a) in
  if (idx <? - n) || (n <=? idx) then Raise IndexError
  else Ok (<[Z.to_nat (if idx <? 0 then idx + n else idx) := v]> a).

(** [np.fft.fftfreq(n, d)]: the sample frequencies
    [0, 1, ..., (n-1)//2, -(n//2), ..., -1], each times [1/(n*d)]. *)
Definition np_fftfreq (n : nat) (d : Q) : result Block :=
  val ← py_truediv 1 (of_nat n * d);
  let N := ((n - 1) / 2 + 1)%nat in
  let p1 := map of_nat (seq 0 N) in
  let p2 := map (fun i => inject_Z (Z.of_nat i - Z.of_nat (n / 2))) (seq 0 (n / 2)) in
  Ok (map (fun k => k * val)%Q (p1 ++ p2)).

Section Signal.
Context {lib : SignalLib}.

(** [exp(i * theta)] *)
Definition cis (theta : Q) : C := (np_cos theta, np_sin theta).

(** [|z|] of a complex number ([np.abs] on a complex array). *)
Definition cabs (z : C) : Q := np_sqrt (z.1 * z.1 + z.2 * z.2)%Q.

(** The sum [sum_m x_m * exp(sign * 2 pi i * k * m / n)] for each [k < n]. *)
Definition dft (sign : Q) (x : list C) : list C :=
  let n := length x in
  map (fun k =>
         csum (imap (fun m xm =>
                       cmul xm (cis (sign * (2 * np_pi) * of_nat k * of_nat m / of_nat n)%Q))
                    x))
      (seq 0 n).

(** [np.fft.fft]: [ValueError] on zero data points. *)
Definition np_fft (x : list C) : result (list C) :=
  if (length x =? 0)%nat then Raise ValueError else Ok (dft (-1) x).

(** [np.fft.ifft] *)
Definition np_ifft (x : list C) : result (list C) :=
  if (length x =? 0)%nat then Raise ValueError
  else Ok (map (cscale (1 / of_nat (length x))%Q) (dft 1 x)).

(** The loop of [apply_formant_shift]: bin [i] moves to bin [int(i * g)]. *)
Definition remap_bins (shift_factor : Q) (fft : list C) (freqs : Block) : result (list C) :=
  foldl (fun acc e =>
           shifted_fft ← acc;
           let '(i, (freq, fft_i)) := e in
           if Qltb 0 freq then
             let new_freq_idx := py_int (of_nat i * shift_factor)%Q in
             if new_freq_idx <? Z.of_nat (length shifted_fft)
             then py_setitem shifted_fft new_freq_idx fft_i
             else Ok shifted_fft
           else Ok shifted_fft)
        (Ok (replicate (length fft) (0, 0)%Q))
        (zip (seq 0 (length freqs)) (zip freqs fft)).

(** [AudioProcessor.apply_formant_shift] *)
Definition apply_formant_shift (self : AudioProcessor) (audio_data : Block)
    (shift_factor : Q) : result Block :=
  if Qeq_bool shift_factor 1.0 then Ok audio_data
  else
    fft ← np_fft (map of_real audio_data);
    d ← py_truediv 1 (inject_Z (sample_rate self));
    freqs ← np_fftfreq (length audio_data) d;
    shifted_fft ← remap_bins shift_factor fft freqs;
    out ← np_ifft shifted_fft;
    Ok (np_real out).

(** [AudioProcessor.apply_robot_effect].  [t] is a NumPy array divided by
    the sample rate: NumPy does not raise there. *)
Definition apply_robot_effect (self : AudioProcessor) (audio_data : Block) : result Block :=
  let t := map (fun i => i / inject_Z (sample_rate self))%Q (np_arange (length audio_data)) in
  let carrier_freq := 200%Q in
  let carrier := map (fun ti => signal_square (2 * np_pi * carrier_freq * ti)%Q) t in
  let modulated := zip_with (fun x c => x * c * 0.5)%Q audio_data carrier in
  ba ← signal_butter 4 [300; 3000]%Q Band (Some (inject_Z (sample_rate self)));
  signal_filtfilt ba.1 ba.2 modulated.

(** [transform_audio], lines 160-172: the stages before the normalisation. *)
Definition transform_stages (self : AudioProcessor) (audio_data : Block) : result Block :=
  let transformed := audio_data in
  transformed ← (if negb (Qeq_bool (pitch_shift self) 1.0)
                  then pitch_shift_audio transformed (pitch_shift self)
                  else Ok transformed);
  transformed ← (if negb (Qeq_bool (formant_shift self) 1.0)
                  then apply_formant_shift self transformed (formant_shift self)
                  else Ok transformed);
  if String.eqb (voice_profile self) "robot"
  then apply_robot_effect self transformed
  else Ok transformed.

(** [transform_audio], lines 174-179: "Normalize to prevent clipping". *)
Definition normalize (transformed : Block) : result Block :=
  max_val ← np_max (np_abs transformed);
  if Qltb 0 max_val
  then Ok (map (fun x => x / max_val * 0.8)%Q transformed)
  else Ok transformed.

(** [AudioProcessor.transform_audio] *)
Definition transform_audio (self : AudioProcessor) (audio_data : Block) : result Block :=
  transformed ← transform_stages self audio_data;
  normalize transformed.

End Signal.

(** ** [EnvironmentalEffects.apply_echo] *)

Definition getitem (a : Block) (i : nat) : Q := default 0%Q (a !! i).

(** The feedback loop [for i in range(delay_samples, len(echo_buffer))]. *)
Definition echo_loop (feedback : Q) (delay_samples n : nat) (echo_buffer : Block) : Block :=
  foldl (fun buf i =>
           if (i - delay_samples <? n)%nat
           then <[i := (getitem buf i + feedback * getitem buf (i - delay_samples))%Q]> buf
           else buf)
        echo_buffer
        (seq delay_samples (length echo_buffer - delay_samples)).

(** [apply_echo] of an effects object with the given [sample_rate];
    [delay_samples] is the truncation of the exact value.  A
    negative delay passes the length test and then fails in NumPy: the
    buffer has a negative size or cannot receive the block ([ValueError]),
    or, for a one-sample block and delay -1, is empty when read
    ([IndexError]). *)
Definition apply_echo (sample_rate : Z) (audio_data : Block)
    (delay_ms feedback wet_level : Q) : result Block :=
  let delay_samples := py_int (delay_ms * inject_Z sample_rate / 1000)%Q in
  let n := length audio_data in
  if Z.of_nat n <=? delay_samples then Ok audio_data
  else if delay_samples <? 0 then
    (if (n =? 1)%nat && (delay_samples =? -1) then Raise IndexError else Raise ValueError)
  else
    let d := Z.to_nat delay_samples in
    let echo_buffer := audio_data ++ replicate d 0%Q in
    let echo_buffer := echo_loop feedback d n echo_buffer in
    let echo_audio := take n echo_buffer in
    let dry_level := (1.0 - wet_level)%Q in
    Ok (np_add (np_scale dry_level audio_data) (np_scale wet_level echo_audio)).

Section Effects.
Context {lib : SignalLib}.

(** [10 ** x] on a float [x]: Python raises [OverflowError] when the power
    is beyond the largest float. *)
Definition py_pow10 (x : Q) : result Q :=
  if Qltb DBL_MAX (pow10 x) then Raise OverflowError else Ok (pow10 x).

(** One iteration of the loop of [_apply_eq] over [(freq, gain_db)]: the
    gain is converted first, before the band is tested. *)
Definition eq_band (sample_rate : Z) (processed : Block) (band : Q * Q) : result Block :=
  let '(freq, gain_db) := band in
  gain_linear ← py_pow10 (gain_db / 20)%Q;
  let nyquist := (inject_Z sample_rate / 2)%Q in
  normalized_freq ← py_truediv freq nyquist;
  if Qltb 0 normalized_freq && Qltb normalized_freq 1 then
    let Q_ := 1.0%Q in
    let w0 := (2 * np_pi * normalized_freq)%Q in
    let alpha := (np_sin w0 / (2 * Q_))%Q in
    let A := gain_linear in
    let b0 := (1 + alpha * A)%Q in
    let b1 := (-2 * np_cos w0)%Q in
    let b2 := (1 - alpha * A)%Q in
    let a0 := (1 + alpha / A)%Q in
    let a1 := (-2 * np_cos w0)%Q in
    let a2 := (1 - alpha / A)%Q in
    let b := [b0 / a0; b1 / a0; b2 / a0]%Q in
    let a := [1; a1 / a0; a2 / a0]%Q in
    signal_filtfilt b a processed
  else Ok processed.

(** [EmotionModulator._apply_eq] *)
Definition _apply_eq (sample_rate : Z) (audio_data : Block) (eq_bands : list (Q * Q))
    : result Block :=
  foldl (fun acc band => processed ← acc; eq_band sample_rate processed band)
        (Ok audio_data) eq_bands.

End Effects.

(** The band test of [_apply_eq]: [0 < freq / nyquist < 1]. *)
Definition band_in_range (sample_rate : Z) (freq : Q) : Prop :=
  (0 < freq / (inject_Z sample_rate / 2) /\ freq / (inject_Z sample_rate / 2) < 1)%Q.

(** ** [AudioWatermark] *)

Record AudioWatermark : Type := mkAudioWatermark {
  wm_sample_rate : Z;
  watermark_freq : Q;
  watermark_amplitude : Q;
  watermark_duration : Q;
}.

(** [AudioWatermark.__init__] *)
Definition AudioWatermark_init (sample_rate : Z) : AudioWatermark :=
  {| wm_sample_rate := sample_rate;
     watermark_freq := 19000;
     watermark_amplitude := 0.001;
     watermark_duration := 0.1 |}.

(** The metadata dict returned by [detect_watermark]. *)
Record Detection : Type := mkDetection {
  detected : bool;
  frequency_offset : Z;
  energy_ratio : Q;
  detection_confidence : Q;
}.

(** The default metadata of [embed_watermark], at time [now]. *)
Definition default_metadata (now : Z) : gmap string PyVal :=
  <["timestamp" := PyInt now]>
  (<["type" := PyStr "voice_transformed"]>
  (<["version" := PyStr "1.0"]> ∅)).

(** Python's [min(a, b)]. *)
Definition py_min (a b : Q) : Q := if Qltb b a then b else a.

Section Watermark.
Context {lib : SignalLib}.

(** [AudioWatermark.generate_watermark_signal]; [metadata = None] is
    [None], and an empty dict is falsy too.  [num_samples] is the
    truncation of the exact product. *)
Definition generate_watermark_signal (self : AudioWatermark) (duration : Q)
    (metadata : option (gmap string PyVal)) : result Block :=
  let num_samples := py_int (duration * inject_Z (wm_sample_rate self))%Q in
  t ← np_linspace 0 duration num_samples false;
  let base_freq :=
    match metadata with
    | Some m =>
        if bool_decide (m = ∅) then watermark_freq self
        else (watermark_freq self + inject_Z (metadata_digest m mod 100))%Q
    | None => watermark_freq self
    end in
  Ok (map (fun ti =>
             let phase_mod := (np_sin (2 * np_pi * 50 * ti) * 0.1)%Q in
             (np_sin (2 * np_pi * base_freq * ti + phase_mod) * watermark_amplitude self)%Q)
          t).

(** [np.tile(w, repeats)] *)
Definition np_tile (w : Block) (repeats : Z) : Block :=
  concat (replicate (Z.to_nat repeats) w).

(** [AudioWatermark.embed_watermark]; [now] is [int(time.time())]. *)
Definition embed_watermark (self : AudioWatermark) (audio_data : Block)
    (metadata : option (gmap string PyVal)) (now : Z) : result Block :=
  if (length audio_data =? 0)%nat then Ok audio_data
  else
    let metadata :=
      match metadata with
      | None => default_metadata now
      | Some m => m
      end in
    duration ← py_truediv (of_nat (length audio_data)) (inject_Z (wm_sample_rate self));
    watermark ← generate_watermark_signal self duration (Some metadata);
    watermark ←
      (if (length audio_data <? length watermark)%nat
       then Ok (take (length audio_data) watermark)
       else if (length watermark <? length audio_data)%nat then
         r ← py_truediv (of_nat (length audio_data)) (of_nat (length watermark));
         let repeats := Qceiling r in
         Ok (take (length audio_data) (np_tile watermark repeats))
       else Ok watermark);
    let watermarked_audio := np_add audio_data watermark in
    max_val ← np_max (np_abs watermarked_audio);
    if Qltb 1.0 max_val
    then Ok (map (fun x => x / max_val * 0.95)%Q watermarked_audio)
    else Ok watermarked_audio.

(** [AudioWatermark.detect_watermark] *)
Definition detect_watermark (self : AudioWatermark) (audio_data : Block)
    : result (bool * option Detection) :=
  if Qltb (of_nat (length audio_data)) (inject_Z (wm_sample_rate self) * 0.1)%Q
  then Ok (false, None)
  else
    fft ← np_fft (map of_real audio_data);
    d ← py_truediv 1 (inject_Z (wm_sample_rate self));
    freqs ← np_fftfreq (length audio_data) d;
    let lo := (watermark_freq self - 50)%Q in
    let hi := (watermark_freq self + 150)%Q in
    let freq_mask := map (fun f => Qle_bool lo f && Qle_bool f hi) freqs in
    if negb (existsb id freq_mask) then Ok (false, None)
    else
      let power := fun z => (cabs z * cabs z)%Q in
      let watermark_energy := Qsum (map power (select freq_mask fft)) in
      let total_energy := Qsum (map power fft) in
      let ratio := (watermark_energy / total_energy)%Q in
      let threshold := (1 # 1000000)%Q in
      if Qltb threshold ratio then
        peak_freq_idx ← np_argmax (map cabs (select freq_mask fft));
        let peak_freq := getitem (select freq_mask freqs) peak_freq_idx in
        let freq_offset := py_int (peak_freq - watermark_freq self)%Q in
        Ok (true, Some {| detected := true;
                          frequency_offset := freq_offset;
                          energy_ratio := ratio;
                          detection_confidence := py_min (ratio / threshold)%Q 1.0 |})
      else Ok (false, None).

End Watermark.

(** ** A rational instance of the libraries

    It makes the model executable: low-order polynomials for the
    trigonometric functions, a pass-through filter that, like SciPy's,
    refuses inputs not longer than its padding, and a constant digest. *)

Definition poly_sin (x : Q) : Q := (x - x * x * x / 6)%Q.
Definition poly_cos (x : Q) : Q := (1 - x * x / 2)%Q.

Definition unit_coefficients (N : nat) (kind : btype) : list Q :=
  match kind with
  | Band => 1%Q :: replicate (2 * N) 0%Q
  | Low | High => 1%Q :: replicate N 0%Q
  end.

Definition passthrough_filtfilt (b a : list Q) (x : Block) : result Block :=
  if (3 * Nat.max (length a) (length b) <? length x)%nat then Ok x else Raise ValueError.

#[local] Instance rational_lib : SignalLib := {|
  np_pi := 3.14159;
  np_sin := poly_sin;
  np_cos := poly_cos;
  np_sqrt := fun x => x;
  pow10 := fun x => (1 + 2.302585 * x)%Q;
  signal_square := fun x => if Qle_bool 0 (poly_sin x) then 1%Q else (-1)%Q;
  signal_butter := fun N _ kind _ => Ok (unit_coefficients N kind, unit_coefficients N kind);
  signal_filtfilt := passthrough_filtfilt;
  metadata_digest := fun m => Z.of_nat (size m);
|}.

(** [10 ** floor(x)]: the power at the whole part of the exponent, exact at
    whole exponents. *)
Definition pow10_floor (x : Q) : Q :=
  let e := Qfloor x in
  if 0 <=? e then inject_Z (10 ^ e) else (1 / inject_Z (10 ^ (- e)))%Q.

(** The rational instance with that power, which leaves the floats where
    the real [10 ** x] does, between 308 and 309. *)
Definition decade_lib : SignalLib := {|
  np_pi := 3.14159;
  np_sin := poly_sin;
  np_cos := poly_cos;
  np_sqrt := fun x => x;
  pow10 := pow10_floor;
  signal_square := fun x => if Qle_bool 0 (poly_sin x) then 1%Q else (-1)%Q;
  signal_butter := fun N _ kind _ => Ok (unit_coefficients N kind, unit_coefficients N kind);
  signal_filtfilt := passthrough_filtfilt;
  metadata_digest := fun m => Z.of_nat (size m);
|}.

(** ** States the processor can be in *)

(** Processors built by [__init__] and driven through the methods modelled
    here. *)
Inductive reachable : AudioProcessor -> Prop :=
  | reach_init sr bs : reachable (AudioProcessor_init sr bs)
  | reach_profile self name :
      reachable self -> reachable (set_voice_profile self name)
  | reach_capture self indata status self' printed :
      reachable self ->
      audio_input_callback self indata status = Ok (self', printed) ->
      reachable self'.

(** The names the processor's own table knows. *)
Definition known_profiles : list string :=
  ["original"; "male"; "female"; "child"; "robot"; "elderly"].

(** ** The render callback and the worker *)

Definition with_output_queue (self : AudioProcessor) (q : Queue) : AudioProcessor :=
  {| sample_rate := sample_rate self;
     block_size := block_size self;
     is_running := is_running self;
     input_queue := input_queue self;
     output_queue := q;
     pitch_shift := pitch_shift self;
     formant_shift := formant_shift self;
     voice_profile := voice_profile self |}.

Definition with_is_running (self : AudioProcessor) (b : bool) : AudioProcessor :=
  {| sample_rate := sample_rate self;
     block_size := block_size self;
     is_running := b;
     input_queue := input_queue self;
     output_queue := output_queue self;
     pitch_shift := pitch_shift self;
     formant_shift := formant_shift self;
     voice_profile := voice_profile self |}.

(** The assignment [outdata[:, c] = audio_data] on the rows of [outdata]:
    NumPy accepts a block with one sample per row, or a single sample
    (broadcast to every row), and raises [ValueError] otherwise. *)
Definition set_column (c : nat) (audio_data : Block) (rows : list (list Q))
    : result (list (list Q)) :=
  if (length audio_data =? length rows)%nat
  then Ok (zip_with (fun row v => <[c := v]> row) rows audio_data)
  else if (length audio_data =? 1)%nat
  then Ok (map (fun row => <[c := getitem audio_data 0]> row) rows)
  else Raise ValueError.

(** [outdata.fill(0)] *)
Definition fill_zero (outdata : Frames) : Frames :=
  mkFrames (channels outdata) (map (map (fun _ => 0%Q)) (frames outdata)).

(** [AudioProcessor.audio_output_callback].  The result is the processor,
    the [outdata] array as the callback leaves it, the lines printed, and
    the exception that escapes the callback, if any: only [queue.Empty] is
    handled, and a block taken from the queue stays taken. *)
Definition audio_output_callback (self : AudioProcessor) (outdata : Frames)
    (status : option string) : AudioProcessor * Frames * list string * option exn :=
  let printed :=
    match status with
    | Some s => [String.append "Output stream status: " s]
    | None => []
    end in
  match get_nowait (output_queue self) with
  | Raise Empty => (self, fill_zero outdata, printed, None)
  | Raise e => (self, outdata, printed, Some e)
  | Ok (audio_data, q) =>
      let self' := with_output_queue self q in
      if (channels outdata =? 0)%nat then (self', outdata, printed, Some IndexError)
      else
        match set_column 0 audio_data (frames outdata) with
        | Raise e => (self', outdata, printed, Some e)
        | Ok rows0 =>
            if (1 <? channels outdata)%nat then
              match set_column 1 audio_data rows0 with
              | Ok rows1 => (self', mkFrames (channels outdata) rows1, printed, None)
              | Raise e => (self', mkFrames (channels outdata) rows0, printed, Some e)
              end
            else (self', mkFrames (channels outdata) rows0, printed, None)
        end
  end.

(** What the worker prints: a fixed line, or
    [f"Processing error: {e}"] for the exception [e] it caught. *)
Inductive worker_line : Type :=
  | OutputQueueFull       (* "Output queue full, dropping processed frame" *)
  | ProcessingError (e : exn).

Section Worker.
Context {lib : SignalLib}.

(** One pass through the body of the loop of [processing_worker], on the
    queues as they are when the pass starts: [get(timeout=0.1)] on an empty
    queue ends in [queue.Empty] and the pass does nothing. *)
Definition worker_iteration (self : AudioProcessor) : AudioProcessor * list worker_line :=
  match get_nowait (input_queue self) with
  | Raise _ => (self, [])
  | Ok (audio_data, q) =>
      let self1 := with_input_queue self q in
      match transform_audio self1 audio_data with
      | Raise e => (self1, [ProcessingError e])
      | Ok transformed_audio =>
          match put_nowait (output_queue self1) transformed_audio with
          | Ok q' => (with_output_queue self1 q', [])
          | Raise Full => (self1, [OutputQueueFull])
          | Raise e => (self1, [ProcessingError e])
          end
      end
  end.

(** [processing_worker]: [while self.is_running], at most [fuel] passes. *)
Fixpoint processing_worker (fuel : nat) (self : AudioProcessor)
    : AudioProcessor * list worker_line :=
  match fuel with
  | O => (self, [])
  | S fuel' =>
      if is_running self then
        let '(self1, printed1) := worker_iteration self in
        let '(self2, printed2) := processing_worker fuel' self1 in
        (self2, printed1 ++ printed2)
      else (self, [])
  end.

End Worker.

(** ** [VoiceProfile] and [VoiceProfileManager] ([voice_profiles.py]) *)

Module VoiceProfile.

Record t : Type := mk {
  name : string;
  display_name : string;
  description : string;
  pitch_shift : Q;
  formant_shift : Q;
  special_effects : list string;
  emotion_modifiers : gmap string Q;
}.

End VoiceProfile.

(** The result of a dict lookup that raises [KeyError] with a message. *)
Inductive lookup_result (A : Type) : Type :=
  | Found (a : A)
  | KeyError (message : string).
Arguments Found {A} a.
Arguments KeyError {A} message.

(** The list [default_profiles] of [_load_default_profiles], in full. *)
Definition default_voice_profiles : list VoiceProfile.t :=
  [ VoiceProfile.mk "original" "Original Voice" "No transformation applied"
      1.0 1.0 [] ∅;
    VoiceProfile.mk "male_deep" "Deep Male Voice" "Transform to a deeper male voice"
      0.7 0.85 [] (<["confidence" := 1.2%Q]> (<["authority" := 1.3%Q]> ∅));
    VoiceProfile.mk "female_high" "High Female Voice" "Transform to a higher female voice"
      1.4 1.15 [] (<["friendliness" := 1.2%Q]> (<["enthusiasm" := 1.1%Q]> ∅));
    VoiceProfile.mk "child" "Child Voice" "Transform to sound like a child"
      1.6 1.25 ["brightness"] (<["playfulness" := 1.5%Q]> (<["innocence" := 1.3%Q]> ∅));
    VoiceProfile.mk "elderly" "Elderly Voice" "Transform to sound like an elderly person"
      0.9 0.95 ["tremolo"; "roughness"] (<["wisdom" := 1.3%Q]> (<["calmness" := 1.2%Q]> ∅));
    VoiceProfile.mk "robot" "Robot Voice" "Robotic voice transformation"
      1.0 1.0 ["vocoder"; "metallic"] (<["monotone" := 2.0%Q]> ∅);
    VoiceProfile.mk "alien" "Alien Voice" "Otherworldly alien voice"
      1.2 1.3 ["reverb"; "chorus"; "pitch_modulation"]
      (<["mystery" := 1.5%Q]> (<["otherworldly" := 2.0%Q]> ∅));
    VoiceProfile.mk "monster" "Monster Voice" "Scary monster voice"
      0.6 0.8 ["distortion"; "growl"] (<["intimidation" := 2.0%Q]> (<["fear" := 1.8%Q]> ∅));
    VoiceProfile.mk "whisper" "Whisper Voice" "Soft whisper transformation"
      0.95 1.05 ["noise_reduction"; "softness"]
      (<["intimacy" := 1.5%Q]> (<["secrecy" := 1.3%Q]> ∅));
    VoiceProfile.mk "announcer" "Radio Announcer" "Professional radio announcer voice"
      0.85 0.9 ["compression"; "eq_boost"]
      (<["professionalism" := 1.5%Q]> (<["clarity" := 1.4%Q]> ∅)) ].

(** [VoiceProfileManager.add_profile]: [self.profiles[profile.name] = profile] *)
Definition add_profile (profiles : gmap string VoiceProfile.t) (profile : VoiceProfile.t)
    : gmap string VoiceProfile.t :=
  <[VoiceProfile.name profile := profile]> profiles.

(** [VoiceProfileManager.__init__] without a profiles file: the default
    profiles, entered one by one. *)
Definition VoiceProfileManager_init : gmap string VoiceProfile.t :=
  foldl add_profile ∅ default_voice_profiles.

(** [VoiceProfileManager.get_profile] *)
Definition get_profile (profiles : gmap string VoiceProfile.t) (name : string)
    : lookup_result VoiceProfile.t :=
  match profiles !! name with
  | None => KeyError (String.append "Voice profile '" (String.append name "' not found"))
  | Some p => Found p
  end.

(** [VoiceProfileManager.remove_profile] *)
Definition remove_profile (profiles : gmap string VoiceProfile.t) (name : string)
    : gmap string VoiceProfile.t :=
  match profiles !! name with
  | Some _ => delete name profiles
  | None => profiles
  end.

(** [VoiceProfileManager.create_custom_profile]; an absent
    [special_effects] or [emotion_modifiers] is [None].  The result is the
    new manager state and the profile returned. *)
Definition create_custom_profile (profiles : gmap string VoiceProfile.t)
    (name display_name description : string) (pitch_shift formant_shift : Q)
    (special_effects : option (list string)) (emotion_modifiers : option (gmap string Q))
    : gmap string VoiceProfile.t * VoiceProfile.t :=
  let special_effects := default [] special_effects in
  let emotion_modifiers := default ∅ emotion_modifiers in
  let profile :=
    VoiceProfile.mk name display_name description pitch_shift formant_shift
      special_effects emotion_modifiers in
  (add_profile profiles profile, profile).

(** ** [EthicalVoiceProcessor] ([watermark.py]) *)

(** An entry of [transformation_log]. *)
Record LogEntry : Type := mkLogEntry {
  log_timestamp : Q;      (* 'timestamp' *)
  log_profile : string;   (* 'profile' *)
  log_duration : Q;       (* 'duration' *)
  log_watermarked : bool; (* 'watermarked' *)
}.

Record EthicalVoiceProcessor : Type := mkEthicalVoiceProcessor {
  audio_processor : AudioProcessor;
  watermark : AudioWatermark;
  transformation_log : list LogEntry;
  require_disclaimer : bool;
  enable_watermarking : bool;
}.

(** [EthicalVoiceProcessor.__init__] *)
Definition EthicalVoiceProcessor_init (audio_processor : AudioProcessor) (sample_rate : Z)
    : EthicalVoiceProcessor :=
  {| audio_processor := audio_processor;
     watermark := AudioWatermark_init sample_rate;
     transformation_log := [];
     require_disclaimer := true;
     enable_watermarking := true |}.

Definition with_log (self : EthicalVoiceProcessor) (log : list LogEntry)
    : EthicalVoiceProcessor :=
  {| audio_processor := audio_processor self;
     watermark := watermark self;
     transformation_log := log;
     require_disclaimer := require_disclaimer self;
     enable_watermarking := enable_watermarking self |}.

(** The metadata dict that [process_with_ethics] embeds. *)
Definition ethics_metadata (timestamp : Z) (profile : string) : gmap string PyVal :=
  <["timestamp" := PyInt timestamp]>
  (<["profile" := PyStr profile]>
  (<["type" := PyStr "voice_transformed"]>
  (<["version" := PyStr "1.0"]> ∅))).

Section Ethics.
Context {lib : SignalLib}.

(** [EthicalVoiceProcessor.process_with_ethics].  [time1] and [time2] are
    the two readings of [time.time()].  The result is the object after the
    call (the log entry is appended before anything can fail but the
    division in the entry itself) and what the call returns or raises. *)
Definition process_with_ethics (self : EthicalVoiceProcessor) (audio_data : Block)
    (profile : string) (time1 time2 : Q) : EthicalVoiceProcessor * result Block :=
  match py_truediv (of_nat (length audio_data))
          (inject_Z (sample_rate (audio_processor self))) with
  | Raise e => (self, Raise e)
  | Ok duration =>
      let log_entry :=
        {| log_timestamp := time1;
           log_profile := profile;
           log_duration := duration;
           log_watermarked := enable_watermarking self |} in
      let self' := with_log self (transformation_log self ++ [log_entry]) in
      (self',
       transformed_audio ← transform_audio (audio_processor self) audio_data;
       if enable_watermarking self
       then embed_watermark (watermark self) transformed_audio
              (Some (ethics_metadata (py_int time2) profile)) (py_int time2)
       else Ok transformed_audio)
  end.

End Ethics.

(** ** Emotion effects ([EmotionModulator]) and the chorus *)

(** [EmotionProcessor.apply_emotion_modifiers] ([voice_profiles.py]): only
    the key "confidence" scales the block; "playfulness" is read and not
    used. *)
Definition apply_emotion_modifiers (audio_data : Block) (emotion_modifiers : gmap string Q)
    : Block :=
  let modified_audio := audio_data in
  let modified_audio :=
    match emotion_modifiers !! "confidence" with
    | Some confidence_factor => map (fun x => x * confidence_factor)%Q modified_audio
    | None => modified_audio
    end in
  modified_audio.

(** [np.mean] of a non-empty array. *)
Definition np_mean (a : Block) : Q := (Qsum a / of_nat (length a))%Q.

(** The assignment [delayed_audio[avg:] = audio_data[:-avg]] on a block of
    zeros, for [avg < len(audio_data)] and a non-empty block.  With
    [avg = 0] the right-hand side is empty and NumPy raises [ValueError];
    a negative [avg] copies the first [-avg] samples to the end. *)
Definition delayed_copy (avg : Z) (audio_data : Block) : result Block :=
  let n := length audio_data in
  if avg =? 0 then Raise ValueError
  else if 0 <? avg
  then Ok (replicate (Z.to_nat avg) 0%Q ++ take (n - Z.to_nat avg) audio_data)
  else
    let k := Nat.min (Z.to_nat (- avg)) n in
    Ok (replicate (n - k) 0%Q ++ take k audio_data).

Section Emotion.
Context {lib : SignalLib}.

(** The time axis [np.arange(len(x)) / sample_rate]. *)
Definition time_axis (sample_rate : Z) (n : nat) : Block :=
  map (fun i => i / inject_Z sample_rate)%Q (np_arange n).

(** [EmotionModulator.apply_happiness] *)
Definition apply_happiness (sample_rate : Z) (audio_data : Block) (intensity : Q)
    : result Block :=
  let pitch_factor := (1.0 + 0.1 * intensity)%Q in
  processed ← pitch_shift_audio audio_data pitch_factor;
  let vibrato_freq := 5.0%Q in
  let vibrato_depth := (0.02 * intensity)%Q in
  let t := time_axis sample_rate (length processed) in
  let vibrato := map (fun ti => 1 + vibrato_depth * np_sin (2 * np_pi * vibrato_freq * ti))%Q t in
  let processed := zip_with Qmult processed vibrato in
  _apply_eq sample_rate processed [(2000, 3.0 * intensity); (4000, 2.0 * intensity)]%Q.

(** [EmotionModulator.apply_sadness] *)
Definition apply_sadness (sample_rate : Z) (audio_data : Block) (intensity : Q)
    : result Block :=
  let pitch_factor := (1.0 - 0.15 * intensity)%Q in
  processed ← pitch_shift_audio audio_data pitch_factor;
  let tremolo_freq := 3.0%Q in
  let tremolo_depth := (0.1 * intensity)%Q in
  let t := time_axis sample_rate (length processed) in
  let tremolo :=
    map (fun ti => 1 - tremolo_depth * (1 + np_sin (2 * np_pi * tremolo_freq * ti)) / 2)%Q t in
  let processed := zip_with Qmult processed tremolo in
  _apply_eq sample_rate processed [(1000, -2.0 * intensity); (3000, -4.0 * intensity)]%Q.

(** The average delay, in samples, of one voice of the chorus:
    [int(np.mean(delay_ms) * sample_rate / 1000)]. *)
Definition chorus_voice_delay (sample_rate : Z) (n : nat) (depth rate : Q) (voice : nat) : Z :=
  let base_delay_ms := (10 + of_nat voice * 5)%Q in
  let mod_depth_ms := (depth * 5)%Q in
  let t := time_axis sample_rate n in
  let lfo_freq := (rate * (0.8 + of_nat voice * 0.1))%Q in
  let delay_ms :=
    map (fun ti => base_delay_ms + mod_depth_ms * np_sin (2 * np_pi * lfo_freq * ti))%Q t in
  py_int (np_mean delay_ms * inject_Z sample_rate / 1000)%Q.

(** One pass of the loop over the voices. *)
Definition chorus_voice (sample_rate : Z) (audio_data : Block) (depth rate : Q)
    (chorus_audio : Block) (voice : nat) : result Block :=
  let avg_delay_samples :=
    chorus_voice_delay sample_rate (length audio_data) depth rate voice in
  if avg_delay_samples <? Z.of_nat (length audio_data) then
    delayed_audio ← delayed_copy avg_delay_samples audio_data;
    Ok (np_add chorus_audio (map (fun x => x / 3)%Q delayed_audio))
  else Ok chorus_audio.

(** [EnvironmentalEffects.apply_chorus].  On the empty block, and with
    sample rate 0, the mean delay is not a number and [int] of it raises
    [ValueError]. *)
Definition apply_chorus (sample_rate : Z) (audio_data : Block) (depth rate wet_level : Q)
    : result Block :=
  if (length audio_data =? 0)%nat || (sample_rate =? 0) then Raise ValueError
  else
    chorus_audio ←
      foldl (fun acc voice =>
               chorus_audio ← acc;
               chorus_voice sample_rate audio_data depth rate chorus_audio voice)
            (Ok (replicate (length audio_data) 0%Q)) (seq 0 3);
    let dry_level := (1.0 - wet_level)%Q in
    Ok (np_add (np_scale dry_level audio_data) (np_scale wet_level chorus_audio)).

End Emotion.

(** * Properties *)

(** ** Comparisons *)

Lemma Qltb_lt (a b : Q) : Qltb a b = true <-> (a < b)%Q.
Proof.
  unfold Qltb. rewrite negb_true_iff. split.
  - intros H. apply Qnot_le_lt. intros Hle. apply Qle_bool_iff in Hle. congruence.
  - intros H. destruct (Qle_bool b a) eqn:E; [|reflexivity].
    apply Qle_bool_iff in E. exfalso. apply (Qlt_not_le _ _ H E).
Qed.

Lemma Qltb_ge (a b : Q) : Qltb a b = false <-> (b <= a)%Q.
Proof.
  unfold Qltb. rewrite negb_false_iff. apply Qle_bool_iff.
Qed.

(** ** Profile selection *)

Lemma profiles_lookup_None (name : string) :
  name ∉ known_profiles -> profiles !! name = None.
Proof.
  unfold known_profiles, profiles. intros H.
  repeat (apply not_elem_of_cons in H; destruct H as [? H]).
  repeat (rewrite lookup_insert_ne by congruence).
  apply lookup_empty.
Qed.

(** C9.  Selecting a profile whose name the processor's table does not know
    stores the name and leaves [pitch_shift] and [formant_shift] (and every
    other field) as they were; [set_voice_profile] is total, so nothing is
    raised. *)
Theorem set_voice_profile_unknown (self : AudioProcessor) (profile : string) :
  profile ∉ known_profiles ->
  voice_profile (set_voice_profile self profile) = profile
  /\ pitch_shift (set_voice_profile self profile) = pitch_shift self
  /\ formant_shift (set_voice_profile self profile) = formant_shift self
  /\ sample_rate (set_voice_profile self profile) = sample_rate self
  /\ block_size (set_voice_profile self profile) = block_size self
  /\ is_running (set_voice_profile self profile) = is_running self
  /\ input_queue (set_voice_profile self profile) = input_queue self
  /\ output_queue (set_voice_profile self profile) = output_queue self.
Proof.
  intros H. unfold set_voice_profile.
  rewrite (profiles_lookup_None _ H). cbn. repeat split.
Qed.

Lemma set_voice_profile_unknown_witness :
  ("male_deep" ∉ known_profiles)
  /\ voice_profile (set_voice_profile (set_voice_profile AudioProcessor_default "male") "male_deep")
     = "male_deep"
  /\ pitch_shift (set_voice_profile (set_voice_profile AudioProcessor_default "male") "male_deep")
     = 0.8%Q.
Proof.
  assert (H : "male_deep" ∉ known_profiles).
  { unfold known_profiles. intros Hin. repeat (apply elem_of_cons in Hin; destruct Hin as [Hin|Hin]; [discriminate|]).
    inversion Hin. }
  split; [exact H|].
  pose proof (set_voice_profile_unknown (set_voice_profile AudioProcessor_default "male") "male_deep" H)
    as (Hn & Hp & _).
  split; [exact Hn|]. rewrite Hp. reflexivity.
Defined.

(** ** The capture callback and its queue *)

Lemma to_mono_ok (indata : Frames) :
  channels indata <> 0%nat -> is_Ok (to_mono indata).
Proof.
  intros H. unfold to_mono, column0.
  destruct (1 <? channels indata)%nat; [eexists; reflexivity|].
  destruct (channels indata =? 0)%nat eqn:E; [|eexists; reflexivity].
  apply Nat.eqb_eq in E. contradiction.
Qed.

Lemma queue_full_unbounded (q : Queue) : maxsize q <= 0 -> queue_full q = false.
Proof.
  intros H. unfold queue_full.
  destruct (0 <? maxsize q) eqn:E; [|reflexivity].
  apply Z.ltb_lt in E. lia.
Qed.

(** The queues of a processor built by [__init__] stay unbounded. *)
Lemma reachable_input_queue_unbounded (self : AudioProcessor) :
  reachable self -> maxsize (input_queue self) = 0.
Proof.
  induction 1 as [sr bs|self name _ IH|self indata status self' printed _ IH Hcb].
  - reflexivity.
  - unfold set_voice_profile. destruct (profiles !! name) as [[p f]|]; exact IH.
  - unfold audio_input_callback in Hcb.
    destruct (to_mono indata) as [block|e]; cbn in Hcb; [|discriminate].
    unfold put_nowait in Hcb.
    destruct (queue_full (input_queue self)); cbn in Hcb; inversion Hcb; subst; cbn; exact IH.
Qed.

(** On a processor built by the code a submission is an append. *)
Lemma reachable_submit_appends (self : AudioProcessor) (indata : Frames)
    (status : option string) (block : Block) :
  reachable self -> to_mono indata = Ok block ->
  exists printed,
    audio_input_callback self indata status
    = Ok (with_input_queue self (mkQueue 0 (pending (input_queue self) ++ [block])), printed).
Proof.
  intros Hr Hb. unfold audio_input_callback. rewrite Hb. cbn [mbind result_bind].
  unfold put_nowait.
  rewrite queue_full_unbounded by (rewrite (reachable_input_queue_unbounded self Hr); lia).
  rewrite (reachable_input_queue_unbounded self Hr). eexists. reflexivity.
Qed.

Definition one_frame : Frames := mkFrames 1 [[0.2%Q]].

(** The backlog grows without bound: whatever the number [n], the capture
    side alone brings a new processor to [n] pending blocks. *)
Lemma reachable_backlog (n : nat) :
  exists self, reachable self /\ length (pending (input_queue self)) = n.
Proof.
  induction n as [|n (self & Hr & Hn)].
  - exists AudioProcessor_default. split; [constructor|reflexivity].
  - destruct (reachable_submit_appends self one_frame None [0.2%Q] Hr eq_refl) as [printed Hcb].
    eexists. split; [exact (reach_capture _ _ _ _ _ Hr Hcb)|].
    cbn. rewrite length_app, Hn. cbn. lia.
Qed.

Lemma submit_all_reachable (submitted : list Frames) :
  forall self self' printed,
    reachable self -> submit_all self submitted = Ok (self', printed) -> reachable self'.
Proof.
  induction submitted as [|indata rest IH]; intros self self' printed Hr H; cbn in H.
  - inversion H; subst. exact Hr.
  - destruct (audio_input_callback self indata None) as [[self1 printed1]|e] eqn:E1;
      cbn in H; [|discriminate].
    destruct (submit_all self1 rest) as [[self2 printed2]|e] eqn:E2; cbn in H; [|discriminate].
    inversion H; subst.
    apply (IH self1 self' printed2); [|exact E2].
    exact (reach_capture _ _ _ _ _ Hr E1).
Qed.

(** Without a worker pass nothing leaves the queue: after any run of
    submissions every submitted block is pending. *)
Lemma submit_all_backlog (submitted : list Frames) :
  forall self self' printed,
    reachable self -> submit_all self submitted = Ok (self', printed) ->
    length (pending (input_queue self'))
    = (length (pending (input_queue self)) + length submitted)%nat.
Proof.
  induction submitted as [|indata rest IH]; intros self self' printed Hr H; cbn in H.
  - inversion H; subst. cbn. lia.
  - destruct (audio_input_callback self indata None) as [[self1 printed1]|e] eqn:E1;
      cbn in H; [|discriminate].
    destruct (submit_all self1 rest) as [[self2 printed2]|e] eqn:E2; cbn in H; [|discriminate].
    inversion H; subst.
    rewrite (IH self1 self' printed2 (reach_capture _ _ _ _ _ Hr E1) E2).
    destruct (to_mono indata) as [block|e] eqn:Hb.
    + destruct (reachable_submit_appends self indata None block Hr Hb) as [p Hcb].
      rewrite Hcb in E1. inversion E1; subst. cbn. rewrite length_app. cbn. lia.
    + unfold audio_input_callback in E1. rewrite Hb in E1. discriminate E1.
Qed.

(** C4 as the specification words it, for the processors the code builds.
    Python's [queue.full()] is never true of them, so the sentence is read
    with the bounded queue it speaks of: the input queue has a capacity,
    and a submission that finds it full (that many blocks pending) drops
    the oldest pending block and keeps the new one, while any other
    submission appends the new block. *)
Definition full_queue_drops_oldest : Prop :=
  exists capacity : nat,
    (0 < capacity)%nat
    /\ forall self indata status block self' printed,
         reachable self ->
         to_mono indata = Ok block ->
         audio_input_callback self indata status = Ok (self', printed) ->
         pending (input_queue self')
         = if (capacity <=? length (pending (input_queue self)))%nat
           then drop 1 (pending (input_queue self)) ++ [block]
           else pending (input_queue self) ++ [block].

(** The scenario C4 is drawn from, submitting faster than the worker
    drains makes the drop counter increase: some run of submissions to a
    new processor, with no worker pass, leaves fewer blocks pending than
    were submitted. *)
Definition overload_drops_a_block : Prop :=
  exists (submitted : list Frames) (self' : AudioProcessor) (printed : list string),
    submit_all AudioProcessor_default submitted = Ok (self', printed)
    /\ (length (pending (input_queue self')) < length submitted)%nat.

Definition three_frames : list Frames :=
  [mkFrames 1 [[0.1%Q]]; mkFrames 1 [[0.2%Q]]; mkFrames 1 [[0.3%Q]]].

(** C4, counterexample.  Three arrays submitted to a new processor with no
    worker pass in between are all pending afterwards, the oldest first,
    nothing is printed and the queue is still not full.  No run of
    submissions loses a block, and at no capacity does a submission drop
    the oldest block: the backlog of a processor of the code passes every
    capacity. *)
Lemma audio_input_callback_never_drops_oldest :
  (exists self',
     submit_all AudioProcessor_default three_frames = Ok (self', [])
     /\ reachable self'
     /\ pending (input_queue self') = [[0.1%Q]; [0.2%Q]; [0.3%Q]]
     /\ queue_full (input_queue self') = false)
  /\ ~ overload_drops_a_block
  /\ ~ full_queue_drops_oldest.
Proof.
  split_and!.
  - assert (H : {self' | submit_all AudioProcessor_default three_frames = Ok (self', [])})
      by (eexists; reflexivity).
    destruct H as [self' H]. exists self'. split; [exact H|].
    pose proof (submit_all_reachable _ _ _ _ (reach_init 44100 1024) H) as Hr.
    split; [exact Hr|].
    vm_compute in H. inversion H; subst. split; reflexivity.
  - intros (submitted & self' & printed & H & Hlt).
    pose proof (submit_all_backlog submitted _ _ _ (reach_init 44100 1024) H) as Hlen.
    cbn in Hlen. lia.
  - intros (capacity & Hpos & H).
    destruct (reachable_backlog capacity) as (self & Hr & Hn).
    destruct (reachable_submit_appends self one_frame None [0.2%Q] Hr eq_refl) as [printed Hcb].
    specialize (H self one_frame None [0.2%Q] _ printed Hr eq_refl Hcb).
    rewrite Hn, Nat.leb_refl in H. cbn in H.
    apply (f_equal length) in H. rewrite !length_app, length_drop in H. cbn in H. lia.
Qed.

(** C4, amended.  For every frame array with at least one channel the
    callback returns at once with a result (it never waits and never
    raises).  If the input queue is not full, the mono block is appended
    behind the pending blocks and nothing is dropped; if it is full, the
    processor, with every pending block, is returned unchanged and the new
    block is discarded with a printed line.  A queue with [maxsize <= 0], as
    [__init__] builds it, is never full, so a processor reached from
    [__init__] never drops a block. *)
Theorem audio_input_callback_submit (self : AudioProcessor) (indata : Frames)
    (status : option string) :
  channels indata <> 0%nat ->
  exists block self' printed,
    to_mono indata = Ok block
    /\ audio_input_callback self indata status = Ok (self', printed)
    /\ (queue_full (input_queue self) = false ->
        self' = with_input_queue self
                  (mkQueue (maxsize (input_queue self)) (pending (input_queue self) ++ [block])))
    /\ (queue_full (input_queue self) = true ->
        self' = self
        /\ last printed = Some "Input queue full, dropping audio frame")
    /\ (maxsize (input_queue self) <= 0 -> queue_full (input_queue self) = false)
    /\ (reachable self -> queue_full (input_queue self) = false).
Proof.
  intros Hch. destruct (to_mono_ok indata Hch) as [block Hb].
  assert (Hreach : reachable self -> queue_full (input_queue self) = false).
  { intros Hr. apply queue_full_unbounded.
    rewrite (reachable_input_queue_unbounded self Hr). lia. }
  unfold audio_input_callback. rewrite Hb. cbn.
  unfold put_nowait. destruct (queue_full (input_queue self)) eqn:Hfull.
  - eexists block, self, _. repeat split; try reflexivity; try discriminate; try exact Hreach.
    + apply last_snoc.
    + intros Hm. rewrite <- Hfull. apply queue_full_unbounded, Hm.
  - eexists block, _, _. repeat split; try reflexivity; discriminate.
Qed.

Lemma audio_input_callback_submit_witness :
  exists block self' printed,
    to_mono one_frame = Ok block
    /\ audio_input_callback AudioProcessor_default one_frame None = Ok (self', printed)
    /\ pending (input_queue self') = [block].
Proof.
  destruct (audio_input_callback_submit AudioProcessor_default one_frame None)
    as (block & self' & printed & Hm & Hcb & Hput & _ & _ & _).
  - cbn. discriminate.
  - exists block, self', printed. repeat split; [exact Hm|exact Hcb|].
    rewrite (Hput eq_refl). reflexivity.
Defined.

(** ** Echo *)

(** C7.  When the delay, converted to samples, exceeds the block length,
    [apply_echo] returns the input block itself, whatever the feedback and
    wet level. *)
Theorem apply_echo_long_delay (sample_rate : Z) (audio_data : Block)
    (delay_ms feedback wet_level : Q) :
  Z.of_nat (length audio_data) < py_int (delay_ms * inject_Z sample_rate / 1000)%Q ->
  apply_echo sample_rate audio_data delay_ms feedback wet_level = Ok audio_data.
Proof.
  intros H. unfold apply_echo.
  destruct (Z.of_nat (length audio_data) <=? _) eqn:E; [reflexivity|].
  apply Z.leb_gt in E. lia.
Qed.

Lemma apply_echo_long_delay_witness :
  Z.of_nat (length [0.5; 0.25]%Q) < py_int (300 * inject_Z 44100 / 1000)%Q
  /\ apply_echo 44100 [0.5; 0.25]%Q 300 0.3 0.3 = Ok [0.5; 0.25]%Q.
Proof.
  assert (H : Z.of_nat (length [0.5; 0.25]%Q) < py_int (300 * inject_Z 44100 / 1000)%Q)
    by (vm_compute; reflexivity).
  split; [exact H|]. exact (apply_echo_long_delay 44100 [0.5; 0.25]%Q 300 0.3 0.3 H).
Defined.

(** ** Parametric EQ *)

Lemma band_test_false (sample_rate : Z) (freq : Q) :
  ~ band_in_range sample_rate freq ->
  Qltb 0 (freq / (inject_Z sample_rate / 2)) && Qltb (freq / (inject_Z sample_rate / 2)) 1 = false.
Proof.
  intros H. apply andb_false_iff.
  destruct (Qltb 0 (freq / (inject_Z sample_rate / 2))) eqn:E1; [|left; reflexivity].
  destruct (Qltb (freq / (inject_Z sample_rate / 2)) 1) eqn:E2; [|right; reflexivity].
  exfalso. apply H. split; apply Qltb_lt; assumption.
Qed.

Lemma nyquist_nonzero (sample_rate : Z) :
  sample_rate <> 0 -> Qeq_bool (inject_Z sample_rate / 2) 0 = false.
Proof.
  intros H. destruct (Qeq_bool (inject_Z sample_rate / 2) 0) eqn:E; [|reflexivity].
  apply Qeq_bool_iff in E. exfalso. apply H.
  unfold Qeq, Qdiv, Qmult, Qinv, inject_Z in E. cbn in E. lia.
Qed.

Lemma gain_finite (gain_db : Q) : (gain_db <= 6160)%Q -> (gain_db / 20 <= 308)%Q.
Proof. intros H. apply Qle_shift_div_r; [reflexivity|]. lra. Qed.

Lemma gain_overflow (gain_db : Q) : (6180 <= gain_db)%Q -> (309 <= gain_db / 20)%Q.
Proof. intros H. apply Qle_shift_div_l; [reflexivity|]. lra. Qed.

Section EqProperties.
Context {lib : SignalLib} {pow : PowLaws lib}.

Lemma py_pow10_finite (x : Q) : (x <= 308)%Q -> py_pow10 x = Ok (pow10 x).
Proof.
  intros H. unfold py_pow10.
  rewrite (proj2 (Qltb_ge DBL_MAX (pow10 x)) (pow10_finite x H)). reflexivity.
Qed.

Lemma py_pow10_overflow (x : Q) : (309 <= x)%Q -> py_pow10 x = Raise OverflowError.
Proof.
  intros H. unfold py_pow10.
  rewrite (proj2 (Qltb_lt DBL_MAX (pow10 x)) (pow10_overflow x H)). reflexivity.
Qed.

Lemma eq_band_out_of_range (sample_rate : Z) (processed : Block) (freq gain_db : Q) :
  sample_rate <> 0 -> ~ band_in_range sample_rate freq -> (gain_db <= 6160)%Q ->
  eq_band sample_rate processed (freq, gain_db) = Ok processed.
Proof.
  intros Hsr Hband Hgain. unfold eq_band, py_truediv.
  rewrite (py_pow10_finite _ (gain_finite _ Hgain)). cbn [mbind result_bind].
  rewrite (nyquist_nonzero _ Hsr). cbn [mbind result_bind].
  rewrite (band_test_false _ _ Hband). reflexivity.
Qed.

Lemma eq_band_overflow (sample_rate : Z) (processed : Block) (freq gain_db : Q) :
  (6180 <= gain_db)%Q ->
  eq_band sample_rate processed (freq, gain_db) = Raise OverflowError.
Proof.
  intros Hgain. unfold eq_band.
  rewrite (py_pow10_overflow _ (gain_overflow _ Hgain)). reflexivity.
Qed.

(** C6, amended.  At a non-zero sample rate, a band whose normalised
    frequency is not strictly inside (0, 1) and whose gain is at most
    6160 dB, so that [10 ** (gain_db / 20)] is a finite float, is skipped:
    alone it returns the signal itself without raising, and anywhere in a
    band list the equalizer does what it does on the list without that
    band.  With a gain of 6180 dB or more such a band, alone in the list,
    raises [OverflowError] instead: the gain is converted before the band
    is tested. *)
Theorem apply_eq_skips_band (sample_rate : Z) (audio_data : Block)
    (before after : list (Q * Q)) (freq gain_db : Q) :
  sample_rate <> 0 -> ~ band_in_range sample_rate freq ->
  ((gain_db <= 6160)%Q ->
   _apply_eq sample_rate audio_data [(freq, gain_db)] = Ok audio_data
   /\ _apply_eq sample_rate audio_data (before ++ (freq, gain_db) :: after)
      = _apply_eq sample_rate audio_data (before ++ after))
  /\ ((6180 <= gain_db)%Q ->
      _apply_eq sample_rate audio_data [(freq, gain_db)] = Raise OverflowError).
Proof.
  intros Hsr Hband. split; intros Hgain.
  - split.
    + cbn. apply eq_band_out_of_range; assumption.
    + unfold _apply_eq. rewrite !foldl_app. cbn [foldl]. f_equal.
      destruct (foldl _ (Ok audio_data) before) as [processed|e]; cbn [mbind result_bind];
        [|reflexivity].
      apply eq_band_out_of_range; assumption.
  - cbn. apply eq_band_overflow, Hgain.
Qed.

End EqProperties.

Lemma pow10_floor_finite (x : Q) : (x <= 308)%Q -> (pow10_floor x <= DBL_MAX)%Q.
Proof.
  intros H. unfold pow10_floor, DBL_MAX.
  assert (He : Qfloor x <= 308).
  { rewrite Zle_Qle. eapply Qle_trans; [apply Qfloor_le|exact H]. }
  assert (Hmax : 10 ^ 308 <= 2 ^ 1024 - 2 ^ 971) by (apply Z.leb_le; vm_compute; reflexivity).
  revert Hmax. generalize (2 ^ 1024 - 2 ^ 971). intros M Hmax.
  destruct (0 <=? Qfloor x) eqn:E.
  - apply Z.leb_le in E. rewrite <- Zle_Qle.
    etransitivity; [|exact Hmax]. apply Z.pow_le_mono_r; lia.
  - apply Z.leb_gt in E.
    assert (Hp : 1 <= 10 ^ (- Qfloor x)).
    { change 1 with (10 ^ 0). apply Z.pow_le_mono_r; lia. }
    assert (HM : 1 <= M).
    { etransitivity; [|exact Hmax]. change 1 with (10 ^ 0). apply Z.pow_le_mono_r; lia. }
    revert Hp. generalize (10 ^ (- Qfloor x)). intros p Hp.
    apply Qle_shift_div_r.
    + change 0%Q with (inject_Z 0). rewrite <- Zlt_Qlt. lia.
    + rewrite <- inject_Z_mult. change 1%Q with (inject_Z 1). rewrite <- Zle_Qle. nia.
Qed.

Lemma pow10_floor_overflow (x : Q) : (309 <= x)%Q -> (DBL_MAX < pow10_floor x)%Q.
Proof.
  intros H. unfold pow10_floor, DBL_MAX.
  assert (He : 309 <= Qfloor x).
  { change 309 with (Qfloor (inject_Z 309)). apply Qfloor_resp_le. exact H. }
  assert (Hmax : 2 ^ 1024 - 2 ^ 971 < 10 ^ 309) by (apply Z.ltb_lt; vm_compute; reflexivity).
  revert Hmax. generalize (2 ^ 1024 - 2 ^ 971). intros M Hmax.
  destruct (0 <=? Qfloor x) eqn:E; [|apply Z.leb_gt in E; lia].
  rewrite <- Zlt_Qlt.
  eapply Z.lt_le_trans; [exact Hmax|]. apply Z.pow_le_mono_r; lia.
Qed.

Lemma decade_lib_pow : PowLaws decade_lib.
Proof. split; [exact pow10_floor_finite|exact pow10_floor_overflow]. Qed.

(** C6 as the specification words it: a band outside (0, 1) passes the
    signal through and raises nothing, whatever its gain.  (The sample rate
    is taken non-zero, so that the normalised frequency exists.) *)
Definition out_of_range_band_skipped : Prop :=
  forall (lib : SignalLib), PowLaws lib ->
  forall (sample_rate : Z) (audio_data : Block) (freq gain_db : Q),
    sample_rate <> 0 -> ~ band_in_range sample_rate freq ->
    _apply_eq sample_rate audio_data [(freq, gain_db)] = Ok audio_data.

(** C6, counterexample.  At 44100 Hz the band at 22050 Hz sits on the
    Nyquist frequency and is out of range; with a gain of 7000 dB the
    equalizer raises [OverflowError] at [10 ** 350.0] before it tests the
    band. *)
Lemma apply_eq_out_of_range_band_overflows :
  ~ band_in_range 44100 22050
  /\ _apply_eq (lib := decade_lib) 44100 [0.5; 0.25]%Q [(22050, 7000)%Q] = Raise OverflowError
  /\ ~ out_of_range_band_skipped.
Proof.
  assert (H1 : ~ band_in_range 44100 22050).
  { intros [_ H]. vm_compute in H. discriminate H. }
  assert (H2 : _apply_eq (lib := decade_lib) 44100 [0.5; 0.25]%Q [(22050, 7000)%Q]
               = Raise OverflowError).
  { cbn [_apply_eq foldl mbind result_bind].
    apply (eq_band_overflow (lib := decade_lib) (pow := decade_lib_pow)). discriminate. }
  split_and!; [exact H1|exact H2|].
  intros H.
  specialize (H decade_lib decade_lib_pow 44100 [0.5; 0.25]%Q 22050%Q 7000%Q).
  rewrite H2 in H. discriminate H; [discriminate|exact H1].
Qed.

Lemma apply_eq_skips_band_witness :
  44100 <> 0 /\ ~ band_in_range 44100 22050 /\ (3 <= 6160)%Q
  /\ _apply_eq (lib := decade_lib) 44100 [0.5; 0.25]%Q [(22050, 3)%Q] = Ok [0.5; 0.25]%Q.
Proof.
  assert (H1 : 44100 <> 0) by discriminate.
  assert (H2 : ~ band_in_range 44100 22050).
  { intros [_ H]. vm_compute in H. discriminate H. }
  assert (H3 : (3 <= 6160)%Q) by discriminate.
  split_and!; [exact H1|exact H2|exact H3|].
  exact (proj1 (proj1 (apply_eq_skips_band (lib := decade_lib) (pow := decade_lib_pow)
                         44100 [0.5; 0.25]%Q [] [] 22050 3 H1 H2) H3)).
Defined.

(** ** Watermark *)

Section WatermarkProperties.
Context {lib : SignalLib}.

(** C8.  A block with fewer samples than a tenth of the sample rate is
    reported as not watermarked, with no metadata, whatever it holds. *)
Theorem detect_watermark_short_block (self : AudioWatermark) (audio_data : Block) :
  (of_nat (length audio_data) < inject_Z (wm_sample_rate self) * 0.1)%Q ->
  detect_watermark self audio_data = Ok (false, None).
Proof.
  intros H. unfold detect_watermark.
  apply Qltb_lt in H. rewrite H. reflexivity.
Qed.

(** C10.  [embed_watermark] on the empty block returns that block: no
    watermark signal is generated or added and nothing is raised. *)
Theorem embed_watermark_empty_block (self : AudioWatermark)
    (metadata : option (gmap string PyVal)) (now : Z) :
  embed_watermark self [] metadata now = Ok [].
Proof. reflexivity. Qed.

End WatermarkProperties.

Lemma detect_watermark_short_block_witness :
  (of_nat (length (replicate 4409 0.5%Q)) < inject_Z (wm_sample_rate (AudioWatermark_init 44100)) * 0.1)%Q
  /\ detect_watermark (lib := rational_lib) (AudioWatermark_init 44100) (replicate 4409 0.5%Q)
     = Ok (false, None).
Proof.
  assert (H : (of_nat (length (replicate 4409 0.5%Q))
               < inject_Z (wm_sample_rate (AudioWatermark_init 44100)) * 0.1)%Q)
    by (vm_compute; reflexivity).
  split; [exact H|].
  exact (detect_watermark_short_block (lib := rational_lib) (AudioWatermark_init 44100)
           (replicate 4409 0.5%Q) H).
Defined.

(** ** The maximum of an array *)

Lemma Qmaxb_ge_l (x a : Q) : (x <= Qmaxb x a)%Q.
Proof.
  unfold Qmaxb. destruct (Qltb x a) eqn:E.
  - apply Qltb_lt in E. apply Qlt_le_weak, E.
  - apply Qle_refl.
Qed.

Lemma Qmaxb_ge_r (x a : Q) : (a <= Qmaxb x a)%Q.
Proof.
  unfold Qmaxb. destruct (Qltb x a) eqn:E.
  - apply Qle_refl.
  - apply Qltb_ge, E.
Qed.

Lemma fold_Qmaxb_ge (xs : Block) (x : Q) :
  (x <= fold_left Qmaxb xs x)%Q /\ Forall (fun y => (y <= fold_left Qmaxb xs x)%Q) xs.
Proof.
  revert x. induction xs as [|a xs IH]; intros x; cbn.
  - split; [apply Qle_refl|constructor].
  - destruct (IH (Qmaxb x a)) as [H1 H2]. split; [|constructor; [|exact H2]].
    + eapply Qle_trans; [apply Qmaxb_ge_l|exact H1].
    + eapply Qle_trans; [apply Qmaxb_ge_r|exact H1].
Qed.

Lemma fold_Qmaxb_elem (xs : Block) (x : Q) : fold_left Qmaxb xs x ∈ x :: xs.
Proof.
  revert x. induction xs as [|a xs IH]; intros x; cbn.
  - apply list_elem_of_here.
  - specialize (IH (Qmaxb x a)). apply elem_of_cons in IH as [IH|IH].
    + rewrite IH. unfold Qmaxb. destruct (Qltb x a).
      * apply list_elem_of_further, list_elem_of_here.
      * apply list_elem_of_here.
    + do 2 apply list_elem_of_further. exact IH.
Qed.

Lemma np_max_spec (a : Block) :
  a <> [] ->
  exists m, np_max a = Ok m /\ Forall (fun y => (y <= m)%Q) a /\ m ∈ a.
Proof.
  destruct a as [|x xs]; [congruence|]. intros _.
  exists (fold_left Qmaxb xs x). split; [reflexivity|]. split.
  - destruct (fold_Qmaxb_ge xs x) as [H1 H2]. constructor; assumption.
  - apply fold_Qmaxb_elem.
Qed.

Lemma np_max_empty : np_max [] = Raise ValueError.
Proof. reflexivity. Qed.

(** ** The normalisation step *)

Lemma scaled_sample_bound (x m : Q) :
  (0 < m)%Q -> (Qabs x <= m)%Q -> (Qabs (x / m * 0.8) <= 0.8)%Q.
Proof.
  intros Hm Hx.
  rewrite Qabs_Qmult. unfold Qdiv. rewrite Qabs_Qmult.
  assert (Hinv : (0 < / m)%Q) by (apply Qinv_lt_0_compat, Hm).
  rewrite (Qabs_pos (/ m)) by (apply Qlt_le_weak, Hinv).
  rewrite (Qabs_pos 0.8) by discriminate.
  assert (H1 : (Qabs x * / m <= 1)%Q).
  { apply Qle_shift_div_r; [exact Hm|]. rewrite Qmult_1_l. exact Hx. }
  assert (H0 : (0 <= Qabs x * / m)%Q).
  { apply Qmult_le_0_compat; [apply Qabs_nonneg|apply Qlt_le_weak, Hinv]. }
  lra.
Qed.

Lemma normalize_spec (transformed : Block) :
  transformed <> [] ->
  exists max_val out,
    np_max (np_abs transformed) = Ok max_val
    /\ normalize transformed = Ok out
    /\ length out = length transformed
    /\ Forall (fun s => (Qabs s <= 0.8)%Q) out
    /\ ((0 < max_val)%Q -> out = map (fun x => x / max_val * 0.8)%Q transformed)
    /\ ((max_val == 0)%Q -> out = transformed /\ Forall (fun s => (s == 0)%Q) out).
Proof.
  intros Hne.
  destruct (np_max_spec (np_abs transformed)) as (m & Hmax & Hle & Hin).
  { unfold np_abs. destruct transformed; [congruence|discriminate]. }
  assert (Habs : Forall (fun x => (Qabs x <= m)%Q) transformed).
  { unfold np_abs in Hle. rewrite Forall_map in Hle. exact Hle. }
  assert (Hm0 : (0 <= m)%Q).
  { unfold np_abs in Hin. apply list_elem_of_fmap in Hin as (x & -> & _). apply Qabs_nonneg. }
  unfold normalize. rewrite Hmax. cbn.
  destruct (Qltb 0 m) eqn:E.
  - apply Qltb_lt in E.
    exists m, (map (fun x => x / m * 0.8)%Q transformed).
    split_and!.
    + reflexivity.
    + reflexivity.
    + apply length_map.
    + rewrite Forall_map. eapply Forall_impl; [exact Habs|].
      intros x Hx. cbn. apply scaled_sample_bound; assumption.
    + reflexivity.
    + intros H0. rewrite H0 in E. exfalso. apply (Qlt_irrefl 0), E.
  - apply Qltb_ge in E.
    assert (Hz : Forall (fun s => (s == 0)%Q) transformed).
    { eapply Forall_impl; [exact Habs|]. intros x Hx. cbn in Hx.
      assert (Hx0 : (Qabs x <= 0)%Q) by (eapply Qle_trans; [exact Hx|exact E]).
      apply Qabs_Qle_condition in Hx0. destruct Hx0. lra. }
    exists m, transformed. split_and!.
    + reflexivity.
    + reflexivity.
    + reflexivity.
    + eapply Forall_impl; [exact Hz|]. intros x Hx. cbn in Hx. rewrite Hx. discriminate.
    + intros Hpos. exfalso. apply (Qlt_not_le _ _ Hpos E).
    + intros _. split; [reflexivity|exact Hz].
Qed.

Section TransformProperties.
Context {lib : SignalLib}.

(** C5.  Whenever the stages before the normalisation deliver a non-empty
    block, [transform_audio] returns a block whose every sample has
    absolute value at most 1.0 (in fact at most 0.8); when the maximum
    absolute value before the normalisation is zero, no division takes
    place and the block, all zeros, is returned as it is. *)
Theorem transform_audio_peak_bounded (self : AudioProcessor)
    (audio_data transformed : Block) :
  transform_stages self audio_data = Ok transformed ->
  transformed <> [] ->
  exists max_val out,
    np_max (np_abs transformed) = Ok max_val
    /\ transform_audio self audio_data = Ok out
    /\ Forall (fun s => (Qabs s <= 1)%Q) out
    /\ ((max_val == 0)%Q -> out = transformed /\ Forall (fun s => (s == 0)%Q) out).
Proof.
  intros Hst Hne.
  destruct (normalize_spec transformed Hne) as (m & out & Hmax & Hn & _ & Hb & _ & Hz).
  exists m, out. unfold transform_audio. rewrite Hst. cbn. split_and!.
  - exact Hmax.
  - exact Hn.
  - eapply Forall_impl; [exact Hb|]. intros s Hs. cbn in Hs. lra.
  - exact Hz.
Qed.

End TransformProperties.

Lemma transform_audio_peak_bounded_witness :
  exists out,
    transform_audio (lib := rational_lib) AudioProcessor_default [0.4; -0.2]%Q = Ok out
    /\ Forall (fun s => (Qabs s <= 1)%Q) out.
Proof.
  destruct (transform_audio_peak_bounded (lib := rational_lib) AudioProcessor_default
              [0.4; -0.2]%Q [0.4; -0.2]%Q eq_refl) as (m & out & _ & H & Hb & _).
  - discriminate.
  - exists out. split; assumption.
Defined.

(** ** Unit factors *)

Lemma unit_factor_test (q : Q) : (q == 1)%Q -> Qeq_bool q 1.0 = true.
Proof.
  intros H. apply Qeq_bool_iff. rewrite H. reflexivity.
Qed.

Lemma rescale_at_peak (peak : Q) (l : Block) :
  (peak == 0.8)%Q -> Forall2 Qeq (map (fun x => x / peak * 0.8)%Q l) l.
Proof.
  intros Hp. induction l as [|x l IH]; cbn; constructor; [|exact IH].
  rewrite Hp. field.
Qed.

Section UnitFactors.
Context {lib : SignalLib}.

Lemma transform_stages_unit (self : AudioProcessor) (audio_data : Block) :
  (pitch_shift self == 1)%Q -> (formant_shift self == 1)%Q ->
  voice_profile self <> "robot" ->
  transform_stages self audio_data = Ok audio_data.
Proof.
  intros Hp Hf Hr. unfold transform_stages.
  rewrite (unit_factor_test _ Hp), (unit_factor_test _ Hf). cbn.
  apply String.eqb_neq in Hr. rewrite Hr. reflexivity.
Qed.

(** C2, amended.  With both factors equal to 1.0 and a profile other than
    robot, the pitch and formant stages return their input block itself
    (no resampling, no transform), and [transform_audio] returns the
    normalised block: for a non-empty block with peak absolute value
    [peak], every sample is divided by [peak] and multiplied by 0.8 when
    [peak > 0], and the block is returned as it is when [peak] is zero.
    The output equals the input, up to the representation of the
    numbers, when the peak is 0.8. *)
Theorem transform_audio_unit_factors (self : AudioProcessor) (audio_data : Block) :
  (pitch_shift self == 1)%Q -> (formant_shift self == 1)%Q ->
  voice_profile self <> "robot" ->
  pitch_shift_audio audio_data (pitch_shift self) = Ok audio_data
  /\ apply_formant_shift self audio_data (formant_shift self) = Ok audio_data
  /\ transform_stages self audio_data = Ok audio_data
  /\ (audio_data <> [] ->
      exists peak out,
        np_max (np_abs audio_data) = Ok peak
        /\ transform_audio self audio_data = Ok out
        /\ ((0 < peak)%Q -> out = map (fun x => x / peak * 0.8)%Q audio_data)
        /\ ((peak == 0)%Q -> out = audio_data)
        /\ ((peak == 0.8)%Q -> Forall2 Qeq out audio_data)).
Proof.
  intros Hp Hf Hr. split_and!.
  - unfold pitch_shift_audio. rewrite (unit_factor_test _ Hp). reflexivity.
  - unfold apply_formant_shift. rewrite (unit_factor_test _ Hf). reflexivity.
  - apply transform_stages_unit; assumption.
  - intros Hne.
    destruct (normalize_spec audio_data Hne) as (m & out & Hmax & Hn & _ & _ & Hpos & Hz).
    exists m, out. unfold transform_audio.
    rewrite (transform_stages_unit self audio_data Hp Hf Hr). cbn. split_and!.
    + exact Hmax.
    + exact Hn.
    + exact Hpos.
    + intros H0. apply Hz, H0.
    + intros H8. rewrite Hpos by (rewrite H8; reflexivity).
      apply rescale_at_peak, H8.
Qed.

End UnitFactors.

(** C2, counterexample.  The default processor has both factors 1.0 and the
    profile "original"; on the one-sample block [0.4] it returns [0.8]. *)
Lemma transform_audio_unit_factors_rescales :
  (pitch_shift AudioProcessor_default == 1)%Q
  /\ (formant_shift AudioProcessor_default == 1)%Q
  /\ voice_profile AudioProcessor_default = "original"
  /\ exists y,
       transform_audio (lib := rational_lib) AudioProcessor_default [0.4%Q] = Ok [y]
       /\ (y == 0.8)%Q /\ ~ (y == 0.4)%Q.
Proof.
  split_and!; try reflexivity.
  eexists. split_and!; [reflexivity|reflexivity|discriminate].
Qed.

Lemma transform_audio_unit_factors_witness :
  exists out,
    transform_audio (lib := rational_lib) AudioProcessor_default [0.4; -0.2]%Q = Ok out
    /\ out = map (fun x => x / 0.4 * 0.8)%Q [0.4; -0.2]%Q.
Proof.
  destruct (transform_audio_unit_factors (lib := rational_lib) AudioProcessor_default
              [0.4; -0.2]%Q) as (_ & _ & _ & H).
  - reflexivity.
  - reflexivity.
  - discriminate.
  - destruct H as (peak & out & Hmax & Ht & Hpos & _ & _); [discriminate|].
    exists out. split; [exact Ht|].
    vm_compute in Hmax. injection Hmax as <-.
    apply Hpos. reflexivity.
Defined.

(** ** The registry's profiles against the processor's table *)

(** The factor pairs of the processor's table. *)
Definition table_factors : list (Q * Q) :=
  [(1.0, 1.0); (0.8, 0.9); (1.3, 1.1); (1.5, 1.2); (0.9, 0.95)]%Q.

Lemma profiles_lookup_Some (name : string) (p f : Q) :
  profiles !! name = Some (p, f) -> (p, f) ∈ table_factors.
Proof.
  unfold profiles, table_factors. intros H.
  repeat (rewrite lookup_insert in H; destruct (decide _);
          [injection H as <- <-; set_solver|]).
  rewrite lookup_empty in H. discriminate.
Qed.

(** A processor reached from [__init__] only ever holds factor pairs of its
    own table. *)
Lemma reachable_factors (self : AudioProcessor) :
  reachable self -> (pitch_shift self, formant_shift self) ∈ table_factors.
Proof.
  induction 1 as [sr bs|self name _ IH|self indata status self' printed _ IH Hcb].
  - cbn. set_solver.
  - unfold set_voice_profile. destruct (profiles !! name) as [[p f]|] eqn:E; cbn.
    + eapply profiles_lookup_Some, E.
    + exact IH.
  - unfold audio_input_callback in Hcb.
    destruct (to_mono indata) as [block|e]; cbn in Hcb; [|discriminate].
    destruct (put_nowait (input_queue self) block) as [q|[]]; inversion Hcb; subst; exact IH.
Qed.

(** After any history, selecting "male_deep" leaves factors other than the
    registry's 0.7 and 0.85. *)
Lemma male_deep_never_applied (self : AudioProcessor) :
  reachable self ->
  ~ (pitch_shift (set_voice_profile self "male_deep") == 0.7)%Q
  /\ ~ (formant_shift (set_voice_profile self "male_deep") == 0.85)%Q.
Proof.
  intros Hr. pose proof (reachable_factors _ (reach_profile self "male_deep" Hr)) as H.
  unfold table_factors in H.
  destruct (pitch_shift _) as [pn pd], (formant_shift _) as [fn fd].
  repeat (apply elem_of_cons in H; destruct H as [H|H];
          [injection H as -> -> -> ->; split; discriminate|]).
  inversion H.
Qed.

(** A 1024-sample ramp from 0 towards 1. *)
Definition ramp1024 : Block := map (fun i => of_nat i / 1024)%Q (seq 0 1024).

(** C3, on the code.  The registry of [voice_profiles.py] gives "male_deep"
    the factors 0.7 and 0.85, but the processor's own table has no such
    name: after [set_voice_profile "male_deep"] on a new processor both
    factors are still 1.0 and the stages before the normalisation return
    every block as it is.  Pitch shifting by 0.7 would have changed the
    ramp, already at its second sample. *)
Theorem male_deep_profile_not_applied :
  manager_profiles !! "male_deep" = Some (0.7, 0.85)%Q
  /\ profiles !! "male_deep" = None
  /\ pitch_shift (set_voice_profile AudioProcessor_default "male_deep") = 1.0%Q
  /\ formant_shift (set_voice_profile AudioProcessor_default "male_deep") = 1.0%Q
  /\ (forall (lib : SignalLib) (block : Block),
        transform_stages (set_voice_profile AudioProcessor_default "male_deep") block = Ok block)
  /\ length ramp1024 = 1024%nat
  /\ (exists shifted v w,
        pitch_shift_audio ramp1024 0.7 = Ok shifted
        /\ length shifted = 1024%nat
        /\ shifted !! 1%nat = Some v /\ ramp1024 !! 1%nat = Some w /\ (v < w)%Q).
Proof.
  split_and!.
  - vm_compute. reflexivity.
  - vm_compute. reflexivity.
  - reflexivity.
  - reflexivity.
  - intros lib block. apply transform_stages_unit; [reflexivity|reflexivity|discriminate].
  - reflexivity.
  - destruct (pitch_shift_audio ramp1024 0.7) as [shifted|e] eqn:E;
      vm_compute in E; [|discriminate].
    injection E as <-.
    eexists _, _, _. split_and!; [reflexivity|reflexivity|reflexivity|reflexivity|reflexivity].
Qed.

(** ** Block length through the stages *)

Lemma py_int_nonneg (q : Q) : (0 <= q)%Q -> 0 <= py_int q.
Proof.
  intros H. unfold py_int. apply Z.quot_pos; [|reflexivity].
  unfold Qle in H. cbn in H. lia.
Qed.

Lemma np_linspace_length (start stop : Q) (num : Z) (endpoint : bool) :
  0 <= num ->
  exists y, np_linspace start stop num endpoint = Ok y /\ length y = Z.to_nat num.
Proof.
  intros Hnum. unfold np_linspace.
  destruct (num <? 0) eqn:E; [apply Z.ltb_lt in E; lia|].
  set (n := Z.to_nat num).
  set (y := match (if endpoint then (n - 1)%nat else n) with
            | O => _
            | S _ => _
            end).
  assert (Hy : length y = n).
  { subst y. destruct (if endpoint then (n - 1)%nat else n);
      rewrite length_map, length_seq; reflexivity. }
  destruct (endpoint && (1 <? n)%nat) eqn:Eend.
  - eexists. split; [reflexivity|].
    apply andb_true_iff in Eend as [_ Hn]. apply Nat.ltb_lt in Hn.
    rewrite length_app, removelast_firstn_len, length_take, Hy. cbn. lia.
  - eexists. split; [reflexivity|exact Hy].
Qed.

Lemma np_interp_length (x xp fp : Block) :
  xp <> [] -> length xp = length fp ->
  exists y, np_interp x xp fp = Ok y /\ length y = length x.
Proof.
  intros Hne Hlen. unfold np_interp.
  destruct (length xp =? 0)%nat eqn:E0.
  { apply Nat.eqb_eq in E0. destruct xp; [congruence|discriminate]. }
  rewrite Hlen, Nat.eqb_refl. cbn.
  eexists. split; [reflexivity|apply length_map].
Qed.

Lemma np_arange_length (n : nat) : length (np_arange n) = n.
Proof. unfold np_arange. rewrite length_map. apply length_seq. Qed.

Lemma of_nat_nonneg (n : nat) : (0 <= of_nat n)%Q.
Proof. unfold of_nat, Qle. cbn. lia. Qed.

(** Pitch shifting by a positive factor returns a block of the length of
    its non-empty input. *)
Lemma pitch_shift_audio_length (audio_data : Block) (shift_factor : Q) :
  audio_data <> [] -> (0 < shift_factor)%Q ->
  exists out, pitch_shift_audio audio_data shift_factor = Ok out
              /\ length out = length audio_data.
Proof.
  intros Hne Hpos. unfold pitch_shift_audio.
  destruct (Qeq_bool shift_factor 1.0); [eexists; split; reflexivity|].
  unfold py_truediv.
  destruct (Qeq_bool shift_factor 0) eqn:E0.
  { apply Qeq_bool_iff in E0. rewrite E0 in Hpos. exfalso. apply (Qlt_irrefl 0), Hpos. }
  cbn [mbind result_bind].
  assert (Hq : (0 <= of_nat (length audio_data) / shift_factor)%Q).
  { apply Qle_shift_div_l; [exact Hpos|]. rewrite Qmult_0_l. apply of_nat_nonneg. }
  destruct (np_linspace_length 0 (of_nat (length audio_data) - 1)
              (py_int (of_nat (length audio_data) / shift_factor)) true
              (py_int_nonneg _ Hq)) as (indices & -> & _).
  cbn [mbind result_bind].
  destruct (np_interp_length indices (np_arange (length audio_data)) audio_data)
    as (shifted & -> & _).
  { destruct audio_data; [congruence|discriminate]. }
  { apply np_arange_length. }
  cbn [mbind result_bind].
  destruct (length audio_data <? length shifted)%nat eqn:E.
  - apply Nat.ltb_lt in E. eexists. split; [reflexivity|].
    rewrite length_take. lia.
  - apply Nat.ltb_ge in E. eexists. split; [reflexivity|].
    unfold np_pad_right. rewrite length_app, length_replicate. lia.
Qed.

Lemma py_setitem_length {A} (a : list A) (idx : Z) (v : A) :
  0 <= idx < Z.of_nat (length a) ->
  exists a', py_setitem a idx v = Ok a' /\ length a' = length a.
Proof.
  intros [H0 H1]. unfold py_setitem.
  destruct (idx <? - Z.of_nat (length a)) eqn:E1; [apply Z.ltb_lt in E1; lia|].
  destruct (Z.of_nat (length a) <=? idx) eqn:E2; [apply Z.leb_le in E2; lia|].
  cbn. eexists. split; [reflexivity|apply length_insert].
Qed.

Lemma truediv_one_ok (z : Z) :
  z <> 0 -> exists d, py_truediv 1 (inject_Z z) = Ok d /\ ~ (d == 0)%Q.
Proof.
  intros Hz. unfold py_truediv.
  destruct (Qeq_bool (inject_Z z) 0) eqn:E.
  { apply Qeq_bool_iff in E. unfold Qeq in E. cbn in E. lia. }
  eexists. split; [reflexivity|].
  intros H. unfold Qeq, Qdiv, Qmult, Qinv, inject_Z in H.
  destruct z as [|p|p]; cbn in H; [congruence|lia|lia].
Qed.

Lemma np_fftfreq_ok (n : nat) (d : Q) :
  n <> 0%nat -> ~ (d == 0)%Q -> is_Ok (np_fftfreq n d).
Proof.
  intros Hn Hd. unfold np_fftfreq, py_truediv.
  destruct (Qeq_bool (of_nat n * d) 0) eqn:E.
  { apply Qeq_bool_iff in E. apply Qmult_integral in E as [E|E]; [|contradiction].
    unfold of_nat, Qeq in E. cbn in E. lia. }
  cbn. eexists. reflexivity.
Qed.

Section LengthProperties.
Context {lib : SignalLib}.

Lemma dft_length (sign : Q) (x : list C) : length (dft sign x) = length x.
Proof. unfold dft. rewrite length_map. apply length_seq. Qed.

Lemma np_fft_ok (x : list C) :
  x <> [] -> exists y, np_fft x = Ok y /\ length y = length x.
Proof.
  intros Hne. unfold np_fft. destruct x; [congruence|].
  eexists. split; [reflexivity|apply dft_length].
Qed.

Lemma np_ifft_ok (x : list C) :
  x <> [] -> exists y, np_ifft x = Ok y /\ length y = length x.
Proof.
  intros Hne. unfold np_ifft. destruct x; [congruence|].
  eexists. split; [reflexivity|]. rewrite length_map. apply dft_length.
Qed.

Lemma remap_step_length (shift_factor : Q) (es : list (nat * (Q * C))) (acc : list C) :
  (0 <= shift_factor)%Q ->
  exists out,
    foldl (fun acc e =>
             shifted_fft ← acc;
             let '(i, (freq, fft_i)) := e in
             if Qltb 0 freq then
               let new_freq_idx := py_int (of_nat i * shift_factor)%Q in
               if new_freq_idx <? Z.of_nat (length shifted_fft)
               then py_setitem shifted_fft new_freq_idx fft_i
               else Ok shifted_fft
             else Ok shifted_fft)
          (Ok acc) es = Ok out
    /\ length out = length acc.
Proof.
  intros Hg. revert acc. induction es as [|[i [freq c]] es IH]; intros acc; cbn [foldl mbind result_bind].
  - eexists. split; reflexivity.
  - destruct (Qltb 0 freq); [|apply IH].
    destruct (py_int (of_nat i * shift_factor) <? Z.of_nat (length acc)) eqn:E; [|apply IH].
    apply Z.ltb_lt in E.
    destruct (py_setitem_length acc (py_int (of_nat i * shift_factor)) c) as (acc' & -> & Hl).
    { split; [|exact E]. apply py_int_nonneg.
      apply Qmult_le_0_compat; [apply of_nat_nonneg|exact Hg]. }
    destruct (IH acc') as (out & Hout & Hlen).
    exists out. split; [exact Hout|congruence].
Qed.

Lemma remap_bins_length (shift_factor : Q) (fft : list C) (freqs : Block) :
  (0 <= shift_factor)%Q ->
  exists out, remap_bins shift_factor fft freqs = Ok out /\ length out = length fft.
Proof.
  intros Hg. unfold remap_bins.
  destruct (remap_step_length shift_factor (zip (seq 0 (length freqs)) (zip freqs fft))
              (replicate (length fft) (0, 0)%Q) Hg) as (out & Hout & Hlen).
  exists out. split; [exact Hout|]. rewrite Hlen. apply length_replicate.
Qed.

(** Formant shifting by a non-negative factor returns a block of the
    length of its non-empty input. *)
Lemma apply_formant_shift_length (self : AudioProcessor) (audio_data : Block)
    (shift_factor : Q) :
  audio_data <> [] -> sample_rate self <> 0 -> (0 <= shift_factor)%Q ->
  exists out, apply_formant_shift self audio_data shift_factor = Ok out
              /\ length out = length audio_data.
Proof.
  intros Hne Hsr Hg. unfold apply_formant_shift.
  destruct (Qeq_bool shift_factor 1.0); [eexists; split; reflexivity|].
  destruct (np_fft_ok (map of_real audio_data)) as (fft & -> & Hfft).
  { destruct audio_data; [congruence|discriminate]. }
  rewrite length_map in Hfft. cbn [mbind result_bind].
  destruct (truediv_one_ok (sample_rate self) Hsr) as (d & -> & Hd). cbn [mbind result_bind].
  destruct (np_fftfreq_ok (length audio_data) d) as (freqs & ->); [|exact Hd|].
  { destruct audio_data; [congruence|discriminate]. }
  cbn [mbind result_bind].
  destruct (remap_bins_length shift_factor fft freqs Hg) as (shifted & -> & Hs). cbn [mbind result_bind].
  destruct (np_ifft_ok shifted) as (out & -> & Ho).
  { destruct shifted; [|discriminate]. destruct audio_data; [congruence|].
    cbn in Hs, Hfft. congruence. }
  cbn. eexists. split; [reflexivity|].
  unfold np_real. rewrite length_map. congruence.
Qed.

End LengthProperties.

#[local] Instance rational_lib_laws : SignalLibLaws rational_lib.
Proof.
  split.
  - intros b a x y. cbn. unfold passthrough_filtfilt.
    destruct (_ <? _)%nat; [|discriminate]. intros [= ->]. reflexivity.
  - intros b a x H. cbn. unfold passthrough_filtfilt.
    apply Nat.ltb_lt in H. rewrite H. eexists. reflexivity.
  - intros fs _. eexists _, _. split; [reflexivity|]. split; reflexivity.
Qed.

Section TransformLength.
Context {lib : SignalLib} {laws : SignalLibLaws lib}.

Lemma apply_robot_effect_length (self : AudioProcessor) (audio_data : Block) :
  (27 < length audio_data)%nat -> 6000 < sample_rate self ->
  exists out, apply_robot_effect self audio_data = Ok out
              /\ length out = length audio_data.
Proof.
  intros Hlen Hsr. unfold apply_robot_effect.
  destruct (butter_robot_ok (inject_Z (sample_rate self))) as (b & a & -> & Hb & Ha).
  { unfold Qlt. cbn. lia. }
  cbn [mbind result_bind fst snd].
  set (modulated := zip_with _ audio_data _).
  assert (Hm : length modulated = length audio_data).
  { subst modulated. rewrite length_zip_with, !length_map, np_arange_length. lia. }
  destruct (filtfilt_ok b a modulated) as [out Hout].
  { rewrite Ha, Hb, Hm. cbn. lia. }
  exists out. split; [exact Hout|].
  rewrite (filtfilt_length _ _ _ _ Hout). exact Hm.
Qed.

(** Length preservation.  For every non-empty block, a positive pitch
    factor, a non-negative formant factor and a non-zero sample rate (and,
    under the robot profile, a block longer than the filter's padding at a
    sample rate above twice the upper band edge), [transform_audio]
    returns a block of exactly the length of its input. *)
Theorem transform_audio_preserves_length (self : AudioProcessor) (audio_data : Block) :
  audio_data <> [] ->
  (0 < pitch_shift self)%Q -> (0 <= formant_shift self)%Q ->
  sample_rate self <> 0 ->
  (voice_profile self = "robot" -> (27 < length audio_data)%nat /\ 6000 < sample_rate self) ->
  exists out, transform_audio self audio_data = Ok out
              /\ length out = length audio_data.
Proof.
  intros Hne Hp Hf Hsr Hrobot.
  assert (Hnonempty : forall l : Block, length l = length audio_data -> l <> []).
  { intros l Hl ->. destruct audio_data; [congruence|discriminate]. }
  unfold transform_audio, transform_stages.
  assert (H1 : exists t1,
             (if negb (Qeq_bool (pitch_shift self) 1.0)
              then pitch_shift_audio audio_data (pitch_shift self)
              else Ok audio_data) = Ok t1 /\ length t1 = length audio_data).
  { destruct (negb _); [apply pitch_shift_audio_length; assumption|].
    eexists. split; reflexivity. }
  destruct H1 as (t1 & -> & Hl1). cbn [mbind result_bind].
  assert (H2 : exists t2,
             (if negb (Qeq_bool (formant_shift self) 1.0)
              then apply_formant_shift self t1 (formant_shift self)
              else Ok t1) = Ok t2 /\ length t2 = length audio_data).
  { destruct (negb _); [|eexists; split; [reflexivity|exact Hl1]].
    destruct (apply_formant_shift_length self t1 (formant_shift self))
      as (t2 & Ht2 & Hl2); auto.
    exists t2. split; [exact Ht2|congruence]. }
  destruct H2 as (t2 & -> & Hl2). cbn [mbind result_bind].
  assert (H3 : exists t3,
             (if String.eqb (voice_profile self) "robot"
              then apply_robot_effect self t2
              else Ok t2) = Ok t3 /\ length t3 = length audio_data).
  { destruct (String.eqb (voice_profile self) "robot") eqn:E;
      [|eexists; split; [reflexivity|exact Hl2]].
    apply String.eqb_eq in E. destruct (Hrobot E) as [Hlen Hfs].
    destruct (apply_robot_effect_length self t2) as (t3 & Ht3 & Hl3); [lia|exact Hfs|].
    exists t3. split; [exact Ht3|congruence]. }
  destruct H3 as (t3 & -> & Hl3). cbn [mbind result_bind].
  destruct (normalize_spec t3 (Hnonempty t3 Hl3)) as (m & out & _ & Hn & Hlo & _).
  exists out. split; [exact Hn|congruence].
Qed.

End TransformLength.

Lemma transform_audio_preserves_length_witness :
  exists out,
    transform_audio (lib := rational_lib) (set_voice_profile AudioProcessor_default "male")
      [0.4; -0.2; 0.1]%Q = Ok out
    /\ length out = 3%nat.
Proof.
  destruct (transform_audio_preserves_length (lib := rational_lib)
              (set_voice_profile AudioProcessor_default "male") [0.4; -0.2; 0.1]%Q)
    as (out & Hout & Hlen).
  - discriminate.
  - reflexivity.
  - discriminate.
  - discriminate.
  - discriminate.
  - exists out. split; [exact Hout|exact Hlen].
Defined.

Section EmptyBlock.
Context {lib : SignalLib}.

(** Under every profile other than robot, whatever the factors, the empty
    block makes [transform_audio] raise. *)
Lemma transform_audio_empty_raises (self : AudioProcessor) :
  voice_profile self <> "robot" -> exists e, transform_audio self [] = Raise e.
Proof.
  intros Hr. apply String.eqb_neq in Hr.
  unfold transform_audio, transform_stages. rewrite Hr.
  destruct (negb (Qeq_bool (pitch_shift self) 1.0)) eqn:Ep.
  - unfold pitch_shift_audio. apply negb_true_iff in Ep. rewrite Ep.
    unfold py_truediv. destruct (Qeq_bool (pitch_shift self) 0); [eexists; reflexivity|].
    cbn [mbind result_bind length].
    replace (py_int (of_nat 0 / pitch_shift self)) with 0.
    + eexists. reflexivity.
    + unfold py_int, Qdiv, Qmult, of_nat. cbn. reflexivity.
  - cbn [mbind result_bind].
    destruct (negb (Qeq_bool (formant_shift self) 1.0)) eqn:Ef.
    + unfold apply_formant_shift. apply negb_true_iff in Ef. rewrite Ef.
      eexists. reflexivity.
    + eexists. reflexivity.
Qed.

(** C1, on the code.  A new processor (profile "original", both factors
    1.0) raises [ValueError] on the empty block: [np.max] has no value on
    a zero-size array, so no block of length 0 is returned. *)
Theorem transform_audio_empty_block_raises :
  transform_audio AudioProcessor_default [] = Raise ValueError.
Proof. reflexivity. Qed.

End EmptyBlock.

(** ** The pipeline: capture, worker, render *)

(** The fields that decide what [transform_audio] computes. *)
Definition same_settings (s s' : AudioProcessor) : Prop :=
  sample_rate s' = sample_rate s /\ block_size s' = block_size s
  /\ is_running s' = is_running s /\ pitch_shift s' = pitch_shift s
  /\ formant_shift s' = formant_shift s /\ voice_profile s' = voice_profile s.

Lemma stereo_columns (rows : list (list Q)) (t : Block) :
  Forall (fun row => length row = 2%nat) rows -> length rows = length t ->
  zip_with (fun row v => <[1%nat := v]> row)
    (zip_with (fun row v => <[0%nat := v]> row) rows t) t
  = map (fun v => [v; v]) t.
Proof.
  intros Hrows. revert t. induction Hrows as [|row rows Hrow _ IH]; intros [|v t] Hlen;
    try discriminate; [reflexivity|].
  cbn. f_equal; [|apply IH; cbn in Hlen; lia].
  destruct row as [|a [|b [|c row]]]; try discriminate. reflexivity.
Qed.

Section Pipeline.
Context {lib : SignalLib}.

Lemma transform_audio_same_settings (s s' : AudioProcessor) (b : Block) :
  same_settings s s' -> transform_audio s' b = transform_audio s b.
Proof.
  intros (H1 & H2 & H3 & H4 & H5 & H6).
  unfold transform_audio, transform_stages, apply_formant_shift, apply_robot_effect.
  rewrite H1, H4, H5, H6. reflexivity.
Qed.

(** The blocks of [bs] that [transform_audio] turns into a block, and the
    lines for those it fails on, both in queue order. *)
Definition transformed_blocks (self : AudioProcessor) (bs : list Block) : list Block :=
  omap (fun b => match transform_audio self b with Ok t => Some t | Raise _ => None end) bs.

Definition error_lines (self : AudioProcessor) (bs : list Block) : list worker_line :=
  omap (fun b => match transform_audio self b with
                 | Ok _ => None
                 | Raise e => Some (ProcessingError e)
                 end) bs.

Lemma transformed_blocks_same_settings (s s' : AudioProcessor) (bs : list Block) :
  same_settings s s' -> transformed_blocks s' bs = transformed_blocks s bs.
Proof.
  intros H. unfold transformed_blocks. induction bs as [|b bs IH]; [reflexivity|].
  cbn. rewrite (transform_audio_same_settings s s' b H), IH. reflexivity.
Qed.

Lemma error_lines_same_settings (s s' : AudioProcessor) (bs : list Block) :
  same_settings s s' -> error_lines s' bs = error_lines s bs.
Proof.
  intros H. unfold error_lines. induction bs as [|b bs IH]; [reflexivity|].
  cbn. rewrite (transform_audio_same_settings s s' b H), IH. reflexivity.
Qed.

(** The worker keeps the order of the blocks and survives every failure:
    running as many passes as blocks are pending, with an unbounded output
    queue, empties the input queue, appends to the output queue exactly the
    blocks [transform_audio] could transform, in submission order, and
    prints one error line for each block it could not; a failing block is
    dropped and the settings are never touched. *)
Theorem processing_worker_drains_in_order (self : AudioProcessor) :
  is_running self = true ->
  maxsize (output_queue self) <= 0 ->
  exists self',
    processing_worker (length (pending (input_queue self))) self
    = (self', error_lines self (pending (input_queue self)))
    /\ same_settings self self'
    /\ pending (input_queue self') = []
    /\ pending (output_queue self')
       = pending (output_queue self) ++ transformed_blocks self (pending (input_queue self))
    /\ maxsize (input_queue self') = maxsize (input_queue self)
    /\ maxsize (output_queue self') = maxsize (output_queue self).
Proof.
  remember (pending (input_queue self)) as bs eqn:Hbs.
  revert self Hbs. induction bs as [|b bs IH]; intros self Hbs Hrun Hmax.
  - exists self. cbn. rewrite <- Hbs, app_nil_r. unfold same_settings. tauto.
  - cbn [length processing_worker]. rewrite Hrun.
    unfold worker_iteration, get_nowait. rewrite <- Hbs.
    set (self1 := with_input_queue self (mkQueue (maxsize (input_queue self)) bs)).
    assert (Hs1 : same_settings self self1) by (unfold same_settings; cbn; tauto).
    rewrite (transform_audio_same_settings self self1 b Hs1).
    unfold transformed_blocks, error_lines. cbn [omap list_omap].
    fold (transformed_blocks self bs). fold (error_lines self bs).
    destruct (transform_audio self b) as [t|e].
    + unfold put_nowait. rewrite (queue_full_unbounded (output_queue self1) Hmax).
      set (self2 := with_output_queue self1 _).
      assert (Hs2 : same_settings self self2) by (unfold same_settings; cbn; tauto).
      destruct (IH self2) as (self' & Hw & Hs & Hin & Hout & Hmi & Hmo);
        [reflexivity|exact Hrun|exact Hmax|].
      cbn [pending input_queue self2 with_output_queue self1 with_input_queue] in Hw.
      rewrite Hw. exists self'.
      rewrite (error_lines_same_settings self self2 bs Hs2).
      split; [reflexivity|]. split_and!.
      * destruct Hs as (?&?&?&?&?&?), Hs2 as (?&?&?&?&?&?). unfold same_settings.
        split_and!; congruence.
      * exact Hin.
      * rewrite Hout, (transformed_blocks_same_settings self self2 bs Hs2).
        cbn. rewrite <- app_assoc. reflexivity.
      * exact Hmi.
      * exact Hmo.
    + destruct (IH self1) as (self' & Hw & Hs & Hin & Hout & Hmi & Hmo);
        [reflexivity|exact Hrun|exact Hmax|].
      cbn [pending input_queue self1 with_input_queue] in Hw.
      rewrite Hw. exists self'.
      rewrite (error_lines_same_settings self self1 bs Hs1).
      split; [reflexivity|]. split_and!.
      * destruct Hs as (?&?&?&?&?&?), Hs1 as (?&?&?&?&?&?). unfold same_settings.
        split_and!; congruence.
      * exact Hin.
      * rewrite Hout, (transformed_blocks_same_settings self self1 bs Hs1). reflexivity.
      * exact Hmi.
      * exact Hmo.
Qed.

(** A block travels through the pipeline unchanged apart from the
    transformation: on empty, unbounded queues, one capture callback, one
    worker pass and one render callback write [transform_audio] of the mono
    block to both channels of a stereo [outdata] of the same number of
    frames, leave both queues empty again, and the next render callback
    writes silence. *)
Theorem capture_process_render (self : AudioProcessor) (indata outdata : Frames)
    (b t : Block) :
  pending (input_queue self) = [] -> pending (output_queue self) = [] ->
  maxsize (input_queue self) <= 0 -> maxsize (output_queue self) <= 0 ->
  to_mono indata = Ok b -> transform_audio self b = Ok t ->
  channels outdata = 2%nat -> length (frames outdata) = length t ->
  Forall (fun row => length row = 2%nat) (frames outdata) ->
  exists s1 s2 s3 out,
    audio_input_callback self indata None = Ok (s1, [])
    /\ worker_iteration s1 = (s2, [])
    /\ audio_output_callback s2 outdata None = (s3, out, [], None)
    /\ frames out = map (fun v => [v; v]) t
    /\ pending (input_queue s3) = [] /\ pending (output_queue s3) = []
    /\ audio_output_callback s3 outdata None = (s3, fill_zero outdata, [], None).
Proof.
  intros Hin Hout Hmi Hmo Hmono Ht Hch Hlen Hrows.
  unfold audio_input_callback. rewrite Hmono. cbn [mbind result_bind].
  unfold put_nowait. rewrite (queue_full_unbounded _ Hmi), Hin. cbn [app].
  eexists _, _, _, _. split; [reflexivity|].
  unfold worker_iteration, get_nowait. cbn [input_queue with_input_queue pending].
  match goal with |- context [transform_audio ?s b] =>
    rewrite (transform_audio_same_settings self s b)
      by (unfold same_settings; cbn; tauto) end.
  rewrite Ht. unfold put_nowait.
  cbn [output_queue with_input_queue maxsize].
  rewrite (queue_full_unbounded _ Hmo), Hout. cbn [app].
  split; [reflexivity|].
  unfold audio_output_callback, get_nowait.
  cbn [output_queue with_output_queue with_input_queue pending maxsize input_queue].
  rewrite Hch. cbn [Nat.eqb Nat.ltb Nat.leb].
  unfold set_column. rewrite <- Hlen, Nat.eqb_refl.
  rewrite length_zip_with, <- Hlen, Nat.min_id, Nat.eqb_refl.
  split; [reflexivity|].
  cbn [frames]. split; [apply stereo_columns; [exact Hrows|exact Hlen]|].
  split; [reflexivity|]. split; [reflexivity|]. reflexivity.
Qed.

End Pipeline.

Lemma processing_worker_drains_in_order_witness :
  exists self',
    processing_worker (lib := rational_lib) 2
      (with_is_running (with_input_queue AudioProcessor_default (mkQueue 0 [[0.4%Q]; []])) true)
    = (self', [ProcessingError ValueError])
    /\ pending (input_queue self') = []
    /\ length (pending (output_queue self')) = 1%nat.
Proof.
  destruct (processing_worker_drains_in_order (lib := rational_lib)
              (with_is_running (with_input_queue AudioProcessor_default
                                  (mkQueue 0 [[0.4%Q]; []])) true))
    as (self' & Hw & _ & Hin & Hout & _ & _).
  - reflexivity.
  - cbn. lia.
  - exists self'. split; [exact Hw|]. split; [exact Hin|]. rewrite Hout. reflexivity.
Defined.

Lemma capture_process_render_witness :
  exists s1 s2 s3 out,
    audio_input_callback AudioProcessor_default (mkFrames 1 [[0.4%Q]; [0.2%Q]]) None
    = Ok (s1, [])
    /\ worker_iteration (lib := rational_lib) s1 = (s2, [])
    /\ audio_output_callback s2 (mkFrames 2 [[0; 0]; [0; 0]]%Q) None = (s3, out, [], None)
    /\ frames out = map (fun v => [v; v]) (map (fun x => x / 0.4 * 0.8)%Q [0.4; 0.2]%Q).
Proof.
  destruct (capture_process_render (lib := rational_lib) AudioProcessor_default
              (mkFrames 1 [[0.4%Q]; [0.2%Q]]) (mkFrames 2 [[0; 0]; [0; 0]]%Q)
              [0.4; 0.2]%Q (map (fun x => x / 0.4 * 0.8)%Q [0.4; 0.2]%Q))
    as (s1 & s2 & s3 & out & H1 & H2 & H3 & H4 & _).
  - reflexivity.
  - reflexivity.
  - cbn. lia.
  - cbn. lia.
  - reflexivity.
  - reflexivity.
  - reflexivity.
  - reflexivity.
  - repeat constructor.
  - exists s1, s2, s3, out. split_and!; assumption.
Defined.

(** ** Echo: the feedback comb filter *)



Lemma echo_fold_length (feedback : Q) (d n : nat) (indices : list nat) (buf : Block) :
  length (foldl (fun buf i =>
                   if (i - d <? n)%nat
                   then <[i := (getitem buf i + feedback * getitem buf (i - d))%Q]> buf
                   else buf) buf indices)
  = length buf.
Proof.
  revert buf. induction indices as [|i indices IH]; intros buf; cbn [foldl]; [reflexivity|].
  rewrite IH. destruct (i - d <? n)%nat; [apply length_insert|reflexivity].
Qed.

Lemma echo_loop_length (feedback : Q) (d n : nat) (buf : Block) :
  length (echo_loop feedback d n buf) = length buf.
Proof. apply echo_fold_length. Qed.

Lemma echo_fold_outside (feedback : Q) (d n : nat) (indices : list nat) (buf : Block) (j : nat) :
  j ∉ indices ->
  foldl (fun buf i =>
           if (i - d <? n)%nat
           then <[i := (getitem buf i + feedback * getitem buf (i - d))%Q]> buf
           else buf) buf indices !! j
  = buf !! j.
Proof.
  revert buf. induction indices as [|i indices IH]; intros buf Hj; cbn [foldl]; [reflexivity|].
  apply not_elem_of_cons in Hj as [Hne Hj].
  rewrite IH by exact Hj.
  destruct (i - d <? n)%nat; [|reflexivity].
  apply list_lookup_insert_ne. congruence.
Qed.




Lemma delay_in_block (sample_rate : Z) (audio_data : Block) (delay_ms : Q) :
  0 <= py_int (delay_ms * inject_Z sample_rate / 1000)%Q < Z.of_nat (length audio_data) ->
  forall feedback wet_level,
    apply_echo sample_rate audio_data delay_ms feedback wet_level
    = Ok (np_add (np_scale (1.0 - wet_level)%Q audio_data)
            (np_scale wet_level
               (take (length audio_data)
                  (echo_loop feedback
                     (Z.to_nat (py_int (delay_ms * inject_Z sample_rate / 1000)%Q))
                     (length audio_data)
                     (audio_data ++
                      replicate (Z.to_nat (py_int (delay_ms * inject_Z sample_rate / 1000)%Q))
                        0%Q))))).
Proof.
  intros [H0 H1] feedback wet_level. unfold apply_echo.
  destruct (Z.of_nat (length audio_data) <=? _) eqn:E1; [apply Z.leb_le in E1; lia|].
  destruct (_ <? 0) eqn:E2; [apply Z.ltb_lt in E2; lia|].
  reflexivity.
Qed.

Lemma echo_audio_length (feedback : Q) (d : nat) (audio_data : Block) :
  length (take (length audio_data)
            (echo_loop feedback d (length audio_data) (audio_data ++ replicate d 0%Q)))
  = length audio_data.
Proof.
  rewrite length_take, echo_loop_length, length_app, length_replicate. lia.
Qed.




Lemma getitem_insert_eq (buf : Block) (i : nat) (v : Q) :
  (i < length buf)%nat -> getitem (<[i := v]> buf) i = v.
Proof.
  intros H. unfold getitem. rewrite list_lookup_insert_eq by exact H. reflexivity.
Qed.

Lemma getitem_insert_ne (buf : Block) (i j : nat) (v : Q) :
  i <> j -> getitem (<[i := v]> buf) j = getitem buf j.
Proof.
  intros H. unfold getitem. rewrite list_lookup_insert_ne by exact H. reflexivity.
Qed.

(** The loop after its first [k] passes over a buffer of [n + d] samples,
    [d > 0]: the samples from [d + k] on are as they were, and every sample
    already visited is the old sample plus the feedback share of the sample
    [d] places before it. *)
Lemma echo_fold_recurrence (feedback : Q) (d n k : nat) (buf : Block) :
  (0 < d)%nat -> length buf = (n + d)%nat -> (k <= n)%nat ->
  forall i, (d <= i < d + k)%nat ->
    getitem (foldl (fun buf i =>
                      if (i - d <? n)%nat
                      then <[i := (getitem buf i + feedback * getitem buf (i - d))%Q]> buf
                      else buf) buf (seq d k)) i
    = (getitem buf i
       + feedback * getitem (foldl (fun buf i =>
                      if (i - d <? n)%nat
                      then <[i := (getitem buf i + feedback * getitem buf (i - d))%Q]> buf
                      else buf) buf (seq d k)) (i - d))%Q.
Proof.
  intros Hd Hlen. induction k as [|k IH]; intros Hk i Hi; [lia|].
  rewrite seq_S, foldl_app. cbn [foldl].
  set (B := foldl _ buf (seq d k)) in *.
  assert (HB : length B = (n + d)%nat).
  { subst B. rewrite echo_fold_length. exact Hlen. }
  replace (d + k - d)%nat with k by lia.
  assert (Hcond : (k <? n)%nat = true) by (apply Nat.ltb_lt; lia).
  rewrite Hcond.
  destruct (decide (i = d + k)%nat) as [->|Hne].
  - rewrite getitem_insert_eq by lia.
    rewrite getitem_insert_ne by lia.
    replace (d + k - d)%nat with k by lia.
    f_equal. unfold getitem. subst B. rewrite echo_fold_outside; [reflexivity|].
    intros Hin. apply elem_of_seq in Hin. lia.
  - rewrite !getitem_insert_ne by lia.
    apply IH; lia.
Qed.

(** For a delay of a whole number of milliseconds the sample count is the
    integer quotient. *)
Lemma whole_ms_delay (delay_ms sample_rate : Z) :
  0 <= delay_ms * sample_rate ->
  py_int (inject_Z delay_ms * inject_Z sample_rate / 1000)%Q = delay_ms * sample_rate / 1000.
Proof.
  intros H. unfold py_int. cbn.
  rewrite Z.quot_div_nonneg by lia. f_equal. lia.
Qed.

(** The signal the feedback loop leaves on the first [n] samples of the
    buffer, for a delay of [d] samples, [0 < d < n]. *)
Lemma echo_loop_comb (feedback : Q) (d : nat) (audio_data : Block) :
  (0 < d < length audio_data)%nat ->
  let echo_audio :=
    take (length audio_data)
      (echo_loop feedback d (length audio_data) (audio_data ++ replicate d 0%Q)) in
  (forall i, (i < d)%nat -> echo_audio !! i = audio_data !! i)
  /\ (forall i, (d <= i < length audio_data)%nat ->
        getitem echo_audio i
        = (getitem audio_data i + feedback * getitem echo_audio (i - d))%Q).
Proof.
  intros Hrange echo_audio. subst echo_audio.
  set (n := length audio_data). set (buf := audio_data ++ replicate d 0%Q).
  assert (Hbuf : length buf = (n + d)%nat).
  { subst buf. rewrite length_app, length_replicate. reflexivity. }
  split.
  - intros i Hi. rewrite lookup_take_lt by lia.
    unfold echo_loop. rewrite echo_fold_outside.
    + subst buf. apply lookup_app_l. lia.
    + intros Hin. apply elem_of_seq in Hin. lia.
  - intros i Hi. unfold getitem at 1 3. rewrite !lookup_take_lt by lia.
    fold (getitem (echo_loop feedback d n buf) i).
    fold (getitem (echo_loop feedback d n buf) (i - d)).
    unfold echo_loop. rewrite Hbuf. replace (n + d - d)%nat with n by lia.
    rewrite (echo_fold_recurrence feedback d n n buf) by lia.
    f_equal. unfold getitem. subst buf. rewrite lookup_app_l by lia. reflexivity.
Qed.

(** The echo is a feedback comb filter.  For a delay of a whole number of
    milliseconds [delay_ms], with [0 <= delay_ms * sample_rate < 10 ** 15]
    (the product is then an exact float and its division by 1000 does not
    round across a whole number), the delay is
    [d = delay_ms * sample_rate // 1000] samples, and for [0 < d < len(audio_data)]
    the result is the mix [(1 - wet) * dry + wet * echo], where the echo
    signal has the length of the block, equals the block on its first [d]
    samples, and from sample [d] on is the block's sample plus [feedback]
    times the echo signal [d] samples earlier. *)
Theorem apply_echo_comb_filter (sample_rate : Z) (audio_data : Block) (delay_ms : Z)
    (feedback wet_level : Q) (d : nat) :
  0 <= delay_ms * sample_rate < 10 ^ 15 ->
  Z.of_nat d = delay_ms * sample_rate / 1000 ->
  (0 < d < length audio_data)%nat ->
  exists echo_audio,
    apply_echo sample_rate audio_data (inject_Z delay_ms) feedback wet_level
    = Ok (np_add (np_scale (1.0 - wet_level)%Q audio_data) (np_scale wet_level echo_audio))
    /\ length echo_audio = length audio_data
    /\ (forall i, (i < d)%nat -> echo_audio !! i = audio_data !! i)
    /\ (forall i, (d <= i < length audio_data)%nat ->
          getitem echo_audio i
          = (getitem audio_data i + feedback * getitem echo_audio (i - d))%Q).
Proof.
  intros Hms Hd Hrange.
  assert (Hint : py_int (inject_Z delay_ms * inject_Z sample_rate / 1000)%Q = Z.of_nat d).
  { rewrite whole_ms_delay by lia. symmetry. exact Hd. }
  rewrite delay_in_block by lia. rewrite Hint, Nat2Z.id.
  eexists. split; [reflexivity|]. split; [apply echo_audio_length|].
  exact (echo_loop_comb feedback d audio_data Hrange).
Qed.

Lemma apply_echo_comb_filter_witness :
  exists echo_audio,
    apply_echo 1000 [0.5; 0.25; -0.5]%Q (inject_Z 1) 0.5 0.3
    = Ok (np_add (np_scale (1.0 - 0.3)%Q [0.5; 0.25; -0.5]%Q) (np_scale 0.3 echo_audio))
    /\ length echo_audio = 3%nat.
Proof.
  destruct (apply_echo_comb_filter 1000 [0.5; 0.25; -0.5]%Q 1 0.5 0.3 1)
    as (echo & H1 & H2 & _).
  - lia.
  - reflexivity.
  - cbn. lia.
  - exists echo. split; assumption.
Defined.

(** ** Pitch shifting: padding, truncation and bad factors *)

Lemma py_int_le (q : Q) : (0 <= q)%Q -> (inject_Z (py_int q) <= q)%Q.
Proof.
  intros H. unfold py_int, Qle in *. cbn in *.
  rewrite Z.quot_div_nonneg by lia.
  pose proof (Z.mul_div_le (Qnum q) (Z.pos (Qden q))). lia.
Qed.

Lemma py_int_lower (q : Q) (z : Z) : (inject_Z z <= q)%Q -> 0 <= z -> z <= py_int q.
Proof.
  intros H Hz. unfold py_int, Qle in *. cbn in *.
  apply Z.quot_le_lower_bound; lia.
Qed.

Lemma py_int_negative (q : Q) : (q <= -1)%Q -> py_int q < 0.
Proof.
  intros H. unfold py_int, Qle in *. cbn in *.
  replace (Qnum q) with (- (- Qnum q)) by lia.
  rewrite Z.quot_opp_l by lia.
  pose proof (Z.quot_str_pos (- Qnum q) (Z.pos (Qden q))). lia.
Qed.

(** A zero factor raises [ZeroDivisionError], and a negative factor of
    absolute value at most the block length raises [ValueError] (the
    number of resampling points is negative), for every block. *)
Theorem pitch_shift_audio_bad_factor (audio_data : Block) (shift_factor : Q) :
  ((shift_factor == 0)%Q -> pitch_shift_audio audio_data shift_factor = Raise ZeroDivisionError)
  /\ ((shift_factor < 0)%Q -> (- shift_factor <= of_nat (length audio_data))%Q ->
      pitch_shift_audio audio_data shift_factor = Raise ValueError).
Proof.
  split.
  - intros H0. unfold pitch_shift_audio, py_truediv.
    destruct (Qeq_bool shift_factor 1.0) eqn:E1.
    { apply Qeq_bool_iff in E1. rewrite H0 in E1. discriminate E1. }
    apply Qeq_bool_iff in H0. rewrite H0. reflexivity.
  - intros Hneg Hlen. unfold pitch_shift_audio, py_truediv.
    destruct (Qeq_bool shift_factor 1.0) eqn:E1.
    { apply Qeq_bool_iff in E1. rewrite E1 in Hneg. discriminate Hneg. }
    destruct (Qeq_bool shift_factor 0) eqn:E0.
    { apply Qeq_bool_iff in E0. rewrite E0 in Hneg. discriminate Hneg. }
    cbn [mbind result_bind].
    assert (Hq : (of_nat (length audio_data) / shift_factor <= -1)%Q).
    { assert (Hpos : (0 < - shift_factor)%Q) by lra.
      assert (H1 : (1 <= of_nat (length audio_data) / - shift_factor)%Q).
      { apply Qle_shift_div_l; [exact Hpos|]. lra. }
      assert (H2 : (of_nat (length audio_data) / shift_factor
                    == - (of_nat (length audio_data) / - shift_factor))%Q).
      { field. intros Hz. rewrite Hz in Hneg. discriminate Hneg. }
      rewrite H2. lra. }
    unfold np_linspace.
    pose proof (py_int_negative _ Hq) as Hlt. apply Z.ltb_lt in Hlt. rewrite Hlt.
    reflexivity.
Qed.

Lemma pitch_shift_audio_resampled (audio_data : Block) (shift_factor : Q) :
  audio_data <> [] -> (0 < shift_factor)%Q -> ~ (shift_factor == 1)%Q ->
  exists indices shifted,
    np_linspace 0 (of_nat (length audio_data) - 1)
      (py_int (of_nat (length audio_data) / shift_factor)) true = Ok indices
    /\ np_interp indices (np_arange (length audio_data)) audio_data = Ok shifted
    /\ length shifted = Z.to_nat (py_int (of_nat (length audio_data) / shift_factor))
    /\ pitch_shift_audio audio_data shift_factor
       = if (length audio_data <? length shifted)%nat
         then Ok (take (length audio_data) shifted)
         else Ok (np_pad_right shifted (length audio_data - length shifted)).
Proof.
  intros Hne Hpos H1. unfold pitch_shift_audio, py_truediv.
  destruct (Qeq_bool shift_factor 1.0) eqn:E1.
  { apply Qeq_bool_iff in E1. exfalso. apply H1. rewrite E1. reflexivity. }
  destruct (Qeq_bool shift_factor 0) eqn:E0.
  { apply Qeq_bool_iff in E0. rewrite E0 in Hpos. discriminate Hpos. }
  cbn [mbind result_bind].
  assert (Hq : (0 <= of_nat (length audio_data) / shift_factor)%Q).
  { apply Qle_shift_div_l; [exact Hpos|]. rewrite Qmult_0_l. apply of_nat_nonneg. }
  destruct (np_linspace_length 0 (of_nat (length audio_data) - 1)
              (py_int (of_nat (length audio_data) / shift_factor)) true
              (py_int_nonneg _ Hq)) as (indices & Hi & Hli).
  rewrite Hi. cbn [mbind result_bind].
  destruct (np_interp_length indices (np_arange (length audio_data)) audio_data)
    as (shifted & Hs & Hls).
  { destruct audio_data; [congruence|discriminate]. }
  { apply np_arange_length. }
  rewrite Hs. cbn [mbind result_bind].
  exists indices, shifted. split_and!; try reflexivity; congruence.
Qed.

(** Raising the pitch leaves silence at the end of the block: for a factor
    above 1 the result has the length [n] of the input, and every sample at
    an index [i] with [i * factor > n] is zero (the resampled block has at
    most [n / factor] samples and the rest is padded). *)
Theorem pitch_shift_up_pads_zeros (audio_data : Block) (shift_factor : Q) :
  audio_data <> [] -> (1 < shift_factor)%Q ->
  exists out,
    pitch_shift_audio audio_data shift_factor = Ok out
    /\ length out = length audio_data
    /\ forall i, (i < length audio_data)%nat ->
         (of_nat (length audio_data) < of_nat i * shift_factor)%Q ->
         out !! i = Some 0%Q.
Proof.
  intros Hne Hf.
  destruct (pitch_shift_audio_resampled audio_data shift_factor Hne)
    as (indices & shifted & _ & _ & Hlen & Hout); [lra|intros H; rewrite H in Hf; discriminate Hf|].
  assert (Hn : (0 < of_nat (length audio_data))%Q).
  { destruct audio_data; [congruence|]. unfold of_nat, Qlt. cbn. lia. }
  assert (Hq0 : (0 <= of_nat (length audio_data) / shift_factor)%Q).
  { apply Qle_shift_div_l; [lra|]. rewrite Qmult_0_l. apply Qlt_le_weak, Hn. }
  assert (Hq : (of_nat (length audio_data) / shift_factor < of_nat (length audio_data))%Q).
  { apply Qlt_shift_div_r; [lra|]. nra. }
  pose proof (py_int_le _ Hq0) as Hle.
  pose proof (py_int_nonneg _ Hq0) as Hm0.
  assert (Hm : py_int (of_nat (length audio_data) / shift_factor)
               < Z.of_nat (length audio_data)).
  { assert (Hlt : (inject_Z (py_int (of_nat (length audio_data) / shift_factor))
                   < inject_Z (Z.of_nat (length audio_data)))%Q).
    { eapply Qle_lt_trans; [exact Hle|exact Hq]. }
    rewrite <- Zlt_Qlt in Hlt. exact Hlt. }
  assert (Hpad : pitch_shift_audio audio_data shift_factor
                 = Ok (shifted ++ replicate (length audio_data - length shifted) 0%Q)).
  { rewrite Hout.
    destruct (length audio_data <? length shifted)%nat eqn:E; [|reflexivity].
    apply Nat.ltb_lt in E. lia. }
  eexists. split_and!; [exact Hpad| |].
  - rewrite length_app, length_replicate. lia.
  - intros i Hi Hif.
    assert (Hqi : (of_nat (length audio_data) / shift_factor < of_nat i)%Q).
    { apply Qlt_shift_div_r; [lra|exact Hif]. }
    assert (Hk : py_int (of_nat (length audio_data) / shift_factor) < Z.of_nat i).
    { rewrite Zlt_Qlt. eapply Qle_lt_trans; [exact Hle|exact Hqi]. }
    rewrite lookup_app_r by lia.
    apply lookup_replicate. split; [reflexivity|lia].
Qed.

Lemma pitch_shift_up_pads_zeros_witness :
  exists out,
    pitch_shift_audio [0.1; 0.2; 0.3; 0.4]%Q 1.5 = Ok out
    /\ length out = 4%nat
    /\ out !! 3%nat = Some 0%Q.
Proof.
  destruct (pitch_shift_up_pads_zeros [0.1; 0.2; 0.3; 0.4]%Q 1.5) as (out & H1 & H2 & H3).
  - discriminate.
  - reflexivity.
  - exists out. split_and!; [exact H1|exact H2|].
    apply H3; [cbn; lia|reflexivity].
Defined.

(** ** Interpolation stays within the range of the samples *)

Definition in_range (lo hi x : Q) : Prop := (lo <= x)%Q /\ (x <= hi)%Q.

Lemma of_nat_S (s : nat) : (of_nat (S s) == of_nat s + 1)%Q.
Proof.
  unfold of_nat. rewrite Nat2Z.inj_succ. unfold Z.succ. rewrite inject_Z_plus. reflexivity.
Qed.

Lemma segment_in_range (lo hi fa fb t : Q) :
  in_range lo hi fa -> in_range lo hi fb -> (0 <= t)%Q -> (t <= 1)%Q ->
  in_range lo hi ((fb - fa) * t + fa).
Proof.
  intros [Ha1 Ha2] [Hb1 Hb2] Ht0 Ht1. unfold in_range.
  assert (H1 : (0 <= t * (fb - lo))%Q) by (apply Qmult_le_0_compat; lra).
  assert (H2 : (0 <= (1 - t) * (fa - lo))%Q) by (apply Qmult_le_0_compat; lra).
  assert (H3 : (0 <= t * (hi - fb))%Q) by (apply Qmult_le_0_compat; lra).
  assert (H4 : (0 <= (1 - t) * (hi - fa))%Q) by (apply Qmult_le_0_compat; lra).
  split; lra.
Qed.

(** [np.interp] over the abscissae [s, s + 1, ...]: whatever the point
    [x >= s], the value lies within the range of the ordinates. *)
Lemma interp_walk_in_range (lo hi x : Q) (l : Block) :
  Forall (in_range lo hi) l ->
  forall (s : nat) (fa : Q),
    (of_nat s <= x)%Q -> in_range lo hi fa ->
    in_range lo hi (interp_walk x (of_nat s) fa (zip (map of_nat (seq (S s) (length l))) l)).
Proof.
  induction 1 as [|fb l Hfb _ IH]; intros s fa Hx Hfa; cbn [length seq map zip zip_with interp_walk].
  - exact Hfa.
  - destruct (Qltb x (of_nat (S s))) eqn:E.
    + apply Qltb_lt in E. rewrite of_nat_S in E.
      assert (Hval : ((fb - fa) / (of_nat (S s) - of_nat s) * (x - of_nat s) + fa
                      == (fb - fa) * (x - of_nat s) + fa)%Q).
      { assert (Hden : (of_nat (S s) - of_nat s == 1)%Q) by (rewrite of_nat_S; ring).
        rewrite Hden. field. }
      destruct (segment_in_range lo hi fa fb (x - of_nat s)%Q Hfa Hfb) as [H1 H2]; [lra|lra|].
      unfold in_range. rewrite Hval. split; assumption.
    + apply Qltb_ge in E. apply IH; assumption.
Qed.

Lemma interp_one_in_range (lo hi x : Q) (audio_data : Block) :
  audio_data <> [] -> Forall (in_range lo hi) audio_data ->
  in_range lo hi (interp_one x (zip (np_arange (length audio_data)) audio_data)).
Proof.
  intros Hne Hall. destruct audio_data as [|a0 l]; [congruence|].
  apply Forall_cons in Hall as [H0 Hl].
  unfold np_arange. cbn [length seq map zip zip_with interp_one].
  destruct (Qltb x (of_nat 0)) eqn:E; [exact H0|].
  apply Qltb_ge in E. apply interp_walk_in_range; assumption.
Qed.

(** Lowering the pitch pads nothing: for a factor between 0 and 1 the
    result has the input's length and each of its samples is interpolated
    between two samples of the input, so it lies within every range
    [lo .. hi] that holds all the input samples. *)
Theorem pitch_shift_down_keeps_range (audio_data : Block) (shift_factor lo hi : Q) :
  audio_data <> [] -> (0 < shift_factor)%Q -> (shift_factor < 1)%Q ->
  Forall (fun x => (lo <= x)%Q /\ (x <= hi)%Q) audio_data ->
  exists out,
    pitch_shift_audio audio_data shift_factor = Ok out
    /\ length out = length audio_data
    /\ Forall (fun y => (lo <= y)%Q /\ (y <= hi)%Q) out.
Proof.
  intros Hne Hpos Hf Hall.
  destruct (pitch_shift_audio_resampled audio_data shift_factor Hne Hpos)
    as (indices & shifted & Hi & Hs & Hlen & Hout);
    [intros H; rewrite H in Hf; discriminate Hf|].
  assert (Hn : (0 <= of_nat (length audio_data))%Q) by apply of_nat_nonneg.
  assert (Hq : (of_nat (length audio_data) <= of_nat (length audio_data) / shift_factor)%Q).
  { apply Qle_shift_div_l; [exact Hpos|]. nra. }
  assert (Hm : Z.of_nat (length audio_data)
               <= py_int (of_nat (length audio_data) / shift_factor)).
  { apply py_int_lower; [exact Hq|lia]. }
  assert (Htake : pitch_shift_audio audio_data shift_factor = Ok (take (length audio_data) shifted)).
  { rewrite Hout.
    destruct (length audio_data <? length shifted)%nat eqn:E; [reflexivity|].
    apply Nat.ltb_ge in E.
    unfold np_pad_right. replace (length audio_data - length shifted)%nat with 0%nat by lia.
    cbn. rewrite app_nil_r. rewrite firstn_all2 by lia. reflexivity. }
  exists (take (length audio_data) shifted). split_and!; [exact Htake| |].
  - rewrite length_take. lia.
  - apply Forall_take.
    unfold np_interp in Hs.
    destruct (length (np_arange (length audio_data)) =? 0)%nat; [discriminate|].
    destruct (negb _); [discriminate|].
    inversion Hs; subst. rewrite Forall_map. apply Forall_forall. intros x _.
    apply (interp_one_in_range lo hi x audio_data Hne Hall).
Qed.

Lemma pitch_shift_down_keeps_range_witness :
  exists out,
    pitch_shift_audio [0.1; 0.2; 0.3; 0.4]%Q 0.8 = Ok out
    /\ length out = 4%nat
    /\ Forall (fun y => (0.1 <= y)%Q /\ (y <= 0.4)%Q) out.
Proof.
  apply (pitch_shift_down_keeps_range [0.1; 0.2; 0.3; 0.4]%Q 0.8 0.1 0.4).
  - discriminate.
  - reflexivity.
  - reflexivity.
  - repeat constructor; discriminate.
Defined.

(** ** Formant shifting: errors and the role of the sample rate *)

Lemma Qltb_scale (k v : Q) : (0 < v)%Q -> Qltb 0 (k * v) = Qltb 0 k.
Proof.
  intros Hv. destruct (Qltb 0 k) eqn:E.
  - apply Qltb_lt in E. apply Qltb_lt. nra.
  - apply Qltb_ge in E. apply Qltb_ge. nra.
Qed.

Lemma np_fftfreq_positive (n : nat) (d : Q) :
  n <> 0%nat -> (0 < d)%Q ->
  exists val, (0 < val)%Q
    /\ np_fftfreq n d
       = Ok (map (fun k => k * val)%Q
               (map of_nat (seq 0 ((n - 1) / 2 + 1))
                ++ map (fun i => inject_Z (Z.of_nat i - Z.of_nat (n / 2))) (seq 0 (n / 2)))).
Proof.
  intros Hn Hd. unfold np_fftfreq, py_truediv.
  assert (Hnd : (0 < of_nat n * d)%Q).
  { assert (Hn' : (0 < of_nat n)%Q) by (unfold of_nat, Qlt; cbn; lia). nra. }
  destruct (Qeq_bool (of_nat n * d) 0) eqn:E.
  { apply Qeq_bool_iff in E. rewrite E in Hnd. discriminate Hnd. }
  cbn [mbind result_bind]. exists (1 / (of_nat n * d))%Q. split; [|reflexivity].
  apply Qlt_shift_div_l; [exact Hnd|]. lra.
Qed.

Section FormantProperties.
Context {lib : SignalLib}.

Lemma remap_fold_signs (shift_factor : Q) (f1 f2 : Block) :
  Forall2 (fun a b => Qltb 0 a = Qltb 0 b) f1 f2 ->
  forall (start : nat) (fft : list C) (acc : result (list C)),
    foldl (fun acc e =>
             shifted_fft ← acc;
             let '(i, (freq, fft_i)) := e in
             if Qltb 0 freq then
               let new_freq_idx := py_int (of_nat i * shift_factor)%Q in
               if new_freq_idx <? Z.of_nat (length shifted_fft)
               then py_setitem shifted_fft new_freq_idx fft_i
               else Ok shifted_fft
             else Ok shifted_fft)
          acc (zip (seq start (length f1)) (zip f1 fft))
    = foldl (fun acc e =>
             shifted_fft ← acc;
             let '(i, (freq, fft_i)) := e in
             if Qltb 0 freq then
               let new_freq_idx := py_int (of_nat i * shift_factor)%Q in
               if new_freq_idx <? Z.of_nat (length shifted_fft)
               then py_setitem shifted_fft new_freq_idx fft_i
               else Ok shifted_fft
             else Ok shifted_fft)
          acc (zip (seq start (length f2)) (zip f2 fft)).
Proof.
  induction 1 as [|a b f1 f2 Hab _ IH]; intros start fft acc; [reflexivity|].
  destruct fft as [|c fft]; [reflexivity|].
  cbn [length seq zip zip_with foldl]. rewrite Hab. apply IH.
Qed.

Lemma remap_bins_signs (shift_factor : Q) (fft : list C) (f1 f2 : Block) :
  Forall2 (fun a b => Qltb 0 a = Qltb 0 b) f1 f2 ->
  remap_bins shift_factor fft f1 = remap_bins shift_factor fft f2.
Proof. intros H. unfold remap_bins. apply remap_fold_signs, H. Qed.

(** Formant shifting looks at the sample rate only to tell positive from
    negative frequencies: any two processors with positive sample rates
    give the same result on the same block and factor. *)
Theorem apply_formant_shift_any_rate (s1 s2 : AudioProcessor) (audio_data : Block)
    (shift_factor : Q) :
  0 < sample_rate s1 -> 0 < sample_rate s2 ->
  apply_formant_shift s1 audio_data shift_factor
  = apply_formant_shift s2 audio_data shift_factor.
Proof.
  intros H1 H2. unfold apply_formant_shift.
  destruct (Qeq_bool shift_factor 1.0); [reflexivity|].
  destruct (np_fft (map of_real audio_data)) as [fft|e] eqn:Efft; [|reflexivity].
  cbn [mbind result_bind].
  assert (Hne : length audio_data <> 0%nat).
  { unfold np_fft in Efft. rewrite length_map in Efft.
    destruct (length audio_data); [discriminate|lia]. }
  assert (Hd : forall sr, 0 < sr ->
             exists d, py_truediv 1 (inject_Z sr) = Ok d /\ (0 < d)%Q).
  { intros sr Hsr. unfold py_truediv.
    assert (Hq : (0 < inject_Z sr)%Q) by (unfold Qlt; cbn; lia).
    destruct (Qeq_bool (inject_Z sr) 0) eqn:E.
    { apply Qeq_bool_iff in E. rewrite E in Hq. discriminate Hq. }
    eexists. split; [reflexivity|]. apply Qlt_shift_div_l; [exact Hq|]. lra. }
  destruct (Hd _ H1) as (d1 & -> & Hd1). destruct (Hd _ H2) as (d2 & -> & Hd2).
  cbn [mbind result_bind].
  destruct (np_fftfreq_positive (length audio_data) d1 Hne Hd1) as (v1 & Hv1 & ->).
  destruct (np_fftfreq_positive (length audio_data) d2 Hne Hd2) as (v2 & Hv2 & ->).
  cbn [mbind result_bind].
  set (ks := map of_nat (seq 0 _) ++ _).
  rewrite (remap_bins_signs shift_factor fft
             (map (fun k => k * v1)%Q ks) (map (fun k => k * v2)%Q ks)); [reflexivity|].
  apply Forall2_fmap, Forall_Forall2_diag, Forall_forall. intros k _. cbn.
  rewrite !Qltb_scale by assumption. reflexivity.
Qed.

(** With a factor other than 1.0, formant shifting raises [ValueError] on
    the empty block and [ZeroDivisionError] on a non-empty block when the
    sample rate is 0. *)
Theorem apply_formant_shift_errors (self : AudioProcessor) (audio_data : Block)
    (shift_factor : Q) :
  ~ (shift_factor == 1)%Q ->
  apply_formant_shift self [] shift_factor = Raise ValueError
  /\ (audio_data <> [] -> sample_rate self = 0 ->
      apply_formant_shift self audio_data shift_factor = Raise ZeroDivisionError).
Proof.
  intros Hg.
  assert (E : Qeq_bool shift_factor 1.0 = false).
  { destruct (Qeq_bool shift_factor 1.0) eqn:E; [|reflexivity].
    apply Qeq_bool_iff in E. exfalso. apply Hg. rewrite E. reflexivity. }
  unfold apply_formant_shift. rewrite E. split; [reflexivity|].
  intros Hne Hsr. rewrite Hsr.
  destruct (np_fft_ok (map of_real audio_data)) as (fft & -> & _).
  { destruct audio_data; [congruence|discriminate]. }
  reflexivity.
Qed.

End FormantProperties.

Lemma apply_formant_shift_any_rate_witness :
  apply_formant_shift (lib := rational_lib) (AudioProcessor_init 44100 1024) [0.4; -0.2]%Q 0.9
  = apply_formant_shift (lib := rational_lib) (AudioProcessor_init 8000 256) [0.4; -0.2]%Q 0.9.
Proof.
  apply (apply_formant_shift_any_rate (lib := rational_lib)); reflexivity.
Defined.

Lemma apply_formant_shift_errors_witness :
  apply_formant_shift (lib := rational_lib) AudioProcessor_default [] 0.9 = Raise ValueError.
Proof.
  apply (apply_formant_shift_errors (lib := rational_lib) AudioProcessor_default [] 0.9).
  discriminate.
Defined.

(** ** What stays true of a processor *)

(** A processor reached from [__init__] has positive factors, unbounded
    queues, and, whenever its profile name is one its table knows, exactly
    the factors the table gives that name (so the robot effect only ever
    runs with both factors 1.0). *)
Theorem reachable_profile_consistent (self : AudioProcessor) :
  reachable self ->
  (forall p f, profiles !! voice_profile self = Some (p, f) ->
               pitch_shift self = p /\ formant_shift self = f)
  /\ (0 < pitch_shift self)%Q /\ (0 < formant_shift self)%Q
  /\ maxsize (input_queue self) = 0 /\ maxsize (output_queue self) = 0.
Proof.
  induction 1 as [sr bs|self name _ IH|self indata status self' printed _ IH Hcb].
  - cbn. split_and!; try reflexivity.
    intros p f H. vm_compute in H. injection H as <- <-. split; reflexivity.
  - destruct IH as (IH1 & IH2 & IH3 & IH4 & IH5).
    unfold set_voice_profile. destruct (profiles !! name) as [[p f]|] eqn:E; cbn.
    + split_and!; try assumption.
      * intros p' f' H. rewrite E in H. injection H as <- <-. split; reflexivity.
      * pose proof (profiles_lookup_Some name p f E) as Hin. unfold table_factors in Hin.
        repeat (apply elem_of_cons in Hin; destruct Hin as [Hin|Hin];
                [injection Hin as -> ->; reflexivity|]).
        inversion Hin.
      * pose proof (profiles_lookup_Some name p f E) as Hin. unfold table_factors in Hin.
        repeat (apply elem_of_cons in Hin; destruct Hin as [Hin|Hin];
                [injection Hin as -> ->; reflexivity|]).
        inversion Hin.
    + split_and!; try assumption. intros p f H. rewrite E in H. discriminate.
  - unfold audio_input_callback in Hcb.
    destruct (to_mono indata) as [block|e]; cbn in Hcb; [|discriminate].
    unfold put_nowait in Hcb.
    destruct (queue_full (input_queue self)); cbn in Hcb; inversion Hcb; subst; cbn; exact IH.
Qed.

Lemma reachable_profile_consistent_witness :
  (0 < pitch_shift (set_voice_profile (set_voice_profile AudioProcessor_default "child") "zzz"))%Q.
Proof.
  apply (reachable_profile_consistent
           (set_voice_profile (set_voice_profile AudioProcessor_default "child") "zzz")).
  apply reach_profile, reach_profile, reach_init.
Defined.

(** ** Watermark: what embedding keeps, and where detection is blind *)

Lemma py_int_of_Z (q : Q) (z : Z) : (q == inject_Z z)%Q -> py_int q = z.
Proof.
  intros H. unfold py_int, Qeq in *. cbn in *.
  replace (Qnum q) with (z * Z.pos (Qden q)) by lia.
  apply Z.quot_mul. lia.
Qed.

Lemma rescaled_sample_bound (x m c : Q) :
  (0 < m)%Q -> (0 <= c)%Q -> (Qabs x <= m)%Q -> (Qabs (x / m * c) <= c)%Q.
Proof.
  intros Hm Hc Hx.
  rewrite Qabs_Qmult. unfold Qdiv. rewrite Qabs_Qmult.
  assert (Hinv : (0 < / m)%Q) by (apply Qinv_lt_0_compat, Hm).
  rewrite (Qabs_pos (/ m)) by (apply Qlt_le_weak, Hinv).
  rewrite (Qabs_pos c) by exact Hc.
  assert (H1 : (Qabs x * / m <= 1)%Q).
  { apply Qle_shift_div_r; [exact Hm|]. rewrite Qmult_1_l. exact Hx. }
  assert (H0 : (0 <= Qabs x * / m)%Q).
  { apply Qmult_le_0_compat; [apply Qabs_nonneg|apply Qlt_le_weak, Hinv]. }
  nra.
Qed.

Lemma np_tile_length (w : Block) (repeats : Z) :
  length (np_tile w repeats) = (Z.to_nat repeats * length w)%nat.
Proof.
  unfold np_tile. induction (Z.to_nat repeats) as [|k IH]; [reflexivity|].
  cbn. rewrite length_app, IH. reflexivity.
Qed.

(** The three ways [embed_watermark] fits the watermark to the block
    (cut, tile and cut, or take as it is): whatever the number of samples
    generated, a watermark that comes out of it has the block's length. *)
Lemma fit_watermark_length (n : nat) (watermark fitted : Block) :
  (if (n <? length watermark)%nat then Ok (take n watermark)
   else if (length watermark <? n)%nat then
     r ← py_truediv (of_nat n) (of_nat (length watermark));
     Ok (take n (np_tile watermark (Qceiling r)))
   else Ok watermark) = Ok fitted ->
  length fitted = n.
Proof.
  destruct (n <? length watermark)%nat eqn:E1.
  { apply Nat.ltb_lt in E1. intros H. inversion H; subst. rewrite length_take. lia. }
  apply Nat.ltb_ge in E1.
  destruct (length watermark <? n)%nat eqn:E2.
  - apply Nat.ltb_lt in E2. unfold py_truediv.
    destruct (Qeq_bool (of_nat (length watermark)) 0) eqn:E0; [discriminate|].
    cbn [mbind result_bind]. intros H. inversion H; subst. clear H.
    assert (Hw : (0 < length watermark)%nat).
    { destruct (length watermark) eqn:El; [|lia]. discriminate E0. }
    assert (HW : (0 < of_nat (length watermark))%Q).
    { unfold of_nat, Qlt. cbn. lia. }
    set (r := (of_nat n / of_nat (length watermark))%Q).
    assert (Hr : (0 <= r)%Q).
    { subst r. apply Qle_shift_div_l; [exact HW|]. rewrite Qmult_0_l. apply of_nat_nonneg. }
    pose proof (Qle_ceiling r) as Hc.
    assert (Hc0 : 0 <= Qceiling r).
    { rewrite Zle_Qle. eapply Qle_trans; [exact Hr|exact Hc]. }
    assert (Hn : (of_nat n <= inject_Z (Qceiling r) * of_nat (length watermark))%Q).
    { assert (H : (of_nat n == r * of_nat (length watermark))%Q).
      { subst r. field. intros Hz. rewrite Hz in HW. discriminate HW. }
      rewrite H. apply Qmult_le_compat_r; [exact Hc|apply Qlt_le_weak, HW]. }
    unfold of_nat in Hn. rewrite <- inject_Z_mult, <- Zle_Qle in Hn.
    rewrite length_take, np_tile_length. nia.
  - apply Nat.ltb_ge in E2. intros H. inversion H; subst. lia.
Qed.

Section WatermarkMore.
Context {lib : SignalLib}.

Lemma generate_watermark_signal_length (self : AudioWatermark) (duration : Q)
    (metadata : option (gmap string PyVal)) (n : nat) :
  (duration * inject_Z (wm_sample_rate self) == of_nat n)%Q ->
  exists w, generate_watermark_signal self duration metadata = Ok w /\ length w = n.
Proof.
  intros H. unfold generate_watermark_signal.
  rewrite (py_int_of_Z _ (Z.of_nat n) H).
  destruct (np_linspace_length 0 duration (Z.of_nat n) false) as (t & -> & Ht); [lia|].
  cbn [mbind result_bind]. eexists. split; [reflexivity|].
  rewrite length_map, Ht. apply Nat2Z.id.
Qed.

(** What [embed_watermark] returns, when it returns: a block of the
    input's length with every sample in [-1, 1]. *)
Lemma embed_watermark_returned (self : AudioWatermark) (audio_data : Block)
    (metadata : option (gmap string PyVal)) (now : Z) (out : Block) :
  embed_watermark self audio_data metadata now = Ok out ->
  length out = length audio_data /\ Forall (fun s => (Qabs s <= 1)%Q) out.
Proof.
  unfold embed_watermark.
  destruct (length audio_data =? 0)%nat eqn:Hn0.
  { intros H. inversion H; subst. split; [reflexivity|].
    apply Nat.eqb_eq in Hn0. destruct out; [constructor|discriminate]. }
  apply Nat.eqb_neq in Hn0.
  destruct (py_truediv _ _) as [duration|e]; cbn [mbind result_bind]; [|discriminate].
  destruct (generate_watermark_signal _ _ _) as [w|e]; cbn [mbind result_bind]; [|discriminate].
  match goal with |- context [mbind _ ?fit] =>
    destruct fit as [fitted|e] eqn:Hfit; cbn [mbind result_bind]; [|discriminate]
  end.
  apply fit_watermark_length in Hfit.
  set (wa := np_add audio_data fitted).
  assert (Hlwa : length wa = length audio_data).
  { subst wa. unfold np_add. rewrite length_zip_with, Hfit. lia. }
  destruct (np_max_spec (np_abs wa)) as (m & Hmax & Hle & Hin).
  { unfold np_abs. destruct wa; [cbn in Hlwa; lia|discriminate]. }
  rewrite Hmax. cbn [mbind result_bind].
  assert (Habs : Forall (fun x => (Qabs x <= m)%Q) wa).
  { unfold np_abs in Hle. rewrite Forall_map in Hle. exact Hle. }
  destruct (Qltb 1.0 m) eqn:Em; intros H; inversion H; subst; clear H.
  - apply Qltb_lt in Em. split.
    + rewrite length_map. exact Hlwa.
    + rewrite Forall_map. eapply Forall_impl; [exact Habs|].
      intros x Hx. apply (Qle_trans _ 0.95); [|discriminate].
      apply rescaled_sample_bound; [lra|discriminate|exact Hx].
  - apply Qltb_ge in Em. split; [exact Hlwa|].
    eapply Forall_impl; [exact Habs|]. intros x Hx. cbn in Hx. lra.
Qed.

(** From two samples on, at a non-zero sample rate, a block is returned. *)
Lemma embed_watermark_returns (self : AudioWatermark) (audio_data : Block)
    (metadata : option (gmap string PyVal)) (now : Z) :
  (2 <= length audio_data)%nat -> wm_sample_rate self <> 0 ->
  exists out, embed_watermark self audio_data metadata now = Ok out.
Proof.
  intros Hlen Hsr.
  assert (Hn0 : (length audio_data =? 0)%nat = false) by (apply Nat.eqb_neq; lia).
  unfold embed_watermark. rewrite Hn0. unfold py_truediv.
  destruct (Qeq_bool (inject_Z (wm_sample_rate self)) 0) eqn:E.
  { apply Qeq_bool_iff in E. unfold Qeq in E. cbn in E. lia. }
  cbn [mbind result_bind].
  destruct (generate_watermark_signal_length self
              (of_nat (length audio_data) / inject_Z (wm_sample_rate self))
              (Some match metadata with
                    | Some m => m
                    | None => default_metadata now
                    end) (length audio_data)) as (w & Hw & Hlw).
  { field. intros Hz. unfold Qeq in Hz. cbn in Hz. lia. }
  rewrite Hw. cbn [mbind result_bind].
  rewrite Hlw, Nat.ltb_irrefl. cbn [mbind result_bind].
  destruct (np_max_spec (np_abs (np_add audio_data w))) as (m & Hmax & _).
  { unfold np_abs, np_add. destruct audio_data; [cbn in Hlen; lia|].
    destruct w; [discriminate|discriminate]. }
  rewrite Hmax. cbn [mbind result_bind].
  destruct (Qltb 1.0 m); eexists; reflexivity.
Qed.

(** Embedding keeps the block length and never clips.  Whenever
    [embed_watermark] returns a block, the block has the input's length and
    all its samples lie in [-1, 1], whatever the amplitude of the input,
    the metadata and the number of watermark samples generated.  On a block
    of at least two samples at a non-zero sample rate it does return one;
    on a non-empty block with sample rate 0 it raises
    [ZeroDivisionError]. *)
Theorem embed_watermark_length_and_peak (self : AudioWatermark) (audio_data : Block)
    (metadata : option (gmap string PyVal)) (now : Z) :
  (forall out, embed_watermark self audio_data metadata now = Ok out ->
     length out = length audio_data /\ Forall (fun s => (Qabs s <= 1)%Q) out)
  /\ ((2 <= length audio_data)%nat -> wm_sample_rate self <> 0 ->
      exists out, embed_watermark self audio_data metadata now = Ok out)
  /\ (audio_data <> [] -> wm_sample_rate self = 0 ->
      embed_watermark self audio_data metadata now = Raise ZeroDivisionError).
Proof.
  split_and!.
  - intros out. apply embed_watermark_returned.
  - apply embed_watermark_returns.
  - intros Hne Hsr.
    assert (Hn0 : (length audio_data =? 0)%nat = false).
    { destruct audio_data; [congruence|reflexivity]. }
    unfold embed_watermark. rewrite Hn0, Hsr. reflexivity.
Qed.

Lemma mask_all_false (lo hi : Q) (freqs : Block) :
  Forall (fun f => (f < lo)%Q) freqs ->
  existsb id (map (fun f => Qle_bool lo f && Qle_bool f hi) freqs) = false.
Proof.
  induction 1 as [|f freqs Hf _ IH]; [reflexivity|].
  cbn. rewrite IH.
  destruct (Qle_bool lo f) eqn:E; [|reflexivity].
  apply Qle_bool_iff in E. exfalso. apply (Qlt_not_le _ _ Hf E).
Qed.

Lemma np_fftfreq_below_nyquist (n : nat) (sr : Z) (bound : Q) :
  n <> 0%nat -> 0 < sr -> (inject_Z sr <= 2 * bound)%Q ->
  exists freqs,
    np_fftfreq n (1 / inject_Z sr) = Ok freqs /\ Forall (fun f => (f < bound)%Q) freqs.
Proof.
  intros Hn Hsr Hb. unfold np_fftfreq, py_truediv.
  assert (HS : (0 < inject_Z sr)%Q) by (unfold Qlt; cbn; lia).
  assert (HN : (0 < of_nat n)%Q) by (unfold of_nat, Qlt; cbn; lia).
  assert (Hval : (1 / (of_nat n * (1 / inject_Z sr)) == inject_Z sr / of_nat n)%Q).
  { field. split; intros Hz; [rewrite Hz in HN; discriminate HN|rewrite Hz in HS; discriminate HS]. }
  destruct (Qeq_bool (of_nat n * (1 / inject_Z sr)) 0) eqn:E.
  { apply Qeq_bool_iff in E. exfalso.
    assert (H : (0 < of_nat n * (1 / inject_Z sr))%Q).
    { apply Qmult_lt_0_compat; [exact HN|]. apply Qlt_shift_div_l; [exact HS|]. lra. }
    rewrite E in H. discriminate H. }
  cbn [mbind result_bind]. eexists. split; [reflexivity|].
  rewrite Forall_map, Forall_app. split.
  - rewrite Forall_map. apply Forall_forall. intros j Hj. cbn.
    apply elem_of_seq in Hj. rewrite Hval.
    assert (Hj2 : (2 * j + 1 <= n)%nat).
    { pose proof (Nat.div_mod_eq (n - 1) 2).
      pose proof (Nat.mod_upper_bound (n - 1) 2). lia. }
    assert (Hq : (2 * of_nat j + 1 <= of_nat n)%Q).
    { unfold of_nat. rewrite <- (inject_Z_mult 2), <- (inject_Z_plus _ 1), <- Zle_Qle. lia. }
    unfold Qdiv. rewrite Qmult_assoc. apply Qlt_shift_div_r; [exact HN|].
    assert (Hp : (0 <= inject_Z sr * (of_nat n - 2 * of_nat j - 1))%Q).
    { apply Qmult_le_0_compat; lra. }
    assert (Hp2 : (0 <= (2 * bound - inject_Z sr) * of_nat n)%Q).
    { apply Qmult_le_0_compat; lra. }
    nra.
  - rewrite Forall_map. apply Forall_forall. intros j Hj. cbn beta.
    apply elem_of_seq in Hj. rewrite Hval.
    assert (Hneg : (inject_Z (Z.of_nat j - Z.of_nat (n / 2)) < 0)%Q).
    { change 0%Q with (inject_Z 0). rewrite <- Zlt_Qlt. lia. }
    assert (Hv : (0 < inject_Z sr / of_nat n)%Q).
    { apply Qlt_shift_div_l; [exact HN|]. lra. }
    revert Hneg Hv. generalize (inject_Z (Z.of_nat j - Z.of_nat (n / 2))).
    generalize (inject_Z sr / of_nat n)%Q. intros v k Hneg Hv.
    assert (Hkv : (k * v <= 0)%Q).
    { assert (H : (0 <= (- k) * v)%Q) by (apply Qmult_le_0_compat; lra).
      assert (H' : ((- k) * v == - (k * v))%Q) by ring.
      rewrite H' in H. lra. }
    lra.
Qed.

(** Detection is blind at low sample rates: when the sample rate is
    positive and at most twice the lower edge of the search band
    ([2 * (watermark_freq - 50)], 37900 Hz by default), no frequency bin
    falls into the band and every block, watermarked or not, is reported
    as not watermarked. *)
Theorem detect_watermark_low_rate (self : AudioWatermark) (audio_data : Block) :
  0 < wm_sample_rate self ->
  (inject_Z (wm_sample_rate self) <= 2 * (watermark_freq self - 50))%Q ->
  detect_watermark self audio_data = Ok (false, None).
Proof.
  intros Hsr Hb. unfold detect_watermark.
  destruct (Qltb _ _) eqn:E; [reflexivity|].
  apply Qltb_ge in E.
  assert (Hne : length audio_data <> 0%nat).
  { intros H0. rewrite H0 in E. change (of_nat 0) with 0%Q in E.
    assert (HS : (0 < inject_Z (wm_sample_rate self))%Q) by (unfold Qlt; cbn; lia).
    lra. }
  destruct (np_fft_ok (map of_real audio_data)) as (fft & -> & _).
  { destruct audio_data; [contradiction|discriminate]. }
  cbn [mbind result_bind].
  unfold py_truediv at 1.
  destruct (Qeq_bool (inject_Z (wm_sample_rate self)) 0) eqn:E0.
  { apply Qeq_bool_iff in E0. unfold Qeq in E0. cbn in E0. lia. }
  cbn [mbind result_bind].
  destruct (np_fftfreq_below_nyquist (length audio_data) (wm_sample_rate self)
              (watermark_freq self - 50)%Q Hne Hsr Hb) as (freqs & -> & Hf).
  cbn [mbind result_bind].
  rewrite (mask_all_false _ _ freqs Hf). reflexivity.
Qed.

End WatermarkMore.

Lemma embed_watermark_length_and_peak_witness :
  exists out,
    embed_watermark (lib := rational_lib) (AudioWatermark_init 4) [3; -0.5]%Q None 0 = Ok out
    /\ length out = 2%nat
    /\ Forall (fun s => (Qabs s <= 1)%Q) out.
Proof.
  destruct (embed_watermark_length_and_peak (lib := rational_lib) (AudioWatermark_init 4)
              [3; -0.5]%Q None 0) as (Hret & Hok & _).
  destruct Hok as [out Hout]; [cbn; lia|discriminate|].
  exists out. split; [exact Hout|]. exact (Hret out Hout).
Defined.

Lemma detect_watermark_low_rate_witness :
  detect_watermark (lib := rational_lib) (AudioWatermark_init 16) [0.5; 0.25; -0.5]%Q
  = Ok (false, None).
Proof.
  apply (detect_watermark_low_rate (lib := rational_lib) (AudioWatermark_init 16)).
  - reflexivity.
  - discriminate.
Defined.

(** ** The ethics wrapper *)

Section EthicsProperties.
Context {lib : SignalLib}.

(** [process_with_ethics] records the profile name but never applies it,
    and it logs before it can fail.  With sample rate 0 it raises
    [ZeroDivisionError] and leaves the object as it was.  Otherwise the
    object changes only by one new log entry, holding the name passed, the
    duration and the watermark flag, also when the call then raises (as it
    does on the empty block under every profile but robot); and with
    watermarking off the audio returned is [transform_audio] of the
    processor as it is, whatever name was passed. *)
Theorem process_with_ethics_log (self : EthicalVoiceProcessor) (audio_data : Block)
    (profile : string) (time1 time2 : Q) :
  (sample_rate (audio_processor self) = 0 ->
   process_with_ethics self audio_data profile time1 time2 = (self, Raise ZeroDivisionError))
  /\ (sample_rate (audio_processor self) <> 0 ->
      exists r,
        process_with_ethics self audio_data profile time1 time2
        = (with_log self
             (transformation_log self ++
              [ {| log_timestamp := time1;
                   log_profile := profile;
                   log_duration := (of_nat (length audio_data)
                                    / inject_Z (sample_rate (audio_processor self)))%Q;
                   log_watermarked := enable_watermarking self |} ]), r)
        /\ (enable_watermarking self = false ->
            r = transform_audio (audio_processor self) audio_data)
        /\ (audio_data = [] -> voice_profile (audio_processor self) <> "robot" ->
            exists e, r = Raise e)).
Proof.
  unfold process_with_ethics, py_truediv. split.
  - intros ->. reflexivity.
  - intros Hsr.
    destruct (Qeq_bool (inject_Z (sample_rate (audio_processor self))) 0) eqn:E.
    { apply Qeq_bool_iff in E. unfold Qeq in E. cbn in E. lia. }
    eexists. split; [reflexivity|]. split.
    + intros ->. destruct (transform_audio _ _); reflexivity.
    + intros -> Hr. destruct (transform_audio_empty_raises (audio_processor self) Hr) as [e ->].
      exists e. reflexivity.
Qed.

Context {laws : SignalLibLaws lib}.

Lemma transform_audio_length_and_peak (self : AudioProcessor) (audio_data : Block) :
  audio_data <> [] ->
  (0 < pitch_shift self)%Q -> (0 <= formant_shift self)%Q ->
  sample_rate self <> 0 ->
  (voice_profile self = "robot" -> (27 < length audio_data)%nat /\ 6000 < sample_rate self) ->
  exists out, transform_audio self audio_data = Ok out
              /\ length out = length audio_data
              /\ Forall (fun s => (Qabs s <= 0.8)%Q) out.
Proof.
  intros Hne Hp Hf Hsr Hrobot.
  assert (Hnonempty : forall l : Block, length l = length audio_data -> l <> []).
  { intros l Hl ->. destruct audio_data; [congruence|discriminate]. }
  unfold transform_audio, transform_stages.
  destruct (negb (Qeq_bool (pitch_shift self) 1.0)).
  - destruct (pitch_shift_audio_length audio_data (pitch_shift self) Hne Hp) as (t1 & -> & Hl1).
    cbn [mbind result_bind].
    assert (H2 : exists t2,
               (if negb (Qeq_bool (formant_shift self) 1.0)
                then apply_formant_shift self t1 (formant_shift self)
                else Ok t1) = Ok t2 /\ length t2 = length audio_data).
    { destruct (negb _); [|eexists; split; [reflexivity|exact Hl1]].
      destruct (apply_formant_shift_length self t1 (formant_shift self))
        as (t2 & Ht2 & Hl2); auto.
      exists t2. split; [exact Ht2|congruence]. }
    destruct H2 as (t2 & -> & Hl2). cbn [mbind result_bind].
    assert (H3 : exists t3,
               (if String.eqb (voice_profile self) "robot"
                then apply_robot_effect self t2
                else Ok t2) = Ok t3 /\ length t3 = length audio_data).
    { destruct (String.eqb (voice_profile self) "robot") eqn:E;
        [|eexists; split; [reflexivity|exact Hl2]].
      apply String.eqb_eq in E. destruct (Hrobot E) as [Hlen Hfs].
      destruct (apply_robot_effect_length self t2) as (t3 & Ht3 & Hl3); [lia|exact Hfs|].
      exists t3. split; [exact Ht3|congruence]. }
    destruct H3 as (t3 & -> & Hl3). cbn [mbind result_bind].
    destruct (normalize_spec t3 (Hnonempty t3 Hl3)) as (m & out & _ & Hn & Hlo & Hb & _).
    exists out. split_and!; [exact Hn|congruence|exact Hb].
  - cbn [mbind result_bind].
    assert (H2 : exists t2,
               (if negb (Qeq_bool (formant_shift self) 1.0)
                then apply_formant_shift self audio_data (formant_shift self)
                else Ok audio_data) = Ok t2 /\ length t2 = length audio_data).
    { destruct (negb _); [|eexists; split; reflexivity].
      apply apply_formant_shift_length; assumption. }
    destruct H2 as (t2 & -> & Hl2). cbn [mbind result_bind].
    assert (H3 : exists t3,
               (if String.eqb (voice_profile self) "robot"
                then apply_robot_effect self t2
                else Ok t2) = Ok t3 /\ length t3 = length audio_data).
    { destruct (String.eqb (voice_profile self) "robot") eqn:E;
        [|eexists; split; [reflexivity|exact Hl2]].
      apply String.eqb_eq in E. destruct (Hrobot E) as [Hlen Hfs].
      destruct (apply_robot_effect_length self t2) as (t3 & Ht3 & Hl3); [lia|exact Hfs|].
      exists t3. split; [exact Ht3|congruence]. }
    destruct H3 as (t3 & -> & Hl3). cbn [mbind result_bind].
    destruct (normalize_spec t3 (Hnonempty t3 Hl3)) as (m & out & _ & Hn & Hlo & Hb & _).
    exists out. split_and!; [exact Hn|congruence|exact Hb].
Qed.

(** The offline path end to end.  For a non-empty block, positive factors
    and a non-zero sample rate of the processor (under the robot profile:
    more than 27 samples at more than 6000 Hz), the call is logged once;
    whenever transformation followed by the optional watermark returns a
    block, the block has the input's length with every sample in [-1, 1];
    and a block is returned when watermarking is off, or when the block has
    at least two samples and the watermarker's sample rate is not zero. *)
Theorem process_with_ethics_length_and_peak (self : EthicalVoiceProcessor)
    (audio_data : Block) (profile : string) (time1 time2 : Q) :
  audio_data <> [] ->
  (0 < pitch_shift (audio_processor self))%Q ->
  (0 <= formant_shift (audio_processor self))%Q ->
  sample_rate (audio_processor self) <> 0 ->
  (voice_profile (audio_processor self) = "robot" ->
   (27 < length audio_data)%nat /\ 6000 < sample_rate (audio_processor self)) ->
  exists self' r,
    process_with_ethics self audio_data profile time1 time2 = (self', r)
    /\ length (transformation_log self') = S (length (transformation_log self))
    /\ (forall out, r = Ok out ->
          length out = length audio_data /\ Forall (fun s => (Qabs s <= 1)%Q) out)
    /\ (enable_watermarking self = false
        \/ ((2 <= length audio_data)%nat /\ wm_sample_rate (watermark self) <> 0) ->
        exists out, r = Ok out).
Proof.
  intros Hne Hp Hf Hsr Hrobot.
  unfold process_with_ethics, py_truediv.
  destruct (Qeq_bool (inject_Z (sample_rate (audio_processor self))) 0) eqn:E.
  { apply Qeq_bool_iff in E. unfold Qeq in E. cbn in E. lia. }
  destruct (transform_audio_length_and_peak (audio_processor self) audio_data
              Hne Hp Hf Hsr Hrobot) as (t & -> & Hlt & Hbt).
  cbn [mbind result_bind].
  eexists _, _. split; [reflexivity|]. split_and!.
  - cbn. rewrite length_app. cbn. lia.
  - intros out Hout. destruct (enable_watermarking self).
    + destruct (embed_watermark_returned _ _ _ _ _ Hout) as [Hlo Hbo].
      split; [congruence|exact Hbo].
    + inversion Hout; subst. split; [exact Hlt|].
      eapply Forall_impl; [exact Hbt|]. intros s Hs. cbn in Hs. lra.
  - intros Hcase. destruct (enable_watermarking self) eqn:Ew.
    + destruct Hcase as [Hoff|[Hlen Hwm]]; [discriminate|].
      apply embed_watermark_returns; [lia|exact Hwm].
    + eexists. reflexivity.
Qed.

End EthicsProperties.

Lemma process_with_ethics_log_witness :
  exists r,
    process_with_ethics (lib := rational_lib)
      (EthicalVoiceProcessor_init AudioProcessor_default 44100) [] "male_deep" 0 0
    = (with_log (EthicalVoiceProcessor_init AudioProcessor_default 44100)
         [ {| log_timestamp := 0; log_profile := "male_deep";
              log_duration := (of_nat 0 / inject_Z 44100)%Q; log_watermarked := true |} ], r)
    /\ exists e, r = Raise e.
Proof.
  destruct (process_with_ethics_log (lib := rational_lib)
              (EthicalVoiceProcessor_init AudioProcessor_default 44100) [] "male_deep" 0 0)
    as [_ H].
  destruct H as (r & Hr & _ & He); [discriminate|].
  exists r. split; [exact Hr|]. apply He; [reflexivity|discriminate].
Defined.

Lemma process_with_ethics_length_and_peak_witness :
  exists self' out,
    process_with_ethics (lib := rational_lib)
      (EthicalVoiceProcessor_init (AudioProcessor_init 4 2) 4) [3; -0.5]%Q "original" 0 0
    = (self', Ok out)
    /\ length out = 2%nat.
Proof.
  destruct (process_with_ethics_length_and_peak (lib := rational_lib)
              (laws := rational_lib_laws)
              (EthicalVoiceProcessor_init (AudioProcessor_init 4 2) 4)
              [3; -0.5]%Q "original" 0 0) as (self' & r & H1 & _ & H3 & H4).
  - discriminate.
  - reflexivity.
  - discriminate.
  - discriminate.
  - discriminate.
  - destruct H4 as [out Hout]; [right; split; [cbn; lia|discriminate]|].
    subst r. exists self', out. split; [exact H1|]. exact (proj1 (H3 out eq_refl)).
Defined.

(** ** The profile registry *)

(** [add_profile], [get_profile] and [remove_profile] are a map: a profile
    added is the profile found under its name, replacing any other of that
    name and leaving every other name alone (a custom profile created
    without effects or modifiers is found with an empty list and an empty
    dict); a removed name raises
    [KeyError] afterwards; removing an absent name changes nothing; and
    adding a new name and removing it again gives back the registry. *)
Theorem registry_add_get_remove (registry : gmap string VoiceProfile.t)
    (profile : VoiceProfile.t) (name display_name description : string)
    (pitch formant : Q) :
  get_profile (add_profile registry profile) (VoiceProfile.name profile) = Found profile
  /\ get_profile
       (create_custom_profile registry name display_name description pitch formant
          None None).1 name
     = Found (VoiceProfile.mk name display_name description pitch formant [] ∅)
  /\ (name <> VoiceProfile.name profile ->
      get_profile (add_profile registry profile) name = get_profile registry name)
  /\ get_profile (remove_profile registry name) name
     = KeyError (String.append "Voice profile '" (String.append name "' not found"))
  /\ (registry !! name = None -> remove_profile registry name = registry)
  /\ (registry !! VoiceProfile.name profile = None ->
      remove_profile (add_profile registry profile) (VoiceProfile.name profile) = registry).
Proof.
  unfold get_profile, create_custom_profile, add_profile, remove_profile. split_and!.
  - rewrite lookup_insert_eq. reflexivity.
  - cbn. rewrite lookup_insert_eq. reflexivity.
  - intros Hne. rewrite lookup_insert_ne by congruence. reflexivity.
  - destruct (registry !! name) eqn:E.
    + rewrite lookup_delete_eq. reflexivity.
    + rewrite E. reflexivity.
  - intros ->. reflexivity.
  - intros Hnone. rewrite lookup_insert_eq.
    rewrite delete_insert_eq. apply delete_id, Hnone.
Qed.

(** Of the ten profiles the registry starts with, the processor applies
    three as the registry describes them: selecting a registry profile on
    a new processor gives the registry's pitch and formant factors exactly
    when the profile is original, elderly or robot.  For the other seven
    the processor's factors differ from the registry's. *)
Theorem registry_profiles_applied (name : string) (p : VoiceProfile.t) :
  VoiceProfileManager_init !! name = Some p ->
  ((pitch_shift (set_voice_profile AudioProcessor_default name)
    == VoiceProfile.pitch_shift p)%Q
   /\ (formant_shift (set_voice_profile AudioProcessor_default name)
       == VoiceProfile.formant_shift p)%Q)
  <-> name ∈ ["original"; "elderly"; "robot"].
Proof.
  unfold VoiceProfileManager_init, default_voice_profiles. cbn [foldl].
  unfold add_profile. cbn [VoiceProfile.name]. intros H.
  repeat (rewrite lookup_insert in H; destruct (decide _) as [<-|_];
          [injection H as <-;
           first
             [ split; [intros _; set_solver|intros _; split; vm_compute; reflexivity]
             | split; [intros [H1 _]; vm_compute in H1; discriminate H1
                      |intros Hin; exfalso;
                       repeat (apply elem_of_cons in Hin as [Hin|Hin]; [discriminate Hin|]);
                       inversion Hin] ]
          |]).
  rewrite lookup_empty in H. discriminate.
Qed.

Lemma registry_profiles_applied_witness :
  ~ ((pitch_shift (set_voice_profile AudioProcessor_default "child") == 1.6)%Q
     /\ (formant_shift (set_voice_profile AudioProcessor_default "child") == 1.25)%Q).
Proof.
  intros H.
  assert (Hp : exists p, VoiceProfileManager_init !! "child" = Some p
                         /\ VoiceProfile.pitch_shift p = 1.6%Q
                         /\ VoiceProfile.formant_shift p = 1.25%Q).
  { eexists. split; [vm_compute; reflexivity|]. split; reflexivity. }
  destruct Hp as (p & Hp & H1 & H2).
  pose proof (proj1 (registry_profiles_applied "child" p Hp)) as Hin.
  rewrite H1, H2 in Hin. specialize (Hin H).
  repeat (apply elem_of_cons in Hin as [Hin|Hin]; [discriminate Hin|]).
  inversion Hin.
Defined.

(** ** Equalizer and emotion effects: block length *)

Lemma decade_lib_laws : SignalLibLaws decade_lib.
Proof.
  split.
  - intros b a x y H. cbn in H. unfold passthrough_filtfilt in H.
    destruct (_ <? _)%nat; inversion H. reflexivity.
  - intros b a x H. cbn. unfold passthrough_filtfilt.
    apply Nat.ltb_lt in H. rewrite H. eexists. reflexivity.
  - intros fs _. eexists _, _. split; [reflexivity|]. split; reflexivity.
Qed.

Section EmotionProperties.
Context {lib : SignalLib} {laws : SignalLibLaws lib} {pow : PowLaws lib}.

Lemma eq_band_length (sample_rate : Z) (processed : Block) (band : Q * Q) :
  sample_rate <> 0 -> (9 < length processed)%nat -> (band.2 <= 6160)%Q ->
  exists out, eq_band sample_rate processed band = Ok out
              /\ length out = length processed.
Proof.
  intros Hsr Hlen Hgain. destruct band as [freq gain_db]. cbn in Hgain.
  unfold eq_band, py_truediv.
  rewrite (py_pow10_finite _ (gain_finite _ Hgain)). cbn [mbind result_bind].
  rewrite (nyquist_nonzero _ Hsr). cbn [mbind result_bind].
  destruct (_ && _); [|eexists; split; reflexivity].
  match goal with |- context [signal_filtfilt ?b ?a processed] =>
    destruct (filtfilt_ok b a processed) as [out Hout]; [cbn; lia|];
    exists out; split; [exact Hout|exact (filtfilt_length _ _ _ _ Hout)]
  end.
Qed.

Lemma apply_eq_length (sample_rate : Z) (audio_data : Block) (eq_bands : list (Q * Q)) :
  sample_rate <> 0 -> (9 < length audio_data)%nat ->
  Forall (fun band => (band.2 <= 6160)%Q) eq_bands ->
  exists out, _apply_eq sample_rate audio_data eq_bands = Ok out
              /\ length out = length audio_data.
Proof.
  intros Hsr Hlen Hgains. unfold _apply_eq. revert audio_data Hlen.
  induction Hgains as [|band bands Hband _ IH]; intros audio_data Hlen; cbn [foldl].
  - eexists. split; reflexivity.
  - cbn [mbind result_bind].
    destruct (eq_band_length sample_rate audio_data band Hsr Hlen Hband) as (p & -> & Hp).
    destruct (IH p) as (out & Hout & Ho); [lia|].
    exists out. split; [exact Hout|congruence].
Qed.

Lemma eq_band_returned (sample_rate : Z) (processed : Block) (band : Q * Q) (out : Block) :
  eq_band sample_rate processed band = Ok out -> length out = length processed.
Proof.
  destruct band as [freq gain_db]. unfold eq_band.
  destruct (py_pow10 _) as [gain_linear|e]; cbn [mbind result_bind]; [|discriminate].
  destruct (py_truediv _ _) as [normalized_freq|e]; cbn [mbind result_bind]; [|discriminate].
  destruct (_ && _).
  - apply filtfilt_length.
  - intros H. inversion H. reflexivity.
Qed.

Lemma apply_eq_raised (sample_rate : Z) (e : exn) (eq_bands : list (Q * Q)) :
  foldl (fun acc band => processed ← acc; eq_band sample_rate processed band)
        (Raise e) eq_bands = Raise e.
Proof. induction eq_bands as [|band bands IH]; [reflexivity|exact IH]. Qed.

Lemma apply_eq_returned (sample_rate : Z) (eq_bands : list (Q * Q)) :
  forall audio_data out,
    _apply_eq sample_rate audio_data eq_bands = Ok out -> length out = length audio_data.
Proof.
  unfold _apply_eq.
  induction eq_bands as [|band bands IH]; intros audio_data out H; cbn [foldl] in H.
  - inversion H. reflexivity.
  - cbn [mbind result_bind] in H.
    destruct (eq_band sample_rate audio_data band) as [p|e] eqn:E.
    + rewrite (IH p out H). exact (eq_band_returned _ _ _ _ E).
    + rewrite apply_eq_raised in H. discriminate H.
Qed.

(** The equalizer never changes the block length: whenever [_apply_eq]
    returns a block, for whatever bands and sample rate, the block has the
    length of the input (the filter keeps the shape of its input).  A band
    list that holds only bands out of range, with gains of at most 6160 dB,
    returns the input block itself at a non-zero sample rate. *)
Theorem apply_eq_preserves_length (sample_rate : Z) (audio_data : Block)
    (eq_bands : list (Q * Q)) :
  (forall out, _apply_eq sample_rate audio_data eq_bands = Ok out ->
     length out = length audio_data)
  /\ (sample_rate <> 0 ->
      Forall (fun band => ~ band_in_range sample_rate band.1 /\ (band.2 <= 6160)%Q) eq_bands ->
      _apply_eq sample_rate audio_data eq_bands = Ok audio_data).
Proof.
  split.
  - intros out. apply apply_eq_returned.
  - intros Hsr Hbands. unfold _apply_eq.
    induction Hbands as [|[freq gain_db] bands [Hband Hgain] _ IH]; [reflexivity|].
    cbn [foldl mbind result_bind].
    rewrite (eq_band_out_of_range sample_rate audio_data freq gain_db Hsr Hband Hgain).
    exact IH.
Qed.

Lemma time_axis_length (sample_rate : Z) (n : nat) :
  length (time_axis sample_rate n) = n.
Proof. unfold time_axis. rewrite length_map. apply np_arange_length. Qed.

(** Happiness and sadness keep the block length: at a non-zero sample
    rate, on a block of more than 9 samples and for an intensity in the
    documented range from 0.0 to 2.0, [apply_happiness] and [apply_sadness]
    return a block of the input's length. *)
Theorem emotion_effects_preserve_length (sample_rate : Z) (audio_data : Block)
    (intensity : Q) :
  sample_rate <> 0 -> (9 < length audio_data)%nat ->
  (0 <= intensity)%Q -> (intensity <= 2)%Q ->
  (exists out, apply_happiness sample_rate audio_data intensity = Ok out
               /\ length out = length audio_data)
  /\ (exists out, apply_sadness sample_rate audio_data intensity = Ok out
                  /\ length out = length audio_data).
Proof.
  intros Hsr Hlen Hi0 Hi2.
  assert (Hne : audio_data <> []) by (intros ->; cbn in Hlen; lia).
  split.
  - unfold apply_happiness.
    destruct (pitch_shift_audio_length audio_data (1.0 + 0.1 * intensity)%Q Hne)
      as (p & -> & Hp); [lra|].
    cbn [mbind result_bind].
    match goal with |- context [_apply_eq sample_rate ?x ?bands] =>
      destruct (apply_eq_length sample_rate x bands Hsr) as (out & Hout & Ho)
    end.
    { rewrite length_zip_with, length_map, time_axis_length. lia. }
    { repeat constructor; cbn; lra. }
    exists out. split; [exact Hout|].
    rewrite Ho, length_zip_with, length_map, time_axis_length. lia.
  - unfold apply_sadness.
    destruct (pitch_shift_audio_length audio_data (1.0 - 0.15 * intensity)%Q Hne)
      as (p & -> & Hp); [lra|].
    cbn [mbind result_bind].
    match goal with |- context [_apply_eq sample_rate ?x ?bands] =>
      destruct (apply_eq_length sample_rate x bands Hsr) as (out & Hout & Ho)
    end.
    { rewrite length_zip_with, length_map, time_axis_length. lia. }
    { repeat constructor; cbn; lra. }
    exists out. split; [exact Hout|].
    rewrite Ho, length_zip_with, length_map, time_axis_length. lia.
Qed.

End EmotionProperties.

Lemma apply_eq_preserves_length_witness :
  exists out,
    _apply_eq (lib := decade_lib) 44100 (replicate 10 0.5%Q) [(2000, 3); (30000, 2)]%Q = Ok out
    /\ length out = 10%nat.
Proof.
  assert (H : {out | _apply_eq (lib := decade_lib) 44100 (replicate 10 0.5%Q)
                       [(2000, 3); (30000, 2)]%Q = Ok out})
    by (eexists; vm_compute; reflexivity).
  destruct H as [out H]. exists out. split; [exact H|].
  exact (proj1 (apply_eq_preserves_length (lib := decade_lib) (laws := decade_lib_laws)
                  (pow := decade_lib_pow) 44100 (replicate 10 0.5%Q)
                  [(2000, 3); (30000, 2)]%Q) out H).
Defined.

Lemma emotion_effects_preserve_length_witness :
  exists out,
    apply_happiness (lib := decade_lib) 44100 (replicate 10 0.5%Q) 1 = Ok out
    /\ length out = 10%nat.
Proof.
  destruct (emotion_effects_preserve_length (lib := decade_lib) (laws := decade_lib_laws)
              (pow := decade_lib_pow) 44100 (replicate 10 0.5%Q) 1) as [H _].
  - discriminate.
  - cbn. lia.
  - discriminate.
  - discriminate.
  - exact H.
Defined.

(** Only "confidence" counts among the emotion modifiers: setting or
    removing any other key does not change the result, without the key the
    block is returned as it is, and the length never changes. *)
Theorem emotion_modifiers_only_confidence (audio_data : Block)
    (emotion_modifiers : gmap string Q) (key : string) (value : Q) :
  key <> "confidence" ->
  apply_emotion_modifiers audio_data (<[key := value]> emotion_modifiers)
  = apply_emotion_modifiers audio_data emotion_modifiers
  /\ apply_emotion_modifiers audio_data (delete key emotion_modifiers)
     = apply_emotion_modifiers audio_data emotion_modifiers
  /\ (emotion_modifiers !! "confidence" = None ->
      apply_emotion_modifiers audio_data emotion_modifiers = audio_data)
  /\ length (apply_emotion_modifiers audio_data emotion_modifiers) = length audio_data.
Proof.
  intros Hk. unfold apply_emotion_modifiers. split_and!.
  - rewrite lookup_insert_ne by exact Hk. reflexivity.
  - rewrite lookup_delete_ne by exact Hk. reflexivity.
  - intros ->. reflexivity.
  - destruct (_ !! _); [apply length_map|reflexivity].
Qed.

Lemma emotion_modifiers_only_confidence_witness :
  apply_emotion_modifiers [0.5; 0.25]%Q (<["playfulness" := 1.5%Q]> ∅)
  = apply_emotion_modifiers [0.5; 0.25]%Q ∅.
Proof.
  assert (H : "playfulness" <> "confidence") by discriminate.
  exact (proj1 (emotion_modifiers_only_confidence [0.5; 0.25]%Q ∅ "playfulness" 1.5 H)).
Defined.

(** ** Chorus *)

Lemma py_int_Qeq (q r : Q) : (q == r)%Q -> py_int q = py_int r.
Proof.
  intros H. unfold py_int, Qeq in *.
  rewrite <- (Z.quot_mul_cancel_r (Qnum q) (Z.pos (Qden q)) (Z.pos (Qden r))) by lia.
  rewrite <- (Z.quot_mul_cancel_r (Qnum r) (Z.pos (Qden r)) (Z.pos (Qden q))) by lia.
  rewrite H. f_equal. lia.
Qed.

Lemma fold_Qplus_constant (c : Q) (l : Block) (a : Q) :
  Forall (fun x => (x == c)%Q) l ->
  (fold_left Qplus l a == a + of_nat (length l) * c)%Q.
Proof.
  intros H. revert a. induction H as [|x l Hx _ IH]; intros a.
  - cbn. change (of_nat 0) with 0%Q. ring.
  - cbn [fold_left length]. rewrite IH, Hx.
    assert (Hs : (of_nat (S (length l)) == of_nat (length l) + 1)%Q).
    { unfold of_nat. rewrite Nat2Z.inj_succ, <- Z.add_1_r, inject_Z_plus. reflexivity. }
    rewrite Hs. ring.
Qed.

Lemma np_mean_constant (c : Q) (l : Block) :
  l <> [] -> Forall (fun x => (x == c)%Q) l -> (np_mean l == c)%Q.
Proof.
  intros Hne H. unfold np_mean, Qsum. rewrite (fold_Qplus_constant c l 0 H).
  assert (Hn : ~ (of_nat (length l) == 0)%Q).
  { destruct l; [congruence|]. unfold of_nat, Qeq. cbn. lia. }
  field. exact Hn.
Qed.

Lemma delayed_copy_length (avg : Z) (audio_data : Block) :
  avg <> 0 -> avg < Z.of_nat (length audio_data) ->
  exists d, delayed_copy avg audio_data = Ok d /\ length d = length audio_data.
Proof.
  intros H0 Hlt. unfold delayed_copy.
  destruct (avg =? 0) eqn:E0; [apply Z.eqb_eq in E0; contradiction|].
  destruct (0 <? avg) eqn:Epos.
  - apply Z.ltb_lt in Epos. eexists. split; [reflexivity|].
    rewrite length_app, length_replicate, length_take. lia.
  - eexists. split; [reflexivity|].
    rewrite length_app, length_replicate, length_take. lia.
Qed.

Section ChorusProperties.
Context {lib : SignalLib}.

Lemma chorus_voice_length (sample_rate : Z) (audio_data chorus_audio : Block)
    (depth rate : Q) (voice : nat) :
  length chorus_audio = length audio_data ->
  chorus_voice_delay sample_rate (length audio_data) depth rate voice <> 0 ->
  exists c, chorus_voice sample_rate audio_data depth rate chorus_audio voice = Ok c
            /\ length c = length audio_data.
Proof.
  intros Hc Hd. unfold chorus_voice.
  destruct (_ <? _) eqn:E; [|eexists; split; [reflexivity|exact Hc]].
  apply Z.ltb_lt in E.
  destruct (delayed_copy_length _ audio_data Hd E) as (d & -> & Hl).
  cbn [mbind result_bind]. eexists. split; [reflexivity|].
  unfold np_add. rewrite length_zip_with, length_map. lia.
Qed.

(** The chorus keeps the block length or fails.  On the empty block and
    with sample rate 0 it raises [ValueError]; on a non-empty block at a
    non-zero sample rate, if no voice has an average delay of exactly 0
    samples, it returns a block of the input's length. *)
Theorem apply_chorus_length (sample_rate : Z) (audio_data : Block)
    (depth rate wet_level : Q) :
  (audio_data = [] \/ sample_rate = 0 ->
   apply_chorus sample_rate audio_data depth rate wet_level = Raise ValueError)
  /\ (audio_data <> [] -> sample_rate <> 0 ->
      (forall voice, (voice < 3)%nat ->
         chorus_voice_delay sample_rate (length audio_data) depth rate voice <> 0) ->
      exists out, apply_chorus sample_rate audio_data depth rate wet_level = Ok out
                  /\ length out = length audio_data).
Proof.
  unfold apply_chorus. split.
  - intros [-> | ->]; [reflexivity|]. rewrite orb_true_r. reflexivity.
  - intros Hne Hsr Hd.
    destruct (length audio_data =? 0)%nat eqn:E1.
    { apply Nat.eqb_eq in E1. destruct audio_data; [congruence|discriminate]. }
    destruct (sample_rate =? 0) eqn:E2; [apply Z.eqb_eq in E2; contradiction|].
    cbn [orb foldl seq].
    destruct (chorus_voice_length sample_rate audio_data
                (replicate (length audio_data) 0%Q) depth rate 0)
      as (c0 & H0 & L0); [apply length_replicate|apply Hd; lia|].
    cbn [mbind result_bind]. rewrite H0.
    destruct (chorus_voice_length sample_rate audio_data c0 depth rate 1)
      as (c1 & H1 & L1); [exact L0|apply Hd; lia|].
    cbn [mbind result_bind]. rewrite H1.
    destruct (chorus_voice_length sample_rate audio_data c1 depth rate 2)
      as (c2 & H2 & L2); [exact L1|apply Hd; lia|].
    cbn [mbind result_bind]. rewrite H2.
    cbn [mbind result_bind]. eexists. split; [reflexivity|].
    unfold np_add, np_scale. rewrite length_zip_with, !length_map. lia.
Qed.

Lemma chorus_voice_delay_flat (sample_rate : Z) (n : nat) (depth rate : Q) (voice : nat) :
  n <> 0%nat -> (depth == 0)%Q ->
  chorus_voice_delay sample_rate n depth rate voice
  = py_int ((10 + of_nat voice * 5) * inject_Z sample_rate / 1000)%Q.
Proof.
  intros Hn Hdepth. unfold chorus_voice_delay. apply py_int_Qeq.
  rewrite np_mean_constant with (c := (10 + of_nat voice * 5)%Q); [reflexivity| |].
  - intros H. apply (f_equal length) in H.
    rewrite length_map, time_axis_length in H. cbn in H. contradiction.
  - rewrite Forall_map. apply Forall_forall. intros ti _. cbn beta.
    rewrite Hdepth. ring.
Qed.

(** A block no longer than the shortest voice delay gets no chorus at
    all.  With depth 0 the voice delays are [int((10 + 5 * voice) *
    sample_rate / 1000)] samples; on a non-empty block of at most
    [int(10 * sample_rate / 1000)] samples (441 at 44100 Hz) the result is
    the dry block scaled by [1 - wet_level]. *)
Theorem apply_chorus_short_block (sample_rate : Z) (audio_data : Block)
    (depth rate wet_level : Q) :
  audio_data <> [] -> 0 < sample_rate -> (depth == 0)%Q ->
  Z.of_nat (length audio_data) <= py_int (10 * inject_Z sample_rate / 1000)%Q ->
  exists out, apply_chorus sample_rate audio_data depth rate wet_level = Ok out
              /\ Forall2 Qeq out (np_scale (1.0 - wet_level)%Q audio_data).
Proof.
  intros Hne Hsr Hdepth Hshort. unfold apply_chorus.
  destruct (length audio_data =? 0)%nat eqn:E1.
  { apply Nat.eqb_eq in E1. destruct audio_data; [congruence|discriminate]. }
  destruct (sample_rate =? 0) eqn:E2; [apply Z.eqb_eq in E2; lia|].
  assert (Hn : length audio_data <> 0%nat) by (apply Nat.eqb_neq, E1).
  assert (HS : (0 < inject_Z sample_rate)%Q) by (unfold Qlt; cbn; lia).
  assert (Hskip : forall voice chorus_audio,
             chorus_voice sample_rate audio_data depth rate chorus_audio voice
             = Ok chorus_audio).
  { intros voice chorus_audio. unfold chorus_voice.
    rewrite (chorus_voice_delay_flat sample_rate _ depth rate voice Hn Hdepth).
    destruct (_ <? _) eqn:E; [|reflexivity].
    apply Z.ltb_lt in E. exfalso.
    assert (H10 : (0 <= 10 * inject_Z sample_rate / 1000)%Q).
    { apply Qle_shift_div_l; [reflexivity|]. lra. }
    pose proof (py_int_le _ H10) as Hle.
    assert (Hv : (inject_Z (Z.of_nat (length audio_data))
                  <= (10 + of_nat voice * 5) * inject_Z sample_rate / 1000)%Q).
    { apply (Qle_trans _ (inject_Z (py_int (10 * inject_Z sample_rate / 1000)))).
      - rewrite <- Zle_Qle. exact Hshort.
      - apply (Qle_trans _ _ _ Hle).
        apply Qle_shift_div_l; [reflexivity|].
        assert (Hd : (10 * inject_Z sample_rate / 1000 * 1000 == 10 * inject_Z sample_rate)%Q)
          by field.
        rewrite Hd. pose proof (of_nat_nonneg voice). nra. }
    pose proof (py_int_lower _ _ Hv). lia. }
  cbn [orb foldl seq mbind result_bind].
  repeat (rewrite Hskip; cbn [mbind result_bind]).
  eexists. split; [reflexivity|].
  unfold np_add, np_scale. generalize (1.0 - wet_level)%Q. intros dry.
  clear. induction audio_data as [|x audio IH]; cbn; constructor; [ring|exact IH].
Qed.

End ChorusProperties.

Lemma apply_chorus_length_witness :
  exists out,
    apply_chorus (lib := rational_lib) 1000 [0.5; 0.25; -0.5]%Q 0 1 0.5 = Ok out
    /\ length out = 3%nat.
Proof.
  destruct (apply_chorus_length (lib := rational_lib) 1000 [0.5; 0.25; -0.5]%Q 0 1 0.5)
    as [_ H].
  apply H.
  - discriminate.
  - discriminate.
  - intros voice Hv.
    destruct voice as [|[|[|voice]]]; [vm_compute; discriminate..|lia].
Defined.

Lemma apply_chorus_short_block_witness :
  exists out,
    apply_chorus (lib := rational_lib) 1000 [0.5; 0.25; -0.5]%Q 0 1 0.5 = Ok out
    /\ Forall2 Qeq out (np_scale (1.0 - 0.5)%Q [0.5; 0.25; -0.5]%Q).
Proof.
  apply (apply_chorus_short_block (lib := rational_lib) 1000 [0.5; 0.25; -0.5]%Q 0 1 0.5).
  - discriminate.
  - reflexivity.
  - reflexivity.
  - vm_compute. discriminate.
Defined.

(** ** Detection results, metadata collisions *)

Section DetectionProperties.
Context {lib : SignalLib}.

(** What [detect_watermark] can return: either "not detected" without
    metadata, or "detected" with metadata whose energy ratio exceeds the
    threshold 1e-6 and whose confidence, [min(ratio / threshold, 1.0)], is
    therefore always exactly 1.0. *)
Theorem detect_watermark_outcomes (self : AudioWatermark) (audio_data : Block)
    (found : bool) (metadata : option Detection) :
  detect_watermark self audio_data = Ok (found, metadata) ->
  (found = false /\ metadata = None)
  \/ (found = true
      /\ exists d, metadata = Some d
           /\ detected d = true
           /\ ((1 # 1000000) < energy_ratio d)%Q
           /\ detection_confidence d = 1.0%Q).
Proof.
  unfold detect_watermark.
  destruct (Qltb (of_nat _) _); [intros [= <- <-]; left; split; reflexivity|].
  destruct (np_fft _) as [fft|e]; cbn [mbind result_bind]; [|discriminate].
  destruct (py_truediv 1 _) as [d|e]; cbn [mbind result_bind]; [|discriminate].
  destruct (np_fftfreq _ d) as [freqs|e]; cbn [mbind result_bind]; [|discriminate].
  destruct (negb _); [intros [= <- <-]; left; split; reflexivity|].
  match goal with |- context [Qltb (1 # 1000000) ?r] =>
    set (ratio := r); destruct (Qltb (1 # 1000000) ratio) eqn:E
  end; [|intros [= <- <-]; left; split; reflexivity].
  destruct (np_argmax _) as [idx|e]; cbn [mbind result_bind]; [|discriminate].
  intros [= <- <-]. right. split; [reflexivity|].
  eexists. split; [reflexivity|]. cbn [detected energy_ratio detection_confidence].
  apply Qltb_lt in E. split_and!; [reflexivity|exact E|].
  unfold py_min.
  assert (H1 : (1.0 < ratio / (1 # 1000000))%Q).
  { apply Qlt_shift_div_l; [reflexivity|]. lra. }
  apply Qltb_lt in H1. rewrite H1. reflexivity.
Qed.

(** The watermark depends on the metadata only through its digest modulo
    100: two non-empty metadata dicts with the same residue give the same
    watermarked block, and an empty dict gives the unshifted marker tone,
    whatever [int(time.time())] is. *)
Theorem embed_watermark_metadata_collision (self : AudioWatermark) (audio_data : Block)
    (m1 m2 : gmap string PyVal) (now1 now2 : Z) :
  m1 <> ∅ -> m2 <> ∅ ->
  metadata_digest m1 mod 100 = metadata_digest m2 mod 100 ->
  embed_watermark self audio_data (Some m1) now1
  = embed_watermark self audio_data (Some m2) now2.
Proof.
  intros H1 H2 Hd. unfold embed_watermark, generate_watermark_signal.
  rewrite !bool_decide_eq_false_2 by assumption. rewrite Hd. reflexivity.
Qed.

End DetectionProperties.

(** A watermarker that searches the band around 2 Hz at 10 samples per
    second. *)
Definition slow_watermark : AudioWatermark :=
  {| wm_sample_rate := 10; watermark_freq := 2;
     watermark_amplitude := 0.001; watermark_duration := 0.1 |}.

Lemma detect_watermark_outcomes_witness :
  exists d,
    detect_watermark (lib := rational_lib) slow_watermark [1%Q] = Ok (true, Some d)
    /\ detection_confidence d = 1.0%Q.
Proof.
  assert (H : { d | detect_watermark (lib := rational_lib) slow_watermark [1%Q]
                    = Ok (true, Some d) }).
  { eexists. vm_compute. reflexivity. }
  destruct H as [d E]. exists d. split; [exact E|].
  destruct (detect_watermark_outcomes (lib := rational_lib) slow_watermark [1%Q]
              true (Some d) E) as [[Hf _]|(_ & d' & Hm & _ & _ & Hc)].
  - discriminate Hf.
  - injection Hm as <-. exact Hc.
Defined.

Lemma embed_watermark_metadata_collision_witness :
  embed_watermark (lib := rational_lib) (AudioWatermark_init 4) [0.5; 0.25]%Q
    (Some (<["profile" := PyStr "a"]> ∅)) 0
  = embed_watermark (lib := rational_lib) (AudioWatermark_init 4) [0.5; 0.25]%Q
      (Some (<["profile" := PyStr "b"]> ∅)) 1.
Proof.
  apply (embed_watermark_metadata_collision (lib := rational_lib)).
  - apply insert_non_empty.
  - apply insert_non_empty.
  - reflexivity.
Defined.

(** ** Selecting profiles one after another; the render callback *)

(** Selecting a profile the table knows overrides everything an earlier
    selection did, and selecting any name twice is the same as selecting
    it once. *)
Theorem set_voice_profile_last_known (self : AudioProcessor) (name1 name2 : string) :
  (name2 ∈ known_profiles ->
   set_voice_profile (set_voice_profile self name1) name2 = set_voice_profile self name2)
  /\ set_voice_profile (set_voice_profile self name1) name1 = set_voice_profile self name1.
Proof.
  split.
  - intros Hin.
    assert (Hs : exists pf, profiles !! name2 = Some pf).
    { unfold known_profiles in Hin.
      repeat (apply elem_of_cons in Hin as [->|Hin]; [eexists; vm_compute; reflexivity|]).
      inversion Hin. }
    destruct Hs as [[p f] Hs]. unfold set_voice_profile. rewrite Hs.
    destruct (profiles !! name1) as [[p1 f1]|]; reflexivity.
  - unfold set_voice_profile.
    destruct (profiles !! name1) as [[p1 f1]|]; reflexivity.
Qed.

Lemma set_voice_profile_last_known_witness :
  set_voice_profile (set_voice_profile AudioProcessor_default "child") "male"
  = set_voice_profile AudioProcessor_default "male".
Proof.
  apply (set_voice_profile_last_known AudioProcessor_default "child" "male").
  unfold known_profiles. set_solver.
Defined.

(** The render callback.  On an empty output queue it writes silence into
    [outdata], keeps its shape, changes nothing and raises nothing.  A
    pending block whose length is neither the number of frames nor 1 is
    taken from the queue and lost: [ValueError] escapes the callback and
    [outdata] is left as it was. *)
Theorem audio_output_callback_outcomes (self : AudioProcessor) (outdata : Frames) :
  (pending (output_queue self) = [] ->
   audio_output_callback self outdata None = (self, fill_zero outdata, [], None)
   /\ channels (fill_zero outdata) = channels outdata
   /\ length (frames (fill_zero outdata)) = length (frames outdata)
   /\ Forall (Forall (fun s => s = 0%Q)) (frames (fill_zero outdata)))
  /\ (forall block rest,
        pending (output_queue self) = block :: rest ->
        channels outdata <> 0%nat ->
        length block <> length (frames outdata) -> length block <> 1%nat ->
        audio_output_callback self outdata None
        = (with_output_queue self (mkQueue (maxsize (output_queue self)) rest),
           outdata, [], Some ValueError)).
Proof.
  split.
  - intros Hq. unfold audio_output_callback, get_nowait. rewrite Hq.
    split_and!; try reflexivity.
    + unfold fill_zero. cbn. apply length_map.
    + unfold fill_zero. cbn. rewrite Forall_map. apply Forall_forall. intros row _.
      cbn. rewrite Forall_map. apply Forall_forall. intros s _. reflexivity.
  - intros block rest Hq Hch Hlen H1. unfold audio_output_callback, get_nowait. rewrite Hq.
    apply Nat.eqb_neq in Hch, Hlen, H1.
    rewrite Hch. unfold set_column. rewrite Hlen, H1. reflexivity.
Qed.

Lemma audio_output_callback_outcomes_witness :
  audio_output_callback AudioProcessor_default (mkFrames 2 [[0.3; 0.3]; [0.1; 0.1]]%Q) None
  = (AudioProcessor_default, mkFrames 2 [[0; 0]; [0; 0]]%Q, [], None).
Proof.
  destruct (audio_output_callback_outcomes AudioProcessor_default
              (mkFrames 2 [[0.3; 0.3]; [0.1; 0.1]]%Q)) as [H _].
  exact (proj1 (H eq_refl)).
Defined.
